(** * Buildora chat page: the generation and modification orchestrator

    A shallow embedding of the [ChatPage] component (the chat page of the
    Buildora front end) and of the properties its specification states
    about it.

    The component is a set of [async] functions that share React state and
    refs and talk to five HTTP services.  An [async] function is embedded
    as a finite tree of primitive operations ([Prog]): reading the state a
    closure captured, a state setter or ref assignment, a call to a
    function defined outside the file, and an [await] of an HTTP request.
    The tree is run in two ways: to completion against a world that
    answers every request ([exec]), and one synchronous segment at a time
    with several calls in flight ([step]); [lone_call] relates the two.

    The definitions come first: the values, the state, the component's
    functions as written, the two ways of running them, the readings
    of the specification, and the landing page ([Index]) that opens the
    chat page.  The theorems follow, named after the claims (C1 to C10)
    they settle, and after them further properties of the two components
    (X1 to X26). *)

From Stdlib Require Import ZArith List String Ascii Bool Lia DecimalString.
Import ListNotations.
Open Scope string_scope.
Open Scope list_scope.

Set Implicit Arguments.
Set Warnings "-register-all".

(** ** JavaScript values *)

(** The values that travel through the component: what [axios] hands back
    as [res.data], what [JSON.parse] and [parseFrontendCode] return, and
    the bodies of the requests.  Numbers are the integers. *)
Inductive jsval : Type :=
| JUndefined
| JNull
| JBool (b : bool)
| JNum (n : Z)
| JStr (s : string)
| JArr (items : list jsval)
| JObj (fields : list (string * jsval)).

(** What a [throw] carries: a [TypeError] raised by the language itself
    (a property read on [undefined] or [null], a call of something that is
    not a function), or whatever a rejected request or an outside function
    raised. *)
Inductive exn : Type :=
| TypeError
| Raised (reason : jsval).

(** How an [await] or a call ends. *)
Inductive outcome : Type :=
| Returns (v : jsval)
| Throws (e : exn).

(** [if (v)] *)
Definition truthy (v : jsval) : bool :=
  match v with
  | JUndefined | JNull => false
  | JBool b => b
  | JNum n => negb (Z.eqb n 0)
  | JStr s => negb (String.eqb s EmptyString)
  | JArr _ | JObj _ => true
  end.

Fixpoint assoc (name : string) (fields : list (string * jsval)) : option jsval :=
  match fields with
  | [] => None
  | (k, v) :: rest => if String.eqb k name then Some v else assoc name rest
  end.

Definition or_undefined (o : option jsval) : jsval :=
  match o with Some v => v | None => JUndefined end.

(** [v.name]: a [TypeError] on [undefined] and [null], [undefined] for a
    name the value does not have. *)
Definition prop (v : jsval) (name : string) : outcome :=
  match v with
  | JUndefined | JNull => Throws TypeError
  | JObj fields => Returns (or_undefined (assoc name fields))
  | JArr items =>
      if String.eqb name "length" then Returns (JNum (Z.of_nat (List.length items)))
      else Returns JUndefined
  | JStr s =>
      if String.eqb name "length" then Returns (JNum (Z.of_nat (String.length s)))
      else Returns JUndefined
  | JBool _ | JNum _ => Returns JUndefined
  end.

(** [v[i]] *)
Definition index (v : jsval) (i : nat) : outcome :=
  match v with
  | JUndefined | JNull => Throws TypeError
  | JArr items => Returns (nth i items JUndefined)
  | JStr s =>
      match String.get i s with
      | Some c => Returns (JStr (String c EmptyString))
      | None => Returns JUndefined
      end
  | JObj fields =>
      Returns (or_undefined (assoc (NilZero.string_of_uint (Nat.to_uint i)) fields))
  | JBool _ | JNum _ => Returns JUndefined
  end.

(** Decimal rendering of an integer: [n.toString()] and [`${n}`]. *)
Definition toString (n : Z) : string := NilZero.string_of_int (Z.to_int n).

(** ** Strings *)

(** White space for [String.prototype.trim], over the code units a Rocq
    string holds (the code units below 256): tab, line feed, vertical tab,
    form feed, carriage return, space and no-break space. *)
Definition is_white_space (c : ascii) : bool :=
  let n := nat_of_ascii c in
  ((9 <=? n)%nat && (n <=? 13)%nat) || (n =? 32)%nat || (n =? 160)%nat.

Fixpoint trim_start (s : string) : string :=
  match s with
  | EmptyString => EmptyString
  | String c rest => if is_white_space c then trim_start rest else s
  end.

Fixpoint trim_end (s : string) : string :=
  match s with
  | EmptyString => EmptyString
  | String c rest =>
      match trim_end rest with
      | EmptyString => if is_white_space c then EmptyString else String c EmptyString
      | kept => String c kept
      end
  end.

(** [s.trim()] *)
Definition trim (s : string) : string := trim_end (trim_start s).

(** [!s] for a string *)
Definition is_empty (s : string) : bool := String.eqb s EmptyString.

(** ** The component's state *)

(** [projectStatus]: "idle" | "loading" | "ready" | "error" *)
Inductive status : Type := SIdle | SLoading | SReady | SError.

Inductive sender : Type := User | Assistant.

(** [interface Message] *)
Record Message : Type := mkMessage {
  msg_id : string;
  msg_content : string;
  msg_type : sender;
  msg_timestamp : Z
}.

(** What the router hands to the page: [location.state as LocationState]. *)
Record LocationState : Type := mkLocation {
  navPrompt : option string;
  projectId : option Z;
  existingProject : option bool
}.

(** The [useState] cells, the context cell [value], the three refs, and
    the console. *)
Record Store : Type := mkStore {
  loadingCode : bool;
  messages : list Message;
  prompt : string;
  isLoading : bool;
  previewUrl : jsval;
  error : string;
  projectStatus : status;
  value : jsval;
  hasInitialized : bool;
  isGenerating : bool;
  currentProjectId : option Z;
  console : list (string * exn)
}.

(** The state of a freshly mounted page. *)
Definition initial_store : Store :=
  mkStore false [] EmptyString false (JStr EmptyString) EmptyString SIdle (JObj [])
          false false None [].

(** The writes the component performs. *)
Inductive Cmd : Type :=
| SetLoadingCode (b : bool)
| AppendMessage (m : Message)        (* setMessages(prev => [...prev, m]) *)
| SetPrompt (s : string)
| SetIsLoading (b : bool)
| SetPreviewUrl (v : jsval)
| SetError (s : string)
| SetProjectStatus (st : status)
| SetValue (v : jsval)
| AssignHasInitialized (b : bool)    (* hasInitialized.current = b *)
| AssignIsGenerating (b : bool)      (* isGenerating.current = b *)
| AssignCurrentProjectId (n : Z)     (* currentProjectId.current = n *)
| ConsoleError (label : string) (e : exn).

Definition apply_cmd (c : Cmd) (s : Store) : Store :=
  match c with
  | SetLoadingCode b =>
      mkStore b (messages s) (prompt s) (isLoading s)
              (previewUrl s) (error s) (projectStatus s) (value s)
              (hasInitialized s) (isGenerating s) (currentProjectId s) (console s)
  | AppendMessage m =>
      mkStore (loadingCode s) (messages s ++ [m]) (prompt s) (isLoading s)
              (previewUrl s) (error s) (projectStatus s) (value s)
              (hasInitialized s) (isGenerating s) (currentProjectId s) (console s)
  | SetPrompt p =>
      mkStore (loadingCode s) (messages s) p (isLoading s)
              (previewUrl s) (error s) (projectStatus s) (value s)
              (hasInitialized s) (isGenerating s) (currentProjectId s) (console s)
  | SetIsLoading b =>
      mkStore (loadingCode s) (messages s) (prompt s) b
              (previewUrl s) (error s) (projectStatus s) (value s)
              (hasInitialized s) (isGenerating s) (currentProjectId s) (console s)
  | SetPreviewUrl v =>
      mkStore (loadingCode s) (messages s) (prompt s) (isLoading s)
              v (error s) (projectStatus s) (value s)
              (hasInitialized s) (isGenerating s) (currentProjectId s) (console s)
  | SetError e =>
      mkStore (loadingCode s) (messages s) (prompt s) (isLoading s)
              (previewUrl s) e (projectStatus s) (value s)
              (hasInitialized s) (isGenerating s) (currentProjectId s) (console s)
  | SetProjectStatus st =>
      mkStore (loadingCode s) (messages s) (prompt s) (isLoading s)
              (previewUrl s) (error s) st (value s)
              (hasInitialized s) (isGenerating s) (currentProjectId s) (console s)
  | SetValue v =>
      mkStore (loadingCode s) (messages s) (prompt s) (isLoading s)
              (previewUrl s) (error s) (projectStatus s) v
              (hasInitialized s) (isGenerating s) (currentProjectId s) (console s)
  | AssignHasInitialized b =>
      mkStore (loadingCode s) (messages s) (prompt s) (isLoading s)
              (previewUrl s) (error s) (projectStatus s) (value s)
              b (isGenerating s) (currentProjectId s) (console s)
  | AssignIsGenerating b =>
      mkStore (loadingCode s) (messages s) (prompt s) (isLoading s)
              (previewUrl s) (error s) (projectStatus s) (value s)
              (hasInitialized s) b (currentProjectId s) (console s)
  | AssignCurrentProjectId n =>
      mkStore (loadingCode s) (messages s) (prompt s) (isLoading s)
              (previewUrl s) (error s) (projectStatus s) (value s)
              (hasInitialized s) (isGenerating s) (Some n) (console s)
  | ConsoleError l e =>
      mkStore (loadingCode s) (messages s) (prompt s) (isLoading s)
              (previewUrl s) (error s) (projectStatus s) (value s)
              (hasInitialized s) (isGenerating s) (currentProjectId s) (console s ++ [(l, e)])
  end.

(** ** Services and outside functions *)

(** The routes under [baseUrl]. *)
Inductive Endpoint : Type :=
| ApiProjects (id : Z)       (* /api/projects/${id} *)
| GenerateFrontend           (* /generateFrontend *)
| WriteFiles                 (* /write-files *)
| ZipFolder                  (* /zipFolder *)
| BuildRun                   (* /buildrun *)
| GenerateChanges            (* /generateChanges *)
| ExtractFilesToChange       (* /extractFilesToChange *)
| Modify.                    (* /modify *)

(** An [axios] call.  Its answer is [res.data], or the rejection. *)
Inductive Request : Type :=
| Get (e : Endpoint)
| Post (e : Endpoint) (body : jsval)
| Put (e : Endpoint) (body : jsval).

(** Functions the component calls and does not define:
    [parseFrontendCode] of [utils/newParserWithst], and the built-in
    [JSON.parse] and [JSON.stringify (_, null, 2)]. *)
Inductive Builtin : Type :=
| ParseFrontendCode (text : jsval)
| JSON_parse (text : jsval)
| JSON_stringify (v : jsval).

(** ** Asynchronous programs *)

Inductive Prog (A : Type) : Type :=
| Ret (a : A)
| Throw (e : exn)
| Read (k : Store -> Prog A)                    (* read a ref or captured state *)
| Now (k : Z -> Prog A)                         (* Date.now(), new Date() *)
| Do (c : Cmd) (k : Prog A)
| Call (f : Builtin) (k : outcome -> Prog A)
| Await (r : Request) (k : outcome -> Prog A).

Arguments Ret {A} a.
Arguments Throw {A} e.

Fixpoint bind {A B : Type} (p : Prog A) (f : A -> Prog B) : Prog B :=
  match p with
  | Ret a => f a
  | Throw e => Throw e
  | Read k => Read (fun s => bind (k s) f)
  | Now k => Now (fun t => bind (k t) f)
  | Do c k => Do c (bind k f)
  | Call g k => Call g (fun o => bind (k o) f)
  | Await r k => Await r (fun o => bind (k o) f)
  end.

Declare Scope prog_scope.
Delimit Scope prog_scope with prog.
Bind Scope prog_scope with Prog.
Notation "x <- p ;; q" := (bind p (fun x => q))
  (at level 61, p at next level, right associativity) : prog_scope.
Notation "p ;; q" := (bind p (fun _ => q))
  (at level 61, right associativity) : prog_scope.
Open Scope prog_scope.

(** [try { p } catch (e) { h e }] *)
Fixpoint try_catch {A : Type} (p : Prog A) (h : exn -> Prog A) : Prog A :=
  match p with
  | Ret a => Ret a
  | Throw e => h e
  | Read k => Read (fun s => try_catch (k s) h)
  | Now k => Now (fun t => try_catch (k t) h)
  | Do c k => Do c (try_catch k h)
  | Call g k => Call g (fun o => try_catch (k o) h)
  | Await r k => Await r (fun o => try_catch (k o) h)
  end.

(** [try { p } finally { f }]: [f] runs on every way out of [p], a
    [return] included. *)
Fixpoint finally {A : Type} (p : Prog A) (f : Prog unit) : Prog A :=
  match p with
  | Ret a => f ;; Ret a
  | Throw e => f ;; Throw e
  | Read k => Read (fun s => finally (k s) f)
  | Now k => Now (fun t => finally (k t) f)
  | Do c k => Do c (finally k f)
  | Call g k => Call g (fun o => finally (k o) f)
  | Await r k => Await r (fun o => finally (k o) f)
  end.

Definition do (c : Cmd) : Prog unit := Do c (Ret tt).

Definition of_outcome (o : outcome) : Prog jsval :=
  match o with
  | Returns v => Ret v
  | Throws e => Throw e
  end.

(** [await axios.get/post/put (...)] *)
Definition await (r : Request) : Prog jsval := Await r of_outcome.

Definition call (f : Builtin) : Prog jsval := Call f of_outcome.

(** [v.name] and [v[i]] inside a program *)
Definition dot (v : jsval) (name : string) : Prog jsval := of_outcome (prop v name).
Definition at_index (v : jsval) (i : nat) : Prog jsval := of_outcome (index v i).

Fixpoint map_items (f : jsval -> Prog jsval) (items : list jsval) : Prog (list jsval) :=
  match items with
  | [] => Ret []
  | item :: rest =>
      y <- f item ;;
      ys <- map_items f rest ;;
      Ret (y :: ys)
  end.

(** [v.map(f)]: only an array has [map]; on [undefined] and [null] the
    property read throws, on anything else the call of a non-function
    does. *)
Definition js_map (v : jsval) (f : jsval -> Prog jsval) : Prog jsval :=
  match v with
  | JArr items => ys <- map_items f items ;; Ret (JArr ys)
  | _ => Throw TypeError
  end.

(** ** The component *)

(** The value of a template literal's [${v}], for the values that reach
    one here: [JSON.stringify] returns a string or [undefined]. *)
Definition interpolate (v : jsval) : string :=
  match v with
  | JStr s => s
  | JUndefined => "undefined"
  | JNull => "null"
  | JBool true => "true"
  | JBool false => "false"
  | JNum n => toString n
  | JArr _ | JObj _ => "[object Object]"
  end.

(** [if (n)] for an optional number, string, boolean *)
Definition given_number (n : option Z) : option Z :=
  match n with
  | Some i => if Z.eqb i 0 then None else Some i
  | None => None
  end.

Definition given_string (s : option string) : option string :=
  match s with
  | Some t => if is_empty t then None else Some t
  | None => None
  end.

Definition given_bool (b : option bool) : bool :=
  match b with
  | Some true => true
  | _ => false
  end.

Definition same_project (current : option Z) (projId : Z) : bool :=
  match current with
  | Some c => Z.eqb c projId
  | None => false
  end.

Definition is_idle (st : status) : bool :=
  match st with SIdle => true | _ => false end.

(** [fetchProjectDeploymentUrl].  [rendered] is the [projectStatus] the
    callback closed over: the callback is rebuilt for each render, and
    reads the state of the render that built it. *)
Definition fetchProjectDeploymentUrl (rendered : status) (projId : Z) : Prog unit :=
  Read (fun s =>
    if same_project (currentProjectId s) projId && negb (is_idle rendered) then Ret tt
    else
      do (SetLoadingCode true) ;;
      do (SetError EmptyString) ;;
      do (SetProjectStatus SLoading) ;;
      do (AssignCurrentProjectId projId) ;;
      finally
        (try_catch
           (project <- await (Get (ApiProjects projId)) ;;
            url <- dot project "deploymentUrl" ;;
            if truthy url then
              do (SetPreviewUrl url) ;;
              do (SetProjectStatus SReady)
            else
              do (SetProjectStatus SError) ;;
              do (SetError "Project deployment URL not found"))
           (fun e =>
              do (ConsoleError "Error fetching project:" e) ;;
              do (SetError "Failed to load project") ;;
              do (SetProjectStatus SError)))
        (do (SetLoadingCode false))).

(** The part of [generateCode] after the check for a recorded deployment:
    generate, parse, keep the structure, write, package, build, record. *)
Definition generate_pipeline (userPrompt : string) (projId : option Z) : Prog unit :=
  frontendres <- await (Post GenerateFrontend (JObj [("prompt", JStr userPrompt)])) ;;
  content <- dot frontendres "content" ;;
  first <- at_index content 0 ;;
  text <- dot first "text" ;;
  parsedFrontend <- call (ParseFrontendCode text) ;;
  structure <- dot parsedFrontend "structure" ;;
  do (SetValue structure) ;;
  codeFiles <- dot parsedFrontend "codeFiles" ;;
  await (Post WriteFiles (JObj [("files", codeFiles)])) ;;
  res <- await (Get ZipFolder) ;;
  res_data <- dot res "data" ;;
  publicUrl <- dot res_data "publicUrl" ;;
  data <- await (Post BuildRun (JObj [("zipUrl", publicUrl)])) ;;
  url <- dot data "previewUrl" ;;
  do (SetPreviewUrl url) ;;
  do (SetProjectStatus SReady) ;;
  match given_number projId with
  | Some id =>
      if truthy url then
        await (Put (ApiProjects id)
                   (JObj [("deploymentUrl", url); ("status", JStr "ready")])) ;;
        Ret tt
      else Ret tt
  | None => Ret tt
  end.

(** [generateCode] *)
Definition generateCode (userPrompt : string) (projId : option Z) : Prog unit :=
  Read (fun s =>
    if isGenerating s then Ret tt
    else
      do (AssignIsGenerating true) ;;
      do (SetLoadingCode true) ;;
      do (SetError EmptyString) ;;
      do (SetProjectStatus SLoading) ;;
      finally
        (try_catch
           (match given_number projId with
            | Some id =>
                existing <- await (Get (ApiProjects id)) ;;
                url <- dot existing "deploymentUrl" ;;
                if truthy url then
                  do (SetPreviewUrl url) ;;
                  do (SetProjectStatus SReady) ;;
                  do (SetLoadingCode false) ;;
                  do (AssignIsGenerating false)
                else generate_pipeline userPrompt projId
            | None => generate_pipeline userPrompt projId
            end)
           (fun e =>
              do (ConsoleError "Error generating code:" e) ;;
              do (SetError "Failed to generate code") ;;
              do (SetProjectStatus SError)))
        (do (SetLoadingCode false) ;;
         do (AssignIsGenerating false))).

(** [initializeProject], called by the mount effect.  The effect has no
    dependencies, so the two callbacks it calls are those of the first
    render, where [projectStatus] is "idle". *)
Definition initializeProject (loc : LocationState) : Prog unit :=
  (match given_bool (existingProject loc), given_number (projectId loc) with
   | true, Some id => fetchProjectDeploymentUrl SIdle id
   | _, _ =>
       match given_string (navPrompt loc), given_number (projectId loc) with
       | Some p, Some id =>
           do (SetPrompt p) ;;
           generateCode p (Some id)
       | _, _ => do (SetProjectStatus SIdle)
       end
   end) ;;
  do (AssignHasInitialized true).

(** The body of the mount effect. *)
Definition mount_effect (loc : LocationState) : Prog unit :=
  Read (fun s => if hasInitialized s then Ret tt else initializeProject loc).

Definition dq : string := String (ascii_of_nat 34) EmptyString.

(** The text [handleSubmit] sends to the analysis stage. *)
Definition analysisPrompt (structure : string) (currentPrompt : string) : string :=
  ("You are analyzing a Vite React project structure that uses Tailwind CSS for styling. Based on the user's requirement and the provided project structure, identify which files need to be modified to implement the requested changes.

RESPONSE FORMAT:
Return a JSON object with this exact structure:
{
  " ++ dq ++ "files_to_modify" ++ dq ++ ": [" ++ dq ++ "array of existing file paths that need changes" ++ dq ++ "],
  " ++ dq ++ "files_to_create" ++ dq ++ ": [" ++ dq ++ "array of new file paths that need to be created" ++ dq ++ "],
  " ++ dq ++ "reasoning" ++ dq ++ ": " ++ dq ++ "brief explanation of why these files were selected" ++ dq ++ ",
  " ++ dq ++ "dependencies" ++ dq ++ ": [" ++ dq ++ "array of npm packages that might need to be installed" ++ dq ++ "],
  " ++ dq ++ "notes" ++ dq ++ ": " ++ dq ++ "additional implementation notes or considerations" ++ dq ++ "
}

PROJECT STRUCTURE: " ++ structure ++ "
USER REQUIREMENT: " ++ currentPrompt)%string.

Definition baseDir : string :=
  "/Users/manmindersingh/Desktop/code /ai-webisite-builder/react-base-temp".

(** [(item) => ({ path: item.path, content: item.content })] *)
Definition pick_path_content (item : jsval) : Prog jsval :=
  path <- dot item "path" ;;
  content <- dot item "content" ;;
  Ret (JObj [("path", path); ("content", content)]).

(** The [try] block of [handleSubmit]. *)
Definition change_pipeline (structure : jsval) (currentPrompt : string) : Prog unit :=
  rendered <- call (JSON_stringify structure) ;;
  res <- await (Post GenerateChanges
                  (JObj [("prompt", JStr (analysisPrompt (interpolate rendered) currentPrompt))])) ;;
  content <- dot res "content" ;;
  first <- at_index content 0 ;;
  analysisResult <- dot first "text" ;;
  filesToChange <- await (Post ExtractFilesToChange
                            (JObj [("pwd", JStr baseDir); ("analysisResult", analysisResult)])) ;;
  files <- dot filesToChange "files" ;;
  updatedFile <- await (Post Modify (JObj [("files", files); ("prompt", JStr currentPrompt)])) ;;
  content' <- dot updatedFile "content" ;;
  first' <- at_index content' 0 ;;
  text <- dot first' "text" ;;
  parsedData <- call (JSON_parse text) ;;
  result <- js_map parsedData pick_path_content ;;
  await (Post WriteFiles (JObj [("baseDir", JStr baseDir); ("files", result)])) ;;
  Now (fun t => Now (fun t' =>
    do (AppendMessage (mkMessage (toString (t + 1)) "Changes applied successfully!" Assistant t')))).

(** [handleSubmit].  [prompt], [isLoading] and [value] are those of the
    render whose callback the event runs. *)
Definition handleSubmit : Prog unit :=
  Read (fun r =>
    if is_empty (trim (prompt r)) || isLoading r then Ret tt
    else
      do (SetIsLoading true) ;;
      do (SetError EmptyString) ;;
      Now (fun t => Now (fun t' =>
        do (AppendMessage (mkMessage (toString t) (prompt r) User t')) ;;
        do (SetPrompt EmptyString) ;;
        finally
          (try_catch
             (change_pipeline (value r) (prompt r))
             (fun e =>
                do (ConsoleError "Error handling submit:" e) ;;
                do (SetError "Failed to apply changes") ;;
                Now (fun u => Now (fun u' =>
                  do (AppendMessage
                        (mkMessage (toString (u + 1))
                           "Sorry, I encountered an error while applying the changes."
                           Assistant u'))))))
          (do (SetIsLoading false))))).

(** [handlePromptChange] *)
Definition handlePromptChange (text : string) : Prog unit := do (SetPrompt text).

(** ** Running a call to completion *)

(** What a run did, in order. *)
Inductive Event : Type :=
| EvDo (c : Cmd)
| EvCall (f : Builtin) (o : outcome)
| EvAwait (r : Request) (o : outcome).

(** Everything outside the component: the outside functions, the
    services, and the clock (the value of its n-th reading). *)
Record World : Type := mkWorld {
  builtin : Builtin -> outcome;
  respond : Request -> outcome;
  clock : nat -> Z
}.

(** How a run ended, the store it left, the clock readings it consumed,
    and what it did. *)
Record Run (A : Type) : Type := mkRun {
  result : A + exn;
  final : Store;
  ticks : nat;
  trace : list Event
}.

Definition logged {A : Type} (e : Event) (r : Run A) : Run A :=
  mkRun (result r) (final r) (ticks r) (e :: trace r).

Fixpoint exec {A : Type} (w : World) (p : Prog A) (s : Store) (n : nat) : Run A :=
  match p with
  | Ret a => mkRun (inl a) s n []
  | Throw e => mkRun (inr e) s n []
  | Read k => exec w (k s) s n
  | Now k => exec w (k (clock w n)) s (S n)
  | Do c k => logged (EvDo c) (exec w k (apply_cmd c s) n)
  | Call f k => let o := builtin w f in logged (EvCall f o) (exec w (k o) s n)
  | Await r k => let o := respond w r in logged (EvAwait r o) (exec w (k o) s n)
  end.

(** A run of a whole call, started with the clock at its first reading. *)
Definition run (w : World) (p : Prog unit) (s : Store) : Run unit := exec w p s 0.

(** *** Reading a trace *)

(** The stages of the two pipelines, and the project store. *)
Inductive Stage : Type :=
| StGenerate | StParse | StPersistStructure | StWrite | StPackage | StBuild | StRecord
| StAnalyze | StResolve | StRewrite | StFetchProject.

Definition stage_of_request (r : Request) : option Stage :=
  match r with
  | Post GenerateFrontend _ => Some StGenerate
  | Post WriteFiles _ => Some StWrite
  | Get ZipFolder => Some StPackage
  | Post BuildRun _ => Some StBuild
  | Put (ApiProjects _) _ => Some StRecord
  | Get (ApiProjects _) => Some StFetchProject
  | Post GenerateChanges _ => Some StAnalyze
  | Post ExtractFilesToChange _ => Some StResolve
  | Post Modify _ => Some StRewrite
  | _ => None
  end.

(** The stage an event invokes, if it invokes one: the requests, the
    call of [parseFrontendCode], and [setValue] of the structure. *)
Definition stage_of (e : Event) : option Stage :=
  match e with
  | EvAwait r _ => stage_of_request r
  | EvCall (ParseFrontendCode _) _ => Some StParse
  | EvDo (SetValue _) => Some StPersistStructure
  | _ => None
  end.

Definition failed (e : Event) : bool :=
  match e with
  | EvCall _ (Throws _) | EvAwait _ (Throws _) => true
  | _ => false
  end.

Fixpoint stages (t : list Event) : list Stage :=
  match t with
  | [] => []
  | e :: rest =>
      match stage_of e with
      | Some st => st :: stages rest
      | None => stages rest
      end
  end.

Definition stage_eqb (a b : Stage) : bool :=
  match a, b with
  | StGenerate, StGenerate | StParse, StParse
  | StPersistStructure, StPersistStructure | StWrite, StWrite
  | StPackage, StPackage | StBuild, StBuild | StRecord, StRecord
  | StAnalyze, StAnalyze | StResolve, StResolve | StRewrite, StRewrite
  | StFetchProject, StFetchProject => true
  | _, _ => false
  end.

Definition invokes (t : list Event) (st : Stage) : bool :=
  existsb (stage_eqb st) (stages t).

(** The values a run assigns to [projectStatus], in order. *)
Fixpoint status_writes (t : list Event) : list status :=
  match t with
  | [] => []
  | EvDo (SetProjectStatus st) :: rest => st :: status_writes rest
  | _ :: rest => status_writes rest
  end.

(** The requests of a run, in order. *)
Fixpoint requests (t : list Event) : list Request :=
  match t with
  | [] => []
  | EvAwait r _ :: rest => r :: requests rest
  | _ :: rest => requests rest
  end.

(** ** What a program never does *)

Section Avoids.
Variable bad_cmd : Cmd -> bool.
Variable bad_request : Request -> bool.

(** On no path does [p] perform a write in [bad_cmd] or issue a
    request in [bad_request]. *)
Fixpoint avoids {A : Type} (p : Prog A) : Prop :=
  match p with
  | Ret _ | Throw _ => True
  | Read k => forall s, avoids (k s)
  | Now k => forall t, avoids (k t)
  | Do c k => bad_cmd c = false /\ avoids k
  | Call _ k => forall o, avoids (k o)
  | Await r k => bad_request r = false /\ forall o, avoids (k o)
  end.

Definition bad_event (e : Event) : bool :=
  match e with
  | EvDo c => bad_cmd c
  | EvAwait r _ => bad_request r
  | EvCall _ _ => false
  end.
End Avoids.

(** ** The page among its pending calls *)

(** JavaScript runs a call up to its next [await] and then returns to the
    event loop: other calls start or resume before the awaited request
    settles.  [segment] runs one such stretch. *)
Inductive Paused : Type :=
| Finished (r : unit + exn)
| Waiting (r : Request) (k : outcome -> Prog unit).

Record Segment : Type := mkSegment {
  seg_store : Store;
  seg_ticks : nat;
  seg_events : list Event;
  seg_end : Paused
}.

Definition seg_logged (e : Event) (sg : Segment) : Segment :=
  mkSegment (seg_store sg) (seg_ticks sg) (e :: seg_events sg) (seg_end sg).

Fixpoint segment (w : World) (p : Prog unit) (s : Store) (n : nat) : Segment :=
  match p with
  | Ret a => mkSegment s n [] (Finished (inl a))
  | Throw e => mkSegment s n [] (Finished (inr e))
  | Read k => segment w (k s) s n
  | Now k => segment w (k (clock w n)) s (S n)
  | Do c k => seg_logged (EvDo c) (segment w k (apply_cmd c s) n)
  | Call f k => let o := builtin w f in seg_logged (EvCall f o) (segment w (k o) s n)
  | Await r k => mkSegment s n [] (Waiting r k)
  end.

(** The function a pending call belongs to. *)
Inductive Origin : Type := FromFetch | FromGenerate | FromSubmit.

(** A call stopped at an [await]. *)
Record Pending : Type := mkPending {
  origin : Origin;
  awaited : Request;
  resume : outcome -> Prog unit
}.

(** The mounted page: its state, the clock readings so far, the calls in
    flight, and everything done so far. *)
Record Page : Type := mkPage {
  store : Store;
  readings : nat;
  pending : list Pending;
  log : list Event
}.

Definition initial_page : Page := mkPage initial_store 0 [] [].

(** What can happen to the page: React runs the mount effect, the user
    sends the prompt (the button, or Enter), the user edits the prompt,
    a pending request settles. *)
Inductive Action : Type :=
| Mount
| Submit
| Edit (text : string)
| Settle (i : nat) (o : outcome).

(** The function a call left pending by the mount effect belongs to. *)
Definition mount_origin (loc : LocationState) : Origin :=
  match given_bool (existingProject loc), given_number (projectId loc) with
  | true, Some _ => FromFetch
  | _, _ => FromGenerate
  end.

Fixpoint remove_nth {A : Type} (i : nat) (l : list A) : list A :=
  match l, i with
  | [], _ => []
  | _ :: rest, O => rest
  | x :: rest, S j => x :: remove_nth j rest
  end.

(** Run [p] up to its next [await] and file what is left of it. *)
Definition launch (w : World) (from : Origin) (p : Prog unit) (pg : Page) : Page :=
  let sg := segment w p (store pg) (readings pg) in
  mkPage (seg_store sg) (seg_ticks sg)
         (match seg_end sg with
          | Waiting r k => pending pg ++ [mkPending from r k]
          | Finished _ => pending pg
          end)
         (log pg ++ seg_events sg).

Definition step (loc : LocationState) (w : World) (a : Action) (pg : Page) : Page :=
  match a with
  | Mount => launch w (mount_origin loc) (mount_effect loc) pg
  | Submit => launch w FromSubmit handleSubmit pg
  | Edit text => launch w FromSubmit (handlePromptChange text) pg
  | Settle i o =>
      match nth_error (pending pg) i with
      | Some pd =>
          launch w (origin pd) (resume pd o)
                 (mkPage (store pg) (readings pg) (remove_nth i (pending pg))
                         (log pg ++ [EvAwait (awaited pd) o]))
      | None => pg
      end
  end.

Fixpoint play (loc : LocationState) (w : World) (actions : list Action) (pg : Page) : Page :=
  match actions with
  | [] => pg
  | a :: rest => play loc w rest (step loc w a pg)
  end.

Definition from_generate (pd : Pending) : bool :=
  match origin pd with FromGenerate => true | _ => false end.

Definition from_fetch (pd : Pending) : bool :=
  match origin pd with FromFetch => true | _ => false end.

Definition from_submit (pd : Pending) : bool :=
  match origin pd with FromSubmit => true | _ => false end.

(** The runs of [generateCode] in flight. *)
Definition active_generations (pg : Page) : nat :=
  List.length (filter from_generate (pending pg)).

(** The calls of [handleSubmit] in flight. *)
Definition active_modifications (pg : Page) : nat :=
  List.length (filter from_submit (pending pg)).

(** The actions by which the services answer a call as a world does:
    each request of the trace settles with the answer the trace records. *)
Fixpoint answers (t : list Event) : list Action :=
  match t with
  | [] => []
  | EvAwait _ o :: rest => Settle 0 o :: answers rest
  | _ :: rest => answers rest
  end.

(** ** What a pending call may still do *)

Section Monitor.
Variable M : Type.
Variable on_cmd : M -> Cmd -> option M.
Variable on_await : M -> Request -> option (outcome -> M).
Variable may_finish : M -> bool.

(** Every path of [p] performs only the writes the monitor allows in its
    state, awaits only where it allows, and ends, without an uncaught
    exception, only where it allows. *)
Fixpoint follows (m : M) (p : Prog unit) : Prop :=
  match p with
  | Ret _ => may_finish m = true
  | Throw _ => False
  | Read k => forall s, follows m (k s)
  | Now k => forall t, follows m (k t)
  | Do c k =>
      match on_cmd m c with
      | Some m' => follows m' k
      | None => False
      end
  | Call _ k => forall o, follows m (k o)
  | Await r k =>
      match on_await m r with
      | Some next => forall o, follows (next o) (k o)
      | None => False
      end
  end.

(** Some writes lead from [m] to [m']. *)
Inductive reaches (m : M) : M -> Prop :=
| reaches_here : reaches m m
| reaches_on (c : Cmd) (m1 m2 : M) :
    on_cmd m c = Some m1 -> reaches m1 m2 -> reaches m m2.
End Monitor.

(** *** A run of [generateCode] past its guard *)

(** Whether the run holds [isGenerating], the status it last set, whether
    its request to record the deployment was rejected, and whether
    [hasInitialized] has been set. *)
Record GenPhase : Type := mkGenPhase {
  held : bool;
  shown : status;
  record_rejected : bool;
  gen_initialized : bool
}.

Definition gen_cmd (m : GenPhase) (c : Cmd) : option GenPhase :=
  match c with
  | AssignIsGenerating true => None
  | AssignIsGenerating false =>
      Some (mkGenPhase false (shown m) (record_rejected m) (gen_initialized m))
  | AssignHasInitialized true =>
      Some (mkGenPhase (held m) (shown m) (record_rejected m) true)
  | AssignHasInitialized false => None
  | AssignCurrentProjectId _ => None
  | SetIsLoading _ => None
  | SetProjectStatus st =>
      match shown m, st with
      | SLoading, SReady | SLoading, SError =>
          Some (mkGenPhase (held m) st (record_rejected m) (gen_initialized m))
      | SReady, SError =>
          if record_rejected m
          then Some (mkGenPhase (held m) st (record_rejected m) (gen_initialized m))
          else None
      | _, _ => None
      end
  | _ => Some m
  end.

Definition is_record (r : Request) : bool :=
  match r with
  | Put (ApiProjects _) _ => true
  | _ => false
  end.

Definition is_rejection (o : outcome) : bool :=
  match o with
  | Throws _ => true
  | Returns _ => false
  end.

Definition gen_await (m : GenPhase) (r : Request) : option (outcome -> GenPhase) :=
  if held m && negb (gen_initialized m) && negb (record_rejected m) then
    match shown m with
    | SLoading => if is_record r then None else Some (fun _ => m)
    | SReady =>
        if is_record r
        then Some (fun o => mkGenPhase (held m) (shown m) (is_rejection o) (gen_initialized m))
        else None
    | _ => None
    end
  else None.

Definition gen_finish (m : GenPhase) : bool := negb (held m) && gen_initialized m.

(** What the store shows of the phase. *)
Definition gen_shows (m : GenPhase) (s : Store) : Prop :=
  isGenerating s = held m /\
  projectStatus s = shown m /\
  (gen_initialized m = true -> hasInitialized s = true).

(** The same, with [isLoading] left as it was. *)
Definition gen_shows_busy (busy : bool) (m : GenPhase) (s : Store) : Prop :=
  gen_shows m s /\ isLoading s = busy.

(** The phase of a run stopped at a request, and the phase it resumes in. *)
Definition shown_at (r : Request) : status :=
  if is_record r then SReady else SLoading.

Definition phase_after (r : Request) (o : outcome) : GenPhase :=
  mkGenPhase true (shown_at r) (is_record r && is_rejection o) false.

(** *** A run of [fetchProjectDeploymentUrl] past its request *)

Record FetchPhase : Type := mkFetchPhase {
  outcome_shown : bool;
  fetch_initialized : bool
}.

Definition fetch_cmd (m : FetchPhase) (c : Cmd) : option FetchPhase :=
  match c with
  | SetProjectStatus SReady | SetProjectStatus SError =>
      Some (mkFetchPhase true (fetch_initialized m))
  | SetProjectStatus _ => None
  | AssignIsGenerating _ => None
  | SetIsLoading _ => None
  | AssignHasInitialized true => Some (mkFetchPhase (outcome_shown m) true)
  | AssignHasInitialized false => None
  | _ => Some m
  end.

Definition fetch_await (m : FetchPhase) (r : Request) : option (outcome -> FetchPhase) :=
  None.

Definition fetch_finish (m : FetchPhase) : bool := outcome_shown m && fetch_initialized m.

Definition settled_status (st : status) : bool :=
  match st with
  | SReady | SError => true
  | _ => false
  end.

Definition fetch_shows (m : FetchPhase) (s : Store) : Prop :=
  (outcome_shown m = true -> settled_status (projectStatus s) = true) /\
  (fetch_initialized m = true -> hasInitialized s = true).

(** The same, with [isGenerating] and [isLoading] left as they were. *)
Definition fetch_shows_guard (guard busy : bool) (m : FetchPhase) (s : Store) : Prop :=
  fetch_shows m s /\ isGenerating s = guard /\ isLoading s = busy.

(** *** A call of [handleSubmit] *)

(** The writes [handleSubmit] leaves to the other two functions. *)
Definition lifecycle_write (c : Cmd) : bool :=
  match c with
  | SetPreviewUrl _ | SetProjectStatus _ | AssignHasInitialized _
  | AssignIsGenerating _ | AssignCurrentProjectId _ => true
  | _ => false
  end.

(** The monitor's state is whether the call holds [isLoading]: it takes
    it once, awaits only while holding it, and ends having released it. *)
Definition sub_cmd (busy : bool) (c : Cmd) : option bool :=
  if lifecycle_write c then None
  else
    match c with
    | SetIsLoading true => if busy then None else Some true
    | SetIsLoading false => Some false
    | _ => Some busy
    end.

Definition sub_await (busy : bool) (r : Request) : option (outcome -> bool) :=
  if busy then Some (fun _ => true) else None.

Definition sub_finish (busy : bool) : bool := negb busy.

(** What the store shows of it, the lifecycle left as it was. *)
Definition sub_shows (guard : bool) (st : status) (initialized : bool)
           (busy : bool) (s : Store) : Prop :=
  isLoading s = busy /\
  isGenerating s = guard /\
  projectStatus s = st /\
  hasInitialized s = initialized.

(** ** What holds of every page *)

(** The branch [initializeProject] takes. *)
Inductive Branch : Type :=
| BranchFetch (id : Z)
| BranchGenerate (userPrompt : string) (id : Z)
| BranchIdle.

Definition branch (loc : LocationState) : Branch :=
  match given_bool (existingProject loc), given_number (projectId loc) with
  | true, Some id => BranchFetch id
  | _, _ =>
      match given_string (navPrompt loc), given_number (projectId loc) with
      | Some p, Some id => BranchGenerate p id
      | _, _ => BranchIdle
      end
  end.

(** What a pending call may still do, by the function it belongs to. *)
Definition sound (pd : Pending) : Prop :=
  match origin pd with
  | FromSubmit =>
      forall o, follows sub_cmd sub_await sub_finish true (resume pd o)
  | FromFetch =>
      forall o, follows fetch_cmd fetch_await fetch_finish
                        (mkFetchPhase false false) (resume pd o)
  | FromGenerate =>
      forall o, follows gen_cmd gen_await gen_finish
                        (phase_after (awaited pd) o) (resume pd o)
  end.

Definition early_status (st : status) : bool :=
  match st with
  | SIdle | SLoading => true
  | _ => false
  end.

Record Invariant (loc : LocationState) (pg : Page) : Prop := mkInvariant {
  inv_sound : Forall sound (pending pg);
  inv_one : (active_generations pg <= 1)%nat;
  inv_generating :
    forall pd, In pd (pending pg) -> from_generate pd = true ->
               isGenerating (store pg) = true /\
               projectStatus (store pg) = shown_at (awaited pd) /\
               exists p id, branch loc = BranchGenerate p id;
  inv_released :
    active_generations pg = 0%nat -> isGenerating (store pg) = false;
  inv_fetching :
    forall pd, In pd (pending pg) -> from_fetch pd = true ->
               projectStatus (store pg) <> SIdle /\
               exists id, branch loc = BranchFetch id;
  inv_uninitialized :
    hasInitialized (store pg) = false ->
    match branch loc with
    | BranchFetch _ => early_status (projectStatus (store pg)) = true
    | BranchGenerate _ _ =>
        isGenerating (store pg) = false -> projectStatus (store pg) = SIdle
    | BranchIdle => True
    end;
  inv_idle : branch loc = BranchIdle -> projectStatus (store pg) = SIdle;
  inv_one_modification : (active_modifications pg <= 1)%nat;
  inv_busy :
    forall pd, In pd (pending pg) -> from_submit pd = true ->
               isLoading (store pg) = true;
  inv_free : active_modifications pg = 0%nat -> isLoading (store pg) = false
}.

(** The changes of [projectStatus] a step may make. *)
Definition transition (loc : LocationState) (pg : Page) (a : Action) (pg' : Page) : Prop :=
  let x := projectStatus (store pg) in
  let y := projectStatus (store pg') in
  x = y \/
  (a = Mount /\ x = SIdle /\ y = SLoading) \/
  (exists i o pd,
      a = Settle i o /\ nth_error (pending pg) i = Some pd /\
      ((x = SLoading /\ settled_status y = true) \/
       (x = SReady /\ y = SError /\ from_generate pd = true /\
        is_record (awaited pd) = true /\ is_rejection o = true) \/
       (settled_status x = true /\ settled_status y = true /\ from_fetch pd = true))).

(** The runs of the mount effect among the actions. *)
Fixpoint mounts (actions : list Action) : nat :=
  match actions with
  | [] => 0
  | Mount :: rest => S (mounts rest)
  | _ :: rest => mounts rest
  end.

(** The changes of [projectStatus] a step may make on a page whose
    calls of [fetchProjectDeploymentUrl] do not overlap. *)
Definition transition_once (pg : Page) (a : Action) (pg' : Page) : Prop :=
  let x := projectStatus (store pg) in
  let y := projectStatus (store pg') in
  x = y \/
  (a = Mount /\ x = SIdle /\ y = SLoading) \/
  (exists i o pd,
      a = Settle i o /\ nth_error (pending pg) i = Some pd /\
      ((x = SLoading /\ settled_status y = true) \/
       (x = SReady /\ y = SError /\ from_generate pd = true /\
        is_record (awaited pd) = true /\ is_rejection o = true))).

(** The calls of [fetchProjectDeploymentUrl] in flight. *)
Definition active_fetches (pg : Page) : nat :=
  List.length (filter from_fetch (pending pg)).

(** What at most one run of the mount effect leaves: at most [k] fetches
    in flight after [k] runs, and "loading" shown while one is. *)
Record Fetching (k : nat) (pg : Page) : Prop := mkFetching {
  fetching_count : (active_fetches pg <= k)%nat;
  fetching_shown :
    forall pd, In pd (pending pg) -> from_fetch pd = true ->
               projectStatus (store pg) = SLoading
}.

(** ** Reading a run against the specification *)

(** The order of the generation pipeline. *)
Definition generation_order : list Stage :=
  [StGenerate; StParse; StPersistStructure; StWrite; StPackage; StBuild; StRecord].


(** No stage is invoked after an event that failed. *)
Fixpoint stops_at_failure (t : list Event) : bool :=
  match t with
  | [] => true
  | e :: rest =>
      (if failed e then match stages rest with [] => true | _ => false end else true)
      && stops_at_failure rest
  end.

(** The first event that failed, and the stage it belongs to. *)
Fixpoint failed_stage (t : list Event) : option Stage :=
  match t with
  | [] => None
  | e :: rest => if failed e then stage_of e else failed_stage rest
  end.

(** What the page shows of a run's end: the status light and the error
    banner. *)
Definition displayed (s : Store) : status * string := (projectStatus s, error s).

(** *** How a stage of the generation pipeline ends *)

(** What [generateCode] reads of an answer on its way to the next stage:
    [res.content[0].text] and [res.data.publicUrl]. *)
Definition text_of (res : jsval) : outcome :=
  match prop res "content" with
  | Returns content =>
      match index content 0 with
      | Returns first => prop first "text"
      | Throws e => Throws e
      end
  | Throws e => Throws e
  end.

Definition public_url_of (res : jsval) : outcome :=
  match prop res "data" with
  | Returns data => prop data "publicUrl"
  | Throws e => Throws e
  end.

(** The stage was answered, but with something the code cannot read its
    next input from: the read throws a [TypeError]. *)
Definition unreadable (e : Event) : bool :=
  match e with
  | EvAwait (Get (ApiProjects _)) (Returns project) =>
      is_rejection (prop project "deploymentUrl")
  | EvAwait (Post GenerateFrontend _) (Returns res) => is_rejection (text_of res)
  | EvCall (ParseFrontendCode _) (Returns parsed) => is_rejection (prop parsed "structure")
  | EvAwait (Get ZipFolder) (Returns res) => is_rejection (public_url_of res)
  | EvAwait (Post BuildRun _) (Returns data) => is_rejection (prop data "previewUrl")
  | _ => false
  end.

(** A stage fails, as far as the code can tell, when its request is
    rejected, when its function throws, or when its answer is unreadable.
    What an answered request reports in its body is not looked at. *)
Definition fails (e : Event) : bool := failed e || unreadable e.

(** The run has all it wants: the project store answered with a recorded
    deployment, or the build answered and there is nothing to record (no
    project id, or no preview URL). *)
Definition ends_run (projId : option Z) (e : Event) : bool :=
  match e with
  | EvAwait (Get (ApiProjects _)) (Returns project) =>
      match prop project "deploymentUrl" with
      | Returns url => truthy url
      | Throws _ => false
      end
  | EvAwait (Post BuildRun _) (Returns data) =>
      match given_number projId, prop data "previewUrl" with
      | Some _, Returns url => negb (truthy url)
      | None, _ => true
      | Some _, Throws _ => false
      end
  | _ => false
  end.

(** The stage that comes after [st] in [order]. *)
Fixpoint next_after (st : Stage) (order : list Stage) : option Stage :=
  match order with
  | a :: rest =>
      if stage_eqb st a then hd_error rest else next_after st rest
  | [] => None
  end.

(** The stage a run of [generateCode] owes after a stage event: none
    after one that failed or that ended the run, otherwise the next of
    the order, which the request for the project record precedes. *)
Definition stage_due (projId : option Z) (e : Event) (st : Stage) : option Stage :=
  if fails e || ends_run projId e then None
  else next_after st (StFetchProject :: generation_order).



(** No stage is invoked after an event in [bad]. *)
Fixpoint stops_after (bad : Event -> bool) (t : list Event) : bool :=
  match t with
  | [] => true
  | e :: rest =>
      (if bad e then match stages rest with [] => true | _ => false end else true)
      && stops_after bad rest
  end.

(** *** JSON texts *)

Definition backslash : string := String (ascii_of_nat 92) EmptyString.
Definition line_feed : string := String (ascii_of_nat 10) EmptyString.

Definition hex_digit (n : nat) : string :=
  match String.get n "0123456789abcdef" with
  | Some c => String c EmptyString
  | None => EmptyString
  end.

(** A character inside a JSON string: the quote, the backslash and the
    control characters are escaped. *)
Definition escape (c : ascii) : string :=
  let n := nat_of_ascii c in
  if (n =? 8)%nat then backslash ++ "b"
  else if (n =? 9)%nat then backslash ++ "t"
  else if (n =? 10)%nat then backslash ++ "n"
  else if (n =? 12)%nat then backslash ++ "f"
  else if (n =? 13)%nat then backslash ++ "r"
  else if (n =? 34)%nat then backslash ++ dq
  else if (n =? 92)%nat then backslash ++ backslash
  else if (n <? 32)%nat then
    backslash ++ "u00" ++ hex_digit (Nat.div n 16) ++ hex_digit (Nat.modulo n 16)
  else String c EmptyString.

Fixpoint escaped (s : string) : string :=
  match s with
  | EmptyString => EmptyString
  | String c rest => escape c ++ escaped rest
  end.

Definition quote (s : string) : string := dq ++ escaped s ++ dq.

(** The members of an array or an object between their brackets, on one
    line without a gap, one to a line with one. *)
Definition wrap (gap indent opening closing : string) (parts : list string) : string :=
  match parts with
  | [] => opening ++ closing
  | _ =>
      if is_empty gap then opening ++ String.concat "," parts ++ closing
      else
        opening ++ line_feed ++ indent ++ gap
        ++ String.concat ("," ++ line_feed ++ indent ++ gap) parts
        ++ line_feed ++ indent ++ closing
  end.

(** [JSON.stringify(v, null, gap)] at the indentation [indent]; [None]
    is [undefined].  The fields of an object are listed in the order the
    object enumerates them. *)
Fixpoint JSON_text (gap indent : string) (v : jsval) : option string :=
  match v with
  | JUndefined => None
  | JNull => Some "null"
  | JBool true => Some "true"
  | JBool false => Some "false"
  | JNum n => Some (toString n)
  | JStr s => Some (quote s)
  | JArr items =>
      Some (wrap gap indent "[" "]"
              (map (fun item =>
                      match JSON_text gap (indent ++ gap) item with
                      | Some t => t
                      | None => "null"
                      end)
                   items))
  | JObj fields =>
      Some (wrap gap indent "{" "}"
              ((fix members (l : list (string * jsval)) : list string :=
                  match l with
                  | [] => []
                  | (name, x) :: rest =>
                      match JSON_text gap (indent ++ gap) x with
                      | Some t =>
                          (quote name ++ (if is_empty gap then ":" else ": ") ++ t)%string
                          :: members rest
                      | None => members rest
                      end
                  end) fields))
  end.

(** [JSON.stringify(v)] *)
Definition compact (v : jsval) : jsval :=
  match JSON_text EmptyString EmptyString v with
  | Some t => JStr t
  | None => JUndefined
  end.

(** [JSON.stringify(v, null, 2)] *)
Definition pretty (v : jsval) : jsval :=
  match JSON_text "  " EmptyString v with
  | Some t => JStr t
  | None => JUndefined
  end.

Fixpoint jsval_eqb (a b : jsval) : bool :=
  match a, b with
  | JUndefined, JUndefined | JNull, JNull => true
  | JBool x, JBool y => Bool.eqb x y
  | JNum x, JNum y => Z.eqb x y
  | JStr x, JStr y => String.eqb x y
  | JArr xs, JArr ys =>
      (fix all (l : list jsval) (r : list jsval) : bool :=
         match l, r with
         | [], [] => true
         | x :: l', y :: r' => jsval_eqb x y && all l' r'
         | _, _ => false
         end) xs ys
  | JObj xs, JObj ys =>
      (fix all (l : list (string * jsval)) (r : list (string * jsval)) : bool :=
         match l, r with
         | [], [] => true
         | (k, x) :: l', (k', y) :: r' => String.eqb k k' && jsval_eqb x y && all l' r'
         | _, _ => false
         end) xs ys
  | _, _ => false
  end.

(** *** Worlds used as examples *)

Definition preview42 : jsval := JStr "https://preview.example/42".

(** A project store, and whether each service works.  The generation
    service answers with one text block; the parser finds two files.  The
    rewrite service answers with the JSON text of [rewritten], the one
    text [JSON.parse] is given in these worlds. *)
Definition example_world (recorded : jsval) (write_ok record_ok : bool)
           (rewritten : jsval) : World :=
  mkWorld
    (fun f =>
       match f with
       | ParseFrontendCode _ =>
           Returns (JObj [("structure", JObj [("src", JArr [JStr "App.tsx"])]);
                          ("codeFiles",
                           JArr [JObj [("path", JStr "index.html"); ("content", JStr "<html>")];
                                 JObj [("path", JStr "app.js"); ("content", JStr "void 0")]])])
       | JSON_parse text =>
           if jsval_eqb text (compact rewritten) then Returns rewritten
           else Throws (Raised (JStr "SyntaxError"))
       | JSON_stringify v => Returns (pretty v)
       end)
    (fun r =>
       match r with
       | Get (ApiProjects _) => Returns recorded
       | Post GenerateFrontend _ => Returns (JObj [("content", JArr [JObj [("text", JStr "raw")]])])
       | Post WriteFiles _ =>
           if write_ok then Returns (JObj [("success", JBool true)])
           else Throws (Raised (JStr "write failed"))
       | Get ZipFolder => Returns (JObj [("data", JObj [("publicUrl", JStr "https://zips.example/42.zip")])])
       | Post BuildRun _ => Returns (JObj [("previewUrl", preview42)])
       | Put (ApiProjects _) _ =>
           if record_ok then Returns (JObj []) else Throws (Raised (JStr "record failed"))
       | Post GenerateChanges _ => Returns (JObj [("content", JArr [JObj [("text", JStr "analysis")]])])
       | Post ExtractFilesToChange _ => Returns (JObj [("files", JArr [])])
       | Post Modify _ => Returns (JObj [("content", JArr [JObj [("text", compact rewritten)]])])
       | _ => Throws (Raised JNull)
       end)
    (fun n => 1700000000000 + Z.of_nat n)%Z.

Definition project42_pending : jsval := JObj [("id", JNum 42); ("status", JStr "pending")].
Definition project42_ready : jsval :=
  JObj [("id", JNum 42); ("deploymentUrl", preview42); ("status", JStr "ready")].

(** Everything works and project 42 has no deployment yet. *)
Definition world_fresh : World := example_world project42_pending true true (JArr []).
(** Project 42 is already deployed. *)
Definition world_deployed : World := example_world project42_ready true true (JArr []).
(** The write service rejects. *)
Definition world_write_fails : World := example_world project42_pending false true (JArr []).
(** The project store rejects the final update. *)
Definition world_record_fails : World := example_world project42_pending true false (JArr []).
(** The rewrite stage returns the JSON text of an array of one item, an
    object with a path and no content. *)
Definition item_without_content_text : string :=
  "[{" ++ dq ++ "path" ++ dq ++ ":" ++ dq ++ "src/App.tsx" ++ dq ++ "}]".

Definition world_item_without_content : World :=
  example_world project42_ready true true (JArr [JObj [("path", JStr "src/App.tsx")]]).
(** A page on which the user typed a change request. *)
Definition store_with_request : Store :=
  apply_cmd (SetPrompt "add a dark mode toggle")
            (apply_cmd (SetProjectStatus SReady)
                       (apply_cmd (SetPreviewUrl preview42) initial_store)).

(** The generation service rejects. *)
Definition world_generate_fails : World :=
  mkWorld (builtin world_fresh)
          (fun r => match r with
                    | Post GenerateFrontend _ => Throws (Raised (JStr "generation failed"))
                    | _ => respond world_fresh r
                    end)
          (clock world_fresh).

(** The generation service answers, without any content. *)
Definition world_generate_answers_nothing : World :=
  mkWorld (builtin world_fresh)
          (fun r => match r with
                    | Post GenerateFrontend _ => Returns (JObj [("error", JStr "overloaded")])
                    | _ => respond world_fresh r
                    end)
          (clock world_fresh).

(** The write service answers, and reports that a file was not written. *)
Definition partial_write : jsval :=
  JObj [("success", JBool false); ("failed", JArr [JStr "app.js"])].

Definition world_write_reports_failure : World :=
  mkWorld (builtin world_fresh)
          (fun r => match r with
                    | Post WriteFiles _ => Returns partial_write
                    | _ => respond world_fresh r
                    end)
          (clock world_fresh).


(** *** What the modification pipeline leaves alone *)

Definition endpoint_of (r : Request) : Endpoint :=
  match r with
  | Get e | Post e _ | Put e _ => e
  end.

(** The writes that change what the page shows of the deployment. *)
Definition changes_deployment (c : Cmd) : bool :=
  match c with
  | SetPreviewUrl _ | SetProjectStatus _ => true
  | _ => false
  end.

(** The requests that reach the project store, the packaging service or
    the build service. *)
Definition deploys (r : Request) : bool :=
  match endpoint_of r with
  | ApiProjects _ | ZipFolder | BuildRun => true
  | _ => false
  end.

(** *** The items of a rewrite *)

Definition nullish (v : jsval) : bool :=
  match v with
  | JUndefined | JNull => true
  | _ => false
  end.

(** [item.name] where the read does not throw *)
Definition field (item : jsval) (name : string) : jsval :=
  match prop item name with
  | Returns v => v
  | Throws _ => JUndefined
  end.

(** What [handleSubmit] makes of an item. *)
Definition as_file (item : jsval) : jsval :=
  JObj [("path", field item "path"); ("content", field item "content")].

(** The item is an object with a field of that name. *)
Definition has_field (item : jsval) (name : string) : bool :=
  match item with
  | JObj fields => match assoc name fields with Some _ => true | None => false end
  | _ => false
  end.

Definition well_formed_item (item : jsval) : bool :=
  has_field item "path" && has_field item "content".

(** How a failed call of [handleSubmit] ends. *)
Definition change_rejected (s : Store) (r : Run unit) : Prop :=
  invokes (trace r) StWrite = false /\
  error (final r) = "Failed to apply changes" /\
  previewUrl (final r) = previewUrl s /\
  exists e, console (final r) = console s ++ [("Error handling submit:", e)].

(** *** Readings of the specification that the component does not meet *)

(** "If the final record step fails, the pipeline still reports success":
    a rejected update of the project store leaves the page ready and
    without an error. *)
Definition record_failure_is_silent : Prop :=
  forall (w : World) (userPrompt : string) (projId : option Z) (s : Store)
         (id : Z) (body : jsval) (e : exn),
    isGenerating s = false ->
    let r := run w (generateCode userPrompt projId) s in
    In (EvAwait (Put (ApiProjects id) body) (Throws e)) (trace r) ->
    displayed (final r) = (SReady, EmptyString).

(** "If the write stage reports failure, the terminal state is error and
    the package and build stages are never invoked", where the write
    service reports a failure by rejecting the request or in the body of
    its answer. *)
Definition write_reports_failure (o : outcome) : bool :=
  match o with
  | Throws _ => true
  | Returns answer =>
      match prop answer "success" with
      | Returns (JBool false) => true
      | _ => false
      end
  end.

Definition reported_write_failure_is_fatal : Prop :=
  forall (w : World) (userPrompt : string) (projId : option Z) (s : Store)
         (body : jsval) (o : outcome),
    let r := run w (generateCode userPrompt projId) s in
    In (EvAwait (Post WriteFiles body) o) (trace r) ->
    write_reports_failure o = true ->
    projectStatus (final r) = SError /\
    invokes (trace r) StPackage = false /\
    invokes (trace r) StBuild = false.

(** "Surfaces a typed failure identifying which stage failed": the stage
    that failed can be told from what the page displays. *)
Definition failure_names_its_stage : Prop :=
  exists identify : status * string -> Stage,
    forall (w : World) (userPrompt : string) (projId : option Z) (s : Store) (st : Stage),
      isGenerating s = false ->
      let r := run w (generateCode userPrompt projId) s in
      failed_stage (trace r) = Some st ->
      identify (displayed (final r)) = st.

(** "Parsing is strict": when the rewrite stage's output holds an item
    without a path or without a content, the step fails and nothing is
    submitted to the write service. *)
Definition rewrite_parsing_is_strict : Prop :=
  forall (w : World) (s : Store) (text : jsval) (items : list jsval),
    let r := run w handleSubmit s in
    In (EvCall (JSON_parse text) (Returns (JArr items))) (trace r) ->
    forallb well_formed_item items = false ->
    invokes (trace r) StWrite = false /\
    error (final r) <> EmptyString /\
    previewUrl (final r) = previewUrl s.

(** "The lifecycle state only ever transitions along idle, loading,
    then ready or error, and re-enters loading from ready or error only
    on a new command." *)
Definition specified_transition (a : Action) (x y : status) : Prop :=
  x = y \/
  (x = SIdle /\ y = SLoading) \/
  (x = SLoading /\ (y = SReady \/ y = SError)) \/
  ((x = SReady \/ x = SError) /\ y = SLoading /\ a = Mount).

Definition lifecycle_as_specified : Prop :=
  forall (loc : LocationState) (w : World) (actions : list Action) (a : Action),
    let pg := play loc w actions initial_page in
    specified_transition a (projectStatus (store pg))
                         (projectStatus (store (step loc w a pg))).

(** *** Pages used as examples *)

(** The page of project 42, opened with a prompt. *)
Definition new_project_42 : LocationState :=
  mkLocation (Some "build a todo app") (Some 42%Z) None.

(** The page of project 42, opened from the list of projects. *)
Definition existing_project_42 : LocationState :=
  mkLocation None (Some 42%Z) (Some true).

(** "At most one pipeline run is active per project id": of the runs of
    the two pipelines, generation and modification, at most one is in
    flight. *)
Definition one_run_per_project : Prop :=
  forall (loc : LocationState) (w : World) (actions : list Action),
    let pg := play loc w actions initial_page in
    (active_generations pg + active_modifications pg <= 1)%nat.

(** The mount effect runs; the project has no deployment; generation,
    writing, packaging and building succeed. *)
Definition generation_up_to_build : list Action :=
  [Mount;
   Settle 0 (Returns project42_pending);
   Settle 0 (Returns (JObj [("content", JArr [JObj [("text", JStr "raw")]])]));
   Settle 0 (Returns (JObj [("success", JBool true)]));
   Settle 0 (Returns (JObj [("data", JObj [("publicUrl", JStr "https://zips.example/42.zip")])]));
   Settle 0 (Returns (JObj [("previewUrl", preview42)]))].

(** ** More readings of a run *)

(** The request goes to the project store. *)
Definition on_project_store (r : Request) : bool :=
  match endpoint_of r with
  | ApiProjects _ => true
  | _ => false
  end.

(** How a call of [fetchProjectDeploymentUrl] that was not refused ends,
    by what the project store answered. *)
Definition fetch_outcome (s : Store) (o : outcome) (final : Store) : Prop :=
  let shows_failure e :=
    projectStatus final = SError /\
    error final = "Failed to load project" /\
    previewUrl final = previewUrl s /\
    console final = console s ++ [("Error fetching project:", e)] in
  match o with
  | Returns project =>
      match prop project "deploymentUrl" with
      | Returns url =>
          if truthy url then
            projectStatus final = SReady /\
            error final = EmptyString /\
            previewUrl final = url /\
            console final = console s
          else
            projectStatus final = SError /\
            error final = "Project deployment URL not found" /\
            previewUrl final = previewUrl s /\
            console final = console s
      | Throws e => shows_failure e
      end
  | Throws e => shows_failure e
  end.

(** The order of the modification pipeline. *)
Definition modification_order : list Stage :=
  [StAnalyze; StResolve; StRewrite; StWrite].

(** The build service answers, and its answer has no usable preview URL. *)
Definition world_build_without_url : World :=
  mkWorld (builtin world_fresh)
          (fun r => match r with
                    | Post BuildRun _ => Returns (JObj [("status", JStr "queued")])
                    | _ => respond world_fresh r
                    end)
          (clock world_fresh).

(** The structure the parser returned, if a run got that far. *)
Fixpoint parsed_structure (t : list Event) : option jsval :=
  match t with
  | [] => None
  | EvCall (ParseFrontendCode _) (Returns parsed) :: rest =>
      match prop parsed "structure" with
      | Returns structure => Some structure
      | Throws _ => parsed_structure rest
      end
  | _ :: rest => parsed_structure rest
  end.

(** ** What a page never does *)

(** The writes and the requests that only [generateCode] makes: to
    /generateFrontend, /zipFolder and /buildrun, and the PUT that records
    the deployment.  Those of [handleSubmit], the request to the project
    store that [fetchProjectDeploymentUrl] makes as well, and the request
    to /write-files that both pipelines make, are not among them. *)
Definition generation_write (c : Cmd) : bool :=
  match c with
  | AssignIsGenerating _ | SetValue _ => true
  | _ => false
  end.

Definition generation_request (r : Request) : bool :=
  match r with
  | Post GenerateFrontend _ | Get ZipFolder | Post BuildRun _ | Put _ _ => true
  | _ => false
  end.

(** The writes by which a page shows a deployment, and the requests to
    the project store (/api/projects, by any method) together with those
    that only [generateCode] makes. *)
Definition deployment_write (c : Cmd) : bool :=
  match c with
  | SetProjectStatus SIdle => false
  | SetProjectStatus _ | SetPreviewUrl _ | SetLoadingCode _
  | AssignCurrentProjectId _ => true
  | _ => generation_write c
  end.

Definition deployment_request (r : Request) : bool :=
  on_project_store r || generation_request r.

Section Clean.
Variable bad_cmd : Cmd -> bool.
Variable bad_request : Request -> bool.

(** Nothing done so far was bad, and no call in flight will do anything
    bad. *)
Definition clean (pg : Page) : Prop :=
  Forall (fun e => bad_event bad_cmd bad_request e = false) (log pg) /\
  Forall (fun pd => bad_request (awaited pd) = false /\
                    forall o, avoids bad_cmd bad_request (resume pd o))
         (pending pg).
End Clean.

(** A page that was just opened: its own state and refs are fresh, the
    project structure is the one the application holds. *)
Definition opened (structure : jsval) : Page :=
  mkPage (mkStore false [] EmptyString false (JStr EmptyString) EmptyString SIdle structure
                  false false None [])
         0 [] [].

(** The chat page opened with no navigation state. *)
Definition no_project : LocationState := mkLocation None None None.

(** The writes that would make the page forget it was initialised. *)
Definition forgets_initialized (c : Cmd) : bool :=
  match c with
  | AssignHasInitialized false => true
  | _ => false
  end.

Definition no_request (r : Request) : bool := false.

(** ** What the page renders *)

Definition is_loading (st : status) : bool :=
  match st with SLoading => true | _ => false end.

(** The [disabled] attribute of the prompt's text area, which also takes
    the Enter key. *)
Definition input_disabled (s : Store) : bool :=
  isLoading s || is_loading (projectStatus s).

(** The [disabled] attribute of the send button. *)
Definition send_disabled (s : Store) : bool :=
  is_empty (trim (prompt s)) || isLoading s || is_loading (projectStatus s).

(** * The landing page

    The [Index] component lists the user's projects, creates a project
    from a prompt and opens the chat page on it.  Its state is its own;
    what the services answer is taken at the types the component declares
    for it ([DbUser], [Project], [Project[]]). *)

Module Index.

(** [interface Project] *)
Module Project.
Record t : Type := make {
  id : Z;
  name : string;
  description : option string;
  deploymentUrl : option string;
  createdAt : string;
  projectType : option string;
  status : option string
}.
End Project.

(** [interface DbUser] *)
Module DbUser.
Record t : Type := make {
  id : Z;
  clerkId : string;
  email : string;
  name : string;
  phoneNumber : option string;
  profileImage : option string
}.
End DbUser.

(** What the component reads of the user Clerk hands it; an address or a
    phone number stands for the resource that carries it. *)
Module ClerkUser.
Record t : Type := make {
  id : string;
  emailAddresses : list string;
  fullName : option string;
  firstName : option string;
  phoneNumbers : list string;
  imageUrl : string
}.
End ClerkUser.

(** The body of the request that creates or updates the user. *)
Module UserData.
Record t : Type := make {
  clerkId : string;
  email : string;
  name : string;
  phoneNumber : option string;
  profileImage : option string
}.
End UserData.

(** The body of the request that creates a project. *)
Module ProjectData.
Record t : Type := make {
  userId : Z;
  name : string;
  description : string;
  projectType : string
}.
End ProjectData.

(** The [useState] cells. *)
Record Store : Type := mkStore {
  prompt : string;
  isLoading : bool;
  projects : list Project.t;
  loadingProjects : bool;
  dbUser : option DbUser.t
}.

Definition initial_store : Store := mkStore EmptyString false [] false None.

(** What a call does to the outside, in order. *)
Inductive Effect : Type :=
| PostUsers (body : UserData.t)               (* POST /api/users *)
| GetUserProjects (userId : Z)                (* GET /api/projects/user/:id *)
| PostProjects (body : ProjectData.t)         (* POST /api/projects *)
| DeleteProject (projectId : Z)               (* DELETE /api/projects/:id *)
| Navigate (to : string) (state : LocationState)
| ConsoleError (message : string) (payload : option exn)
| Confirm (message : string)
| StopPropagation.

(** Everything outside the component: what the user answers to
    [window.confirm], what the services answer, and the date as
    [toLocaleDateString] prints it. *)
Record World : Type := mkWorld {
  confirms : string -> bool;
  createUser : UserData.t -> DbUser.t + exn;
  userProjects : Z -> list Project.t + exn;
  createProject : ProjectData.t -> Project.t + exn;
  removeProject : Z -> unit + exn;
  today : string
}.

(** How a call ended, the state it left, and what it did. *)
Record Run (A : Type) : Type := mkRun {
  result : A + exn;
  final : Store;
  effects : list Effect
}.

(** A call: it reads the world and the state, may throw, and leaves a
    state and its effects. *)
Definition M (A : Type) : Type := World -> Store -> Run A.

Definition ret {A : Type} (a : A) : M A := fun _ s => mkRun (inl a) s [].

(** The effects of a call come after those done before it. *)
Definition after {A : Type} (done : list Effect) (r : Run A) : Run A :=
  match r with
  | mkRun x s l => mkRun x s (done ++ l)
  end.

Definition bind {A B : Type} (m : M A) (f : A -> M B) : M B :=
  fun w s =>
    match m w s with
    | mkRun (inl a) s' l => after l (f a w s')
    | mkRun (inr e) s' l => mkRun (inr e) s' l
    end.

Declare Scope index_scope.
Delimit Scope index_scope with index.
Notation "x <- p ;; q" := (bind p (fun x => q))
  (at level 61, p at next level, right associativity) : index_scope.
Notation "p ;; q" := (bind p (fun _ => q))
  (at level 61, right associativity) : index_scope.
Local Open Scope index_scope.

(** [try { m } catch (e) { h e }] *)
Definition try_catch {A : Type} (m : M A) (h : exn -> M A) : M A :=
  fun w s =>
    match m w s with
    | mkRun (inl a) s' l => mkRun (inl a) s' l
    | mkRun (inr e) s' l => after l (h e w s')
    end.

(** [try { m } finally { f }] *)
Definition finally {A : Type} (m : M A) (f : M unit) : M A :=
  fun w s =>
    match m w s with
    | mkRun x s' l =>
        match f w s' with
        | mkRun (inl _) s'' l' => mkRun x s'' (l ++ l')
        | mkRun (inr e) s'' l' => mkRun (inr e) s'' (l ++ l')
        end
    end.

(** The state of the render a callback was built in. *)
Definition rendered : M Store := fun _ s => mkRun (inl s) s [].

Definition update (f : Store -> Store) : M unit := fun _ s => mkRun (inl tt) (f s) [].

Definition effect (e : Effect) : M unit := fun _ s => mkRun (inl tt) s [e].

(** A request: its answer is the world's. *)
Definition request {A : Type} (e : Effect) (answer : World -> A + exn) : M A :=
  fun w s => mkRun (answer w) s [e].

Definition setPrompt (v : string) : M unit :=
  update (fun s => mkStore v (isLoading s) (projects s) (loadingProjects s) (dbUser s)).
Definition setIsLoading (v : bool) : M unit :=
  update (fun s => mkStore (prompt s) v (projects s) (loadingProjects s) (dbUser s)).
Definition setProjects (f : list Project.t -> list Project.t) : M unit :=
  update (fun s => mkStore (prompt s) (isLoading s) (f (projects s)) (loadingProjects s)
                           (dbUser s)).
Definition setLoadingProjects (v : bool) : M unit :=
  update (fun s => mkStore (prompt s) (isLoading s) (projects s) v (dbUser s)).
Definition setDbUser (v : option DbUser.t) : M unit :=
  update (fun s => mkStore (prompt s) (isLoading s) (projects s) (loadingProjects s) v).

Definition navigate (to : string) (state : LocationState) : M unit :=
  effect (Navigate to state).
Definition console_error (message : string) (payload : option exn) : M unit :=
  effect (ConsoleError message payload).
Definition window_confirm (message : string) : M bool :=
  fun w s => mkRun (inl (confirms w message)) s [Confirm message].

(** [new Date().toLocaleDateString()] *)
Definition toLocaleDateString : M string := fun w s => mkRun (inl (today w)) s [].

(** [a || b] for strings that may be [null] *)
Definition or_else (a : option string) (b : string) : string :=
  match given_string a with
  | Some t => t
  | None => b
  end.

(** The [userData] of [syncUserAndFetchProjects]. *)
Definition userData (clerkUser : ClerkUser.t) : UserData.t :=
  UserData.make
    (ClerkUser.id clerkUser)
    (or_else (hd_error (ClerkUser.emailAddresses clerkUser)) EmptyString)
    (or_else (ClerkUser.fullName clerkUser)
             (or_else (ClerkUser.firstName clerkUser) "User"))
    (given_string (hd_error (ClerkUser.phoneNumbers clerkUser)))
    (given_string (Some (ClerkUser.imageUrl clerkUser))).

(** [handlePromptChange] *)
Definition handlePromptChange (text : string) : M unit := setPrompt text.

(** [handleProjectClick] *)
Definition handleProjectClick (project : Project.t) : M unit :=
  navigate "/chatPage" (mkLocation None (Some (Project.id project)) (Some true)).

(** [handleDeleteProject] *)
Definition handleDeleteProject (projectId : Z) : M unit :=
  effect StopPropagation ;;
  confirmed <- window_confirm "Are you sure you want to delete this project?" ;;
  if negb confirmed then ret tt
  else
    try_catch
      (request (DeleteProject projectId) (fun w => removeProject w projectId) ;;
       setProjects (filter (fun p => negb (Z.eqb (Project.id p) projectId))))
      (fun e => console_error "Error deleting project:" (Some e)).

(** [handleSubmit].  [dbUser] and [prompt] are those of the render whose
    callback the click runs. *)
Definition handleSubmit : M unit :=
  r <- rendered ;;
  match dbUser r with
  | Some user =>
      if is_empty (trim (prompt r)) then
        console_error "User not authenticated or prompt is empty" None
      else
        setIsLoading true ;;
        finally
          (try_catch
             (date <- toLocaleDateString ;;
              let projectData :=
                ProjectData.make (DbUser.id user) ("Project " ++ date) (prompt r)
                                 "frontend" in
              newProject <- request (PostProjects projectData)
                                    (fun w => createProject w projectData) ;;
              navigate "/chatPage"
                       (mkLocation (Some (prompt r)) (Some (Project.id newProject)) None))
             (fun e => console_error "Error:" (Some e)))
          (setIsLoading false)
  | None => console_error "User not authenticated or prompt is empty" None
  end.

(** [syncUserAndFetchProjects], the body of the effect that depends on
    the Clerk user. *)
Definition syncUserAndFetchProjects (isLoaded : bool) (clerkUser : option ClerkUser.t)
  : M unit :=
  match isLoaded, clerkUser with
  | true, Some user =>
      finally
        (try_catch
           (userResponse <- request (PostUsers (userData user))
                                    (fun w => createUser w (userData user)) ;;
            setDbUser (Some userResponse) ;;
            setLoadingProjects true ;;
            projectsResponse <- request (GetUserProjects (DbUser.id userResponse))
                                        (fun w => userProjects w (DbUser.id userResponse)) ;;
            setProjects (fun _ => projectsResponse))
           (fun e => console_error "Error syncing user or fetching projects:" (Some e)))
        (setLoadingProjects false)
  | _, _ => ret tt
  end.

(** The requests among the effects. *)
Definition is_request (e : Effect) : bool :=
  match e with
  | PostUsers _ | GetUserProjects _ | PostProjects _ | DeleteProject _ => true
  | _ => false
  end.

(** The body of the request [handleSubmit] sends. *)
Definition projectData (w : World) (user : DbUser.t) (description : string) : ProjectData.t :=
  ProjectData.make (DbUser.id user) ("Project " ++ today w) description "frontend".

Definition confirm_delete : string := "Are you sure you want to delete this project?".

(** Where a call navigated to. *)
Fixpoint navigations (l : list Effect) : list (string * LocationState) :=
  match l with
  | [] => []
  | Navigate to state :: rest => (to, state) :: navigations rest
  | _ :: rest => navigations rest
  end.

End Index.

(** *** Worlds used as examples *)

Definition ada : Index.DbUser.t :=
  Index.DbUser.make 7 "user_2abc" "ada@example.org" "Ada" None None.

Definition project_of (id : Z) (name : string) : Index.Project.t :=
  Index.Project.make id name None None "2025-01-01T00:00:00.000Z" (Some "frontend") None.

(** The user confirms or not, and the services work or reject. *)
Definition index_world (confirmed services_ok : bool) : Index.World :=
  Index.mkWorld
    (fun _ => confirmed)
    (fun _ => if services_ok then inl ada else inr (Raised (JStr "no user service")))
    (fun _ => if services_ok
              then inl [project_of 41 "Project 1/1/2025"; project_of 42 "Project 1/2/2025"]
              else inr (Raised (JStr "no project list")))
    (fun body => if services_ok
                 then inl (project_of 43 (Index.ProjectData.name body))
                 else inr (Raised (JStr "project not created")))
    (fun _ => if services_ok then inl tt else inr (Raised (JStr "project not deleted")))
    "1/3/2025".

(** The landing page of a signed-in user who typed a prompt. *)
Definition signed_in_with_prompt : Index.Store :=
  Index.mkStore "build a todo app" false
                [project_of 41 "Project 1/1/2025"; project_of 42 "Project 1/2/2025"]
                false (Some ada).



(** ** A call run to completion *)

Arguments prop : simpl never.
Arguments index : simpl never.
Arguments truthy : simpl never.
Arguments given_number : simpl never.
Arguments trim : simpl never.
Arguments toString : simpl never.
Arguments analysisPrompt : simpl never.

(** Symbolic execution: unfold the run up to the next answer of the
    world, use what is known about that answer, or split on it. *)
Ltac crunch :=
  repeat (cbn; unfold dot, at_index;
    match goal with
    | H : ?o = _ |- context [of_outcome ?o] => rewrite H
    | |- context [of_outcome ?o] => destruct o eqn:?
    | H : truthy ?u = _ |- context [if truthy ?u then _ else _] => rewrite H
    | |- context [if truthy ?u then _ else _] => destruct (truthy u) eqn:?
    | H : given_number ?p = _ |- context [match given_number ?p with _ => _ end] =>
        rewrite H
    | |- context [match given_number ?p with _ => _ end] =>
        destruct (given_number p) eqn:?
    end); cbn.

Lemma given_number_nonzero (id : Z) : id <> 0%Z -> given_number (Some id) = Some id.
Proof.
  intros Hid. unfold given_number.
  destruct (Z.eqb_spec id 0); congruence.
Qed.

Lemma given_number_some (n : option Z) (id : Z) :
  given_number n = Some id -> n = Some id /\ id <> 0%Z.
Proof.
  unfold given_number. destruct n as [i|]; [|discriminate].
  destruct (Z.eqb_spec i 0); [discriminate|].
  intros [= ->]. auto.
Qed.

Lemma stops_at_failure_spec (t : list Event) :
  stops_at_failure t = true ->
  forall before e after,
    t = before ++ e :: after -> failed e = true -> stages after = [].
Proof.
  induction t as [|x t IH]; intros Hs before e after Heq Hf.
  - destruct before; discriminate.
  - cbn in Hs. apply andb_true_iff in Hs as [Hx Ht].
    destruct before as [|b before]; cbn in Heq.
    + injection Heq as -> ->. rewrite Hf in Hx.
      destruct (stages after); [reflexivity | discriminate].
    + injection Heq as _ Heq. eapply IH; eauto.
Qed.

Lemma stops_after_spec (bad : Event -> bool) (t : list Event) :
  stops_after bad t = true ->
  forall before e after,
    t = before ++ e :: after -> bad e = true -> stages after = [].
Proof.
  induction t as [|x t IH]; intros Hs before e after Heq Hf.
  - destruct before; discriminate.
  - cbn in Hs. apply andb_true_iff in Hs as [Hx Ht].
    destruct before as [|b before]; cbn in Heq.
    + injection Heq as -> ->. rewrite Hf in Hx.
      destruct (stages after); [reflexivity | discriminate].
    + injection Heq as _ Heq. eapply IH; eauto.
Qed.

Lemma stage_eqb_eq (a b : Stage) : stage_eqb a b = true -> a = b.
Proof. destruct a, b; cbn; congruence. Qed.



(** A value that has been read without a throw can be read again. *)
Lemma prop_readable (v : jsval) (name other : string) (x : jsval) (e : exn) :
  prop v name = Returns x -> prop v other = Throws e -> False.
Proof.
  destruct v; unfold prop; try discriminate.
  - intros _. destruct (String.eqb other "length"); discriminate.
  - intros _. destruct (String.eqb other "length"); discriminate.
Qed.

Ltac absurd_read :=
  match goal with
  | H1 : prop ?v _ = Returns _, H2 : prop ?v _ = Throws _ |- _ =>
      exfalso; exact (@prop_readable _ _ _ _ _ H1 H2)
  end.

(** Use what is known of the answers wherever the goal reads them. *)
Ltac use_answers :=
  unfold stage_due, fails, unreadable, ends_run, text_of, public_url_of;
  repeat (cbn;
    match goal with
    | H : prop ?v ?n = _ |- context [prop ?v ?n] => rewrite H
    | H : index ?v ?i = _ |- context [index ?v ?i] => rewrite H
    | H : truthy ?u = _ |- context [truthy ?u] => rewrite H
    | H : given_number ?p = _ |- context [given_number ?p] => rewrite H
    end); cbn.

(** The scenario of the specification: project 42 has no deployment;
    generating writes, packages, builds and records. *)
Example generate_fresh_project :
  let r := run world_fresh (generateCode "build a todo app" (Some 42%Z)) initial_store in
  previewUrl (final r) = preview42 /\
  projectStatus (final r) = SReady /\
  stages (trace r) = StFetchProject :: generation_order /\
  In (Put (ApiProjects 42)
          (JObj [("deploymentUrl", preview42); ("status", JStr "ready")]))
     (requests (trace r)).
Proof. vm_compute. intuition. Qed.

(** *** The check for a recorded deployment *)

(** C1.  When the project store answers the request for the project with
    a record that carries a deployment URL, a call of [generateCode] with
    that project's id, admitted by the guard, shows the recorded URL,
    reaches "ready", and issues no request but the one to the project
    store: the generation, parse, write, package and build stages are not
    invoked. *)
Theorem generate_returns_recorded_deployment
    (w : World) (userPrompt : string) (id : Z) (s : Store) (project url : jsval) :
  isGenerating s = false ->
  id <> 0%Z ->
  respond w (Get (ApiProjects id)) = Returns project ->
  prop project "deploymentUrl" = Returns url ->
  truthy url = true ->
  let r := run w (generateCode userPrompt (Some id)) s in
  result r = inl tt /\
  previewUrl (final r) = url /\
  projectStatus (final r) = SReady /\
  error (final r) = EmptyString /\
  isGenerating (final r) = false /\
  requests (trace r) = [Get (ApiProjects id)] /\
  stages (trace r) = [StFetchProject].
Proof.
  intros Hg Hid Hres Hurl Ht r. subst r.
  pose proof (given_number_nonzero Hid) as Hn.
  unfold run, generateCode. cbn [exec]. rewrite Hg.
  crunch. repeat split; reflexivity.
Qed.

Lemma generate_returns_recorded_deployment_witness :
  (isGenerating initial_store = false /\
   42%Z <> 0%Z /\
   respond world_deployed (Get (ApiProjects 42)) = Returns project42_ready /\
   prop project42_ready "deploymentUrl" = Returns preview42 /\
   truthy preview42 = true) /\
  let r := run world_deployed (generateCode "anything" (Some 42%Z)) initial_store in
  result r = inl tt /\
  previewUrl (final r) = preview42 /\
  projectStatus (final r) = SReady /\
  error (final r) = EmptyString /\
  isGenerating (final r) = false /\
  requests (trace r) = [Get (ApiProjects 42)] /\
  stages (trace r) = [StFetchProject].
Proof.
  split.
  - repeat split; try reflexivity; discriminate.
  - apply (@generate_returns_recorded_deployment
             world_deployed "anything" 42%Z initial_store project42_ready preview42);
      [reflexivity | discriminate | reflexivity | reflexivity | reflexivity].
Defined.

(** *** Failures of the generation pipeline *)

Ltac start_generate s Hg :=
  unfold run, generateCode, generate_pipeline; cbn [exec]; rewrite Hg.

(** The event is in the trace, which is a concrete list. *)
Ltac find_event :=
  match goal with
  | |- In _ _ => cbn; repeat (first [left; reflexivity | right]); fail
  | |- _ \/ _ => repeat (first [left; reflexivity | right]); fail
  end.

(** What is left of a membership in a concrete trace. *)
Ltac pick_event H :=
  cbn in H;
  repeat match type of H with
         | _ \/ _ => destruct H as [H|H]
         end;
  try contradiction; try discriminate H.

(** C6, as the code has it.  Only a rejected request makes the write
    stage fail.  When the request to the write service is rejected, the
    run ends in "error" and the package, build and record stages are not
    invoked.  When it is answered, the answer is not looked at: whatever
    it reports, the package stage is invoked next. *)
Theorem only_a_rejected_write_aborts
    (w : World) (userPrompt : string) (projId : option Z) (s : Store)
    (body : jsval) (o : outcome) :
  let r := run w (generateCode userPrompt projId) s in
  In (EvAwait (Post WriteFiles body) o) (trace r) ->
  match o with
  | Throws e =>
      projectStatus (final r) = SError /\
      invokes (trace r) StPackage = false /\
      invokes (trace r) StBuild = false /\
      invokes (trace r) StRecord = false
  | Returns answer =>
      exists before after,
        trace r = before ++ EvAwait (Post WriteFiles body) (Returns answer) :: after /\
        hd_error (stages after) = Some StPackage
  end.
Proof.
  intros r. subst r.
  unfold run, generateCode, generate_pipeline. cbn [exec].
  destruct (isGenerating s); [intros []|].
  crunch; intros H; pick_event H.
  all: injection H as <- <-.
  all: try (repeat split; reflexivity).
  all: match goal with
       | |- exists before after, ?t = _ /\ _ =>
           let rec cut pre l :=
             lazymatch l with
             | EvAwait (Post WriteFiles _) _ :: ?rest =>
                 exists pre, rest; split; reflexivity
             | ?e :: ?rest => cut (pre ++ [e]) rest
             end in
           cut (@nil Event) t
       end.
Qed.

Lemma only_a_rejected_write_aborts_witness :
  let r := run world_write_fails (generateCode "build a todo app" (Some 42%Z)) initial_store in
  let files := JArr [JObj [("path", JStr "index.html"); ("content", JStr "<html>")];
                     JObj [("path", JStr "app.js"); ("content", JStr "void 0")]] in
  In (EvAwait (Post WriteFiles (JObj [("files", files)]))
              (Throws (Raised (JStr "write failed")))) (trace r) /\
  projectStatus (final r) = SError /\
  invokes (trace r) StPackage = false /\
  invokes (trace r) StBuild = false /\
  invokes (trace r) StRecord = false.
Proof.
  assert (H : In (EvAwait
                    (Post WriteFiles
                       (JObj [("files",
                               JArr [JObj [("path", JStr "index.html"); ("content", JStr "<html>")];
                                     JObj [("path", JStr "app.js"); ("content", JStr "void 0")]])]))
                    (Throws (Raised (JStr "write failed"))))
                 (trace (run world_write_fails
                             (generateCode "build a todo app" (Some 42%Z)) initial_store))).
  { vm_compute. do 8 right. left. reflexivity. }
  split; [exact H|].
  exact (@only_a_rejected_write_aborts
           world_write_fails "build a todo app" (Some 42%Z) initial_store _ _ H).
Defined.

(** C6 as stated fails: a write service that answers, and reports in its
    answer that a file was not written, does not stop the run, which
    packages, builds, records and ends "ready". *)
Lemma reported_write_failure_is_ignored : ~ reported_write_failure_is_fatal.
Proof.
  intros H.
  specialize (H world_write_reports_failure "build a todo app" (Some 42%Z) initial_store
                (JObj [("files",
                        JArr [JObj [("path", JStr "index.html"); ("content", JStr "<html>")];
                              JObj [("path", JStr "app.js"); ("content", JStr "void 0")]])])
                (Returns partial_write)).
  cbv zeta in H.
  assert (Hin : In (EvAwait
                      (Post WriteFiles
                         (JObj [("files",
                                 JArr [JObj [("path", JStr "index.html");
                                             ("content", JStr "<html>")];
                                       JObj [("path", JStr "app.js");
                                             ("content", JStr "void 0")]])]))
                      (Returns partial_write))
                   (trace (run world_write_reports_failure
                               (generateCode "build a todo app" (Some 42%Z)) initial_store))).
  { vm_compute. do 8 right. left. reflexivity. }
  destruct (H Hin eq_refl) as [Hst _].
  vm_compute in Hst. discriminate Hst.
Qed.

(** The same run: the write service reported a failure, and the page is
    ready, with the preview of the build. *)
Example reported_write_failure_ends_ready :
  let r := run world_write_reports_failure (generateCode "build a todo app" (Some 42%Z))
               initial_store in
  displayed (final r) = (SReady, EmptyString) /\
  previewUrl (final r) = preview42 /\
  stages (trace r) = StFetchProject :: generation_order.
Proof. vm_compute. repeat split; reflexivity. Qed.





(** C8, as the code has it.  A stage fails, as far as [generateCode] can
    tell, when its request is rejected, when its function throws, or when
    its answer cannot be read.  An admitted call in which a stage fails
    invokes no stage after it and ends in "error" with one message, the
    same whichever stage failed: "Failed to generate code"; what was
    thrown goes to the console, once.  An admitted call in which no stage
    fails ends in "ready" with no message, whatever the answers report. *)
Theorem stage_failure_aborts_with_one_message
    (w : World) (userPrompt : string) (projId : option Z) (s : Store) :
  isGenerating s = false ->
  let r := run w (generateCode userPrompt projId) s in
  if existsb fails (trace r) then
    projectStatus (final r) = SError /\
    error (final r) = "Failed to generate code" /\
    (exists e, console (final r) = console s ++ [("Error generating code:", e)]) /\
    (forall before ev after,
        trace r = before ++ ev :: after -> fails ev = true -> stages after = [])
  else
    displayed (final r) = (SReady, EmptyString) /\
    console (final r) = console s.
Proof.
  intros Hg r. subst r.
  start_generate s Hg.
  crunch.
  all: try absurd_read.
  all: use_answers.
  all: try (split; reflexivity).
  all: repeat split; [eexists; reflexivity|].
  all: apply stops_after_spec; use_answers; reflexivity.
Qed.

Lemma stage_failure_aborts_with_one_message_witness :
  let r := run world_generate_answers_nothing (generateCode "build a todo app" (Some 42%Z))
               initial_store in
  (isGenerating initial_store = false /\
   existsb failed (trace r) = false /\
   existsb fails (trace r) = true) /\
  projectStatus (final r) = SError /\
  error (final r) = "Failed to generate code" /\
  (exists e, console (final r) = console initial_store ++ [("Error generating code:", e)]) /\
  (forall before ev after,
      trace r = before ++ ev :: after -> fails ev = true -> stages after = []).
Proof.
  split; [repeat split; reflexivity|].
  exact (@stage_failure_aborts_with_one_message
           world_generate_answers_nothing "build a todo app" (Some 42%Z) initial_store
           eq_refl).
Defined.

(** C8 as stated fails: a rejected generation request and a rejected
    write request are displayed alike, so nothing displayed identifies
    the stage. *)
Lemma failure_does_not_name_its_stage : ~ failure_names_its_stage.
Proof.
  intros [identify H].
  pose proof (H world_generate_fails "build a todo app" (Some 42%Z) initial_store
                StGenerate eq_refl eq_refl) as Hgen.
  pose proof (H world_write_fails "build a todo app" (Some 42%Z) initial_store
                StWrite eq_refl eq_refl) as Hwrite.
  vm_compute in Hgen, Hwrite.
  rewrite Hgen in Hwrite. discriminate Hwrite.
Qed.

(** C3, as the code has it.  When the update of the project store is
    rejected, every stage up to the build was invoked and answered, the
    preview keeps the URL the build returned, which is the one the update
    carried, and the rejection is handled like any other failure: the run
    ends in "error" with the message "Failed to generate code", and what
    was thrown goes to the console. *)
Theorem record_failure_is_displayed
    (w : World) (userPrompt : string) (projId : option Z) (s : Store)
    (id : Z) (body : jsval) (e : exn) :
  isGenerating s = false ->
  let r := run w (generateCode userPrompt projId) s in
  In (EvAwait (Put (ApiProjects id) body) (Throws e)) (trace r) ->
  (exists request data,
      In (EvAwait (Post BuildRun request) (Returns data)) (trace r) /\
      prop data "previewUrl" = Returns (previewUrl (final r))) /\
  stages (trace r) = StFetchProject :: generation_order /\
  body = JObj [("deploymentUrl", previewUrl (final r)); ("status", JStr "ready")] /\
  truthy (previewUrl (final r)) = true /\
  projectStatus (final r) = SError /\
  error (final r) = "Failed to generate code" /\
  console (final r) = console s ++ [("Error generating code:", e)].
Proof.
  intros Hg r. subst r.
  start_generate s Hg.
  crunch; intros H; pick_event H.
  all: injection H as <- <- <-.
  all: split; [do 2 eexists; split; [find_event | eassumption]|].
  all: repeat split; assumption.
Qed.

Lemma record_failure_is_displayed_witness :
  let r := run world_record_fails (generateCode "build a todo app" (Some 42%Z)) initial_store in
  let body := JObj [("deploymentUrl", preview42); ("status", JStr "ready")] in
  let e := Raised (JStr "record failed") in
  (isGenerating initial_store = false /\
   In (EvAwait (Put (ApiProjects 42) body) (Throws e)) (trace r)) /\
  (exists request data,
      In (EvAwait (Post BuildRun request) (Returns data)) (trace r) /\
      prop data "previewUrl" = Returns (previewUrl (final r))) /\
  stages (trace r) = StFetchProject :: generation_order /\
  body = JObj [("deploymentUrl", previewUrl (final r)); ("status", JStr "ready")] /\
  truthy (previewUrl (final r)) = true /\
  projectStatus (final r) = SError /\
  error (final r) = "Failed to generate code" /\
  console (final r) = console initial_store ++ [("Error generating code:", e)].
Proof.
  assert (H : In (EvAwait (Put (ApiProjects 42)
                               (JObj [("deploymentUrl", preview42); ("status", JStr "ready")]))
                          (Throws (Raised (JStr "record failed"))))
                 (trace (run world_record_fails
                             (generateCode "build a todo app" (Some 42%Z)) initial_store))).
  { vm_compute. do 13 right. left. reflexivity. }
  split; [split; [reflexivity | exact H]|].
  exact (@record_failure_is_displayed
           world_record_fails "build a todo app" (Some 42%Z) initial_store _ _ _ eq_refl H).
Defined.

(** C3 as stated fails: with every service but the project store's
    update working, the page ends in "error". *)
Lemma record_failure_is_not_silent : ~ record_failure_is_silent.
Proof.
  intros H.
  specialize (H world_record_fails "build a todo app" (Some 42%Z) initial_store
                42%Z (JObj [("deploymentUrl", preview42); ("status", JStr "ready")])
                (Raised (JStr "record failed")) eq_refl).
  cbv zeta in H.
  assert (Hin : In (EvAwait (Put (ApiProjects 42)
                               (JObj [("deploymentUrl", preview42); ("status", JStr "ready")]))
                          (Throws (Raised (JStr "record failed"))))
                 (trace (run world_record_fails
                             (generateCode "build a todo app" (Some 42%Z)) initial_store))).
  { vm_compute. do 13 right. left. reflexivity. }
  specialize (H Hin). vm_compute in H. discriminate H.
Qed.

(** ** The modification pipeline run to completion *)

Create HintDb avoids.

Section AvoidsFacts.
Variable bad_cmd : Cmd -> bool.
Variable bad_request : Request -> bool.
Local Abbreviation avoids := (avoids bad_cmd bad_request).
Local Abbreviation bad_event := (bad_event bad_cmd bad_request).

Lemma avoids_bind {A B : Type} (p : Prog A) (f : A -> Prog B) :
  avoids p -> (forall a, avoids (f a)) -> avoids (bind p f).
Proof.
  intros Hp Hf. induction p; cbn in *; intuition auto.
Qed.

Lemma avoids_try_catch {A : Type} (p : Prog A) (h : exn -> Prog A) :
  avoids p -> (forall e, avoids (h e)) -> avoids (try_catch p h).
Proof.
  intros Hp Hh. induction p; cbn in *; intuition auto.
Qed.

Lemma avoids_finally {A : Type} (p : Prog A) (f : Prog unit) :
  avoids p -> avoids f -> avoids (finally p f).
Proof.
  intros Hp Hf. induction p; cbn -[bind] in *; intuition auto.
  all: apply avoids_bind; cbn; auto.
Qed.

Lemma avoids_of_outcome (o : outcome) : avoids (of_outcome o).
Proof. destruct o; exact I. Qed.

Lemma avoids_dot (v : jsval) (name : string) : avoids (dot v name).
Proof. apply avoids_of_outcome. Qed.

Lemma avoids_at_index (v : jsval) (i : nat) : avoids (at_index v i).
Proof. apply avoids_of_outcome. Qed.

Lemma avoids_call (f : Builtin) : avoids (call f).
Proof. intros o. apply avoids_of_outcome. Qed.

Lemma avoids_await (r : Request) : bad_request r = false -> avoids (await r).
Proof. intros H. split; [exact H|]. intros o. apply avoids_of_outcome. Qed.

Lemma avoids_do (c : Cmd) : bad_cmd c = false -> avoids (do c).
Proof. intros H. split; [exact H | exact I]. Qed.

Lemma avoids_map_items (f : jsval -> Prog jsval) (items : list jsval) :
  (forall item, avoids (f item)) -> avoids (map_items f items).
Proof.
  intros Hf. induction items as [|item items IH]; cbn -[bind]; [exact I|].
  apply avoids_bind; [apply Hf|]. intros y.
  apply avoids_bind; [exact IH|]. intros ys. exact I.
Qed.

Lemma avoids_js_map (v : jsval) (f : jsval -> Prog jsval) :
  (forall item, avoids (f item)) -> avoids (js_map v f).
Proof.
  intros Hf. destruct v; try exact I. cbn -[bind].
  apply avoids_bind; [apply avoids_map_items; exact Hf|]. intros ys. exact I.
Qed.

(** A program that avoids them leaves no such event in its trace. *)
Lemma avoids_trace {A : Type} (w : World) (p : Prog A) (s : Store) (n : nat) :
  avoids p -> Forall (fun e => bad_event e = false) (trace (exec w p s n)).
Proof.
  revert s n. induction p; intros s n Hp; cbn in *;
    try (constructor; cbn; intuition auto); auto.
Qed.

(** And it leaves alone whatever the other writes leave alone. *)
Lemma avoids_frame {A T : Type} (proj : Store -> T) (w : World) (p : Prog A)
      (s : Store) (n : nat) :
  (forall c s', bad_cmd c = false -> proj (apply_cmd c s') = proj s') ->
  avoids p -> proj (final (exec w p s n)) = proj s.
Proof.
  intros Hproj. revert s n.
  induction p as [a|e|k IH|k IH|c k IH|f k IH|r k IH]; intros s n Hp; cbn in *;
    try reflexivity; try (apply IH; apply Hp).
  destruct Hp as [Hc Hk]. rewrite IH by exact Hk. apply Hproj, Hc.
Qed.

Lemma clean_trace_requests (t : list Event) :
  Forall (fun e => bad_event e = false) t ->
  Forall (fun r => bad_request r = false) (requests t).
Proof.
  induction 1 as [|e t He _ IH]; cbn; [constructor|].
  destruct e; auto.
Qed.

Lemma clean_trace_invokes (t : list Event) (st : Stage) :
  (forall e, stage_of e = Some st -> bad_event e = true) ->
  Forall (fun e => bad_event e = false) t ->
  invokes t st = false.
Proof.
  intros Hst. unfold invokes. induction 1 as [|e t He _ IH]; cbn; [reflexivity|].
  destruct (stage_of e) as [st'|] eqn:Hs; [|exact IH].
  cbn. rewrite IH, orb_false_r.
  destruct (stage_eqb st st') eqn:Heq; [|reflexivity].
  apply stage_eqb_eq in Heq as <-. rewrite (Hst _ Hs) in He. discriminate He.
Qed.
End AvoidsFacts.

#[export] Hint Resolve avoids_bind avoids_try_catch avoids_finally avoids_of_outcome
  avoids_dot avoids_at_index avoids_call avoids_await avoids_do
  avoids_map_items avoids_js_map : avoids.

Lemma pick_path_content_avoids (bad_cmd : Cmd -> bool) (bad_request : Request -> bool)
      (item : jsval) :
  avoids bad_cmd bad_request (pick_path_content item).
Proof.
  unfold pick_path_content.
  apply avoids_bind; [apply avoids_dot | intros path].
  apply avoids_bind; [apply avoids_dot | intros content]. exact I.
Qed.

#[export] Hint Resolve pick_path_content_avoids : avoids.

Ltac change_pipeline_avoids :=
  unfold change_pipeline;
  repeat (apply avoids_bind; [solve [auto with avoids] | intros ?]);
  intros ? ?; apply avoids_do; reflexivity.

Ltac handleSubmit_avoids :=
  unfold handleSubmit; intros r;
  destruct (is_empty (trim (prompt r)) || isLoading r); [exact I|];
  repeat (apply avoids_bind; [apply avoids_do; reflexivity | intros _]);
  intros t t';
  repeat (apply avoids_bind; [apply avoids_do; reflexivity | intros _]);
  apply avoids_finally; [|apply avoids_do; reflexivity];
  apply avoids_try_catch; [change_pipeline_avoids|];
  intros e;
  repeat (apply avoids_bind; [apply avoids_do; reflexivity | intros _]);
  intros u u'; apply avoids_do; reflexivity.

Lemma handleSubmit_avoids_deployment : avoids changes_deployment deploys handleSubmit.
Proof. handleSubmit_avoids. Qed.

(** C5.  A call of [handleSubmit] leaves the preview URL and the
    lifecycle status as they were, however it ends, and issues no request
    to the project store, to the packaging service or to the build
    service. *)
Theorem applyChange_leaves_deployment_alone (w : World) (s : Store) :
  let r := run w handleSubmit s in
  previewUrl (final r) = previewUrl s /\
  projectStatus (final r) = projectStatus s /\
  Forall (fun q => deploys q = false) (requests (trace r)) /\
  invokes (trace r) StRecord = false /\
  invokes (trace r) StPackage = false /\
  invokes (trace r) StBuild = false.
Proof.
  intros r. subst r. unfold run.
  pose proof handleSubmit_avoids_deployment as Hav.
  pose proof (@avoids_trace changes_deployment deploys _ w handleSubmit s 0 Hav) as Htr.
  assert (Hstage : forall st, (st = StRecord \/ st = StPackage \/ st = StBuild) ->
                              invokes (trace (exec w handleSubmit s 0)) st = false).
  { intros st Hst.
    apply (@clean_trace_invokes changes_deployment deploys); [|exact Htr].
    intros [c|f o|[e|e b|e b] o] Hs; cbn in Hs;
      try destruct c; try destruct f; try destruct e; try discriminate Hs;
      try reflexivity.
    all: injection Hs as <-; destruct Hst as [H|[H|H]]; discriminate H. }
  repeat split; auto.
  - apply (@avoids_frame changes_deployment deploys _ _ previewUrl w handleSubmit s 0);
      [|exact Hav].
    intros [] s' Hc; try discriminate Hc; reflexivity.
  - apply (@avoids_frame changes_deployment deploys _ _ projectStatus w handleSubmit s 0);
      [|exact Hav].
    intros [] s' Hc; try discriminate Hc; reflexivity.
  - apply (@clean_trace_requests changes_deployment deploys _ Htr).
Qed.

Arguments js_map : simpl never.

Lemma map_items_pick (items : list jsval) :
  map_items pick_path_content items =
  if existsb nullish items then Throw TypeError else Ret (map as_file items).
Proof.
  induction items as [|item items IH]; [reflexivity|].
  cbn [map_items existsb map]. rewrite IH.
  destruct item; unfold pick_path_content, dot, as_file, field, prop; cbn;
    destruct (existsb nullish items); reflexivity.
Qed.

(** C2, as the code has it.  The output of the rewrite stage goes through
    [JSON.parse] and is mapped item by item.  The step fails, with
    nothing submitted to the write service and the preview URL unchanged,
    when [JSON.parse] throws, when what it returns is not an array, or
    when an item is [null] or [undefined].  Otherwise every item is
    submitted to the write service, a missing path or content as
    [undefined]. *)
Theorem rewrite_output_is_mapped
    (w : World) (s : Store) (text : jsval) (o : outcome) :
  let r := run w handleSubmit s in
  In (EvCall (JSON_parse text) o) (trace r) ->
  match o with
  | Returns (JArr items) =>
      if existsb nullish items then change_rejected s r
      else In (Post WriteFiles
                    (JObj [("baseDir", JStr baseDir); ("files", JArr (map as_file items))]))
              (requests (trace r))
  | _ => change_rejected s r
  end.
Proof.
  intros r. subst r. unfold run, handleSubmit, change_pipeline, change_rejected.
  cbn [exec].
  destruct (is_empty (trim (prompt s)) || isLoading s); [intros []|].
  crunch.
  all: try (intros H; pick_event H; fail).
  all: try match goal with
       | |- context [js_map ?v _] => destruct v; unfold js_map
       end.
  all: try rewrite map_items_pick.
  all: try match goal with
       | |- context [existsb nullish ?l] => destruct (existsb nullish l) eqn:Hnull
       end.
  all: crunch.
  all: intros H; pick_event H.
  all: injection H as <- <-; cbn; try rewrite Hnull; cbn;
    repeat split; eauto 10.
Qed.

(** What the rewrite service of the example answers is the JSON text of
    the array [JSON.parse] makes of it. *)
Example rewrite_text_is_json :
  compact (JArr [JObj [("path", JStr "src/App.tsx")]]) = JStr item_without_content_text /\
  respond world_item_without_content (Post Modify JNull) =
    Returns (JObj [("content", JArr [JObj [("text", JStr item_without_content_text)]])]) /\
  builtin world_item_without_content (JSON_parse (JStr "rewritten")) =
    Throws (Raised (JStr "SyntaxError")).
Proof. repeat split; reflexivity. Qed.

Lemma rewrite_output_is_mapped_witness :
  let r := run world_item_without_content handleSubmit store_with_request in
  let item := JObj [("path", JStr "src/App.tsx")] in
  In (EvCall (JSON_parse (JStr item_without_content_text)) (Returns (JArr [item])))
     (trace r) /\
  In (Post WriteFiles
           (JObj [("baseDir", JStr baseDir);
                  ("files", JArr [JObj [("path", JStr "src/App.tsx");
                                        ("content", JUndefined)]])]))
     (requests (trace r)).
Proof.
  assert (H : In (EvCall (JSON_parse (JStr item_without_content_text))
                         (Returns (JArr [JObj [("path", JStr "src/App.tsx")]])))
                 (trace (run world_item_without_content handleSubmit store_with_request))).
  { vm_compute. do 8 right. left. reflexivity. }
  split; [exact H|].
  exact (@rewrite_output_is_mapped
           world_item_without_content store_with_request _ _ H).
Defined.

(** C2 as stated fails: the rewrite service answers with the JSON text of
    one item that has a path and no content; the item is written, and the
    call reports success. *)
Lemma rewrite_parsing_is_not_strict : ~ rewrite_parsing_is_strict.
Proof.
  intros H.
  specialize (H world_item_without_content store_with_request
                (JStr item_without_content_text) [JObj [("path", JStr "src/App.tsx")]]).
  cbv zeta in H.
  assert (Hin : In (EvCall (JSON_parse (JStr item_without_content_text))
                           (Returns (JArr [JObj [("path", JStr "src/App.tsx")]])))
                   (trace (run world_item_without_content handleSubmit store_with_request))).
  { vm_compute. do 8 right. left. reflexivity. }
  destruct (H Hin eq_refl) as [Hwrite _].
  vm_compute in Hwrite. discriminate Hwrite.
Qed.

(** The same run in full: the item goes to the write service and the
    message log ends with the success message. *)
Example item_without_content_is_written :
  let r := run world_item_without_content handleSubmit store_with_request in
  invokes (trace r) StWrite = true /\
  error (final r) = EmptyString /\
  map msg_content (messages (final r)) =
    ["add a dark mode toggle"; "Changes applied successfully!"] /\
  previewUrl (final r) = preview42.
Proof. vm_compute. repeat split; reflexivity. Qed.

(** ** Steps of the page *)

Section MonitorFacts.
Variable M : Type.
Variable on_cmd : M -> Cmd -> option M.
Variable on_await : M -> Request -> option (outcome -> M).
Variable may_finish : M -> bool.
Variable shows : M -> Store -> Prop.
Hypothesis shows_cmd :
  forall m c m' s, on_cmd m c = Some m' -> shows m s -> shows m' (apply_cmd c s).

(** A segment of a program that follows the monitor ends in a state the
    monitor reaches, at an [await] the monitor allows or at an end it
    allows, and what is left follows the monitor. *)
Lemma follows_segment (w : World) (p : Prog unit) :
  forall (m : M) (s : Store) (n : nat),
    follows on_cmd on_await may_finish m p ->
    shows m s ->
    exists m',
      reaches on_cmd m m' /\
      shows m' (seg_store (segment w p s n)) /\
      match seg_end (segment w p s n) with
      | Finished r => r = inl tt /\ may_finish m' = true
      | Waiting r k =>
          exists next, on_await m' r = Some next /\
                       forall o, follows on_cmd on_await may_finish (next o) (k o)
      end.
Proof.
  induction p as [a|e|k IH|k IH|c k IH|f k IH|r k IH]; intros m s n Hp Hs; cbn in *.
  - exists m. destruct a. repeat split; [constructor | exact Hs | exact Hp].
  - contradiction.
  - apply IH; [apply Hp | exact Hs].
  - apply IH; [apply Hp | exact Hs].
  - destruct (on_cmd m c) as [m1|] eqn:Hc; [|contradiction].
    destruct (IH m1 (apply_cmd c s) n Hp (shows_cmd Hc Hs)) as (m' & Hr & Hs' & Hend).
    exists m'. repeat split; [eapply reaches_on; eauto | exact Hs' | exact Hend].
  - apply IH; [apply Hp | exact Hs].
  - exists m. split; [constructor|]. split; [exact Hs|].
    destruct (on_await m r) as [next|]; [|contradiction].
    exists next. split; [reflexivity | exact Hp].
Qed.
End MonitorFacts.

(** *** The three monitors *)

(** Split on whatever the monitor's answer [H] still depends on. *)
Ltac split_monitor H :=
  repeat match type of H with
         | context [match ?x with _ => _ end] => destruct x eqn:?
         end;
  try discriminate H; injection H as <-.

Lemma gen_shows_cmd (m : GenPhase) (c : Cmd) (m' : GenPhase) (s : Store) :
  gen_cmd m c = Some m' -> gen_shows m s -> gen_shows m' (apply_cmd c s).
Proof.
  unfold gen_shows. intros Hc (Hg & Hst & Hi).
  destruct c; cbn in Hc |- *; split_monitor Hc; cbn; repeat split; auto; congruence.
Qed.

(** Along the writes of a run of [generateCode]: the guard is not taken
    again, and the status moves from loading to ready or error, or from
    ready to error after a rejected record request. *)
Lemma gen_reaches (m m' : GenPhase) :
  reaches gen_cmd m m' ->
  record_rejected m' = record_rejected m /\
  (shown m' = shown m \/
   (shown m = SLoading /\ settled_status (shown m') = true) \/
   (shown m = SReady /\ shown m' = SError /\ record_rejected m = true)).
Proof.
  induction 1 as [|m c m1 m2 Hc _ IH]; [auto|].
  destruct IH as (Hrej & Hsh).
  assert (Hstep : record_rejected m1 = record_rejected m /\
                  (shown m1 = shown m \/
                   (shown m = SLoading /\ settled_status (shown m1) = true) \/
                   (shown m = SReady /\ shown m1 = SError /\ record_rejected m = true))).
  { destruct c; cbn in Hc; split_monitor Hc; cbn; intuition congruence. }
  destruct Hstep as (Hrej1 & Hsh1). split; [congruence|].
  rewrite Hrej1 in Hsh.
  destruct Hsh as [Heq | [(Hl & Hset) | (Hr & He & Hj)]];
    destruct Hsh1 as [Heq1 | [(Hl1 & Hset1) | (Hr1 & He1 & Hj1)]].
  - left. congruence.
  - right. left. split; [exact Hl1|]. rewrite Heq. exact Hset1.
  - right. right. repeat split; congruence.
  - right. left. split; [congruence | exact Hset].
  - rewrite Hl in Hset1. discriminate Hset1.
  - congruence.
  - right. right. repeat split; congruence.
  - right. left. split; [exact Hl1|]. rewrite He. reflexivity.
  - congruence.
Qed.

Lemma gen_shows_busy_cmd (busy : bool) (m : GenPhase) (c : Cmd) (m' : GenPhase) (s : Store) :
  gen_cmd m c = Some m' -> gen_shows_busy busy m s -> gen_shows_busy busy m' (apply_cmd c s).
Proof.
  unfold gen_shows_busy. intros Hc (Hs & Hl).
  split; [eapply gen_shows_cmd; eassumption|].
  destruct c; cbn in Hc |- *; try exact Hl. discriminate Hc.
Qed.

Lemma fetch_shows_cmd (guard busy : bool) (m : FetchPhase) (c : Cmd) (m' : FetchPhase)
      (s : Store) :
  fetch_cmd m c = Some m' ->
  fetch_shows_guard guard busy m s -> fetch_shows_guard guard busy m' (apply_cmd c s).
Proof.
  unfold fetch_shows_guard, fetch_shows. intros Hc ((Ho & Hi) & Hg & Hl).
  destruct c; cbn in Hc |- *; split_monitor Hc; cbn; repeat split; auto; congruence.
Qed.

Lemma sub_shows_cmd (guard : bool) (st : status) (initialized : bool)
      (busy : bool) (c : Cmd) (busy' : bool) (s : Store) :
  sub_cmd busy c = Some busy' ->
  sub_shows guard st initialized busy s ->
  sub_shows guard st initialized busy' (apply_cmd c s).
Proof.
  unfold sub_shows, sub_cmd. intros Hc (Hl & Hg & Hst & Hi).
  destruct c; cbn in Hc |- *; split_monitor Hc; cbn; repeat split; auto; congruence.
Qed.

Lemma sub_await_some (busy : bool) (r : Request) (next : outcome -> bool) :
  sub_await busy r = Some next -> busy = true /\ forall o, next o = true.
Proof.
  unfold sub_await. destruct busy; [|discriminate]. intros [= <-]. auto.
Qed.

Lemma sub_finish_true (busy : bool) : sub_finish busy = true -> busy = false.
Proof. destruct busy; [discriminate | reflexivity]. Qed.

(** *** The first segment of each function *)

Lemma branch_generate (loc : LocationState) (p : string) (id : Z) :
  branch loc = BranchGenerate p id ->
  mount_origin loc = FromGenerate /\
  given_number (Some id) = Some id /\
  initializeProject loc =
    ((do (SetPrompt p) ;; generateCode p (Some id)) ;; do (AssignHasInitialized true)).
Proof.
  unfold branch, mount_origin, initializeProject.
  destruct (given_number (projectId loc)) as [i|] eqn:Hn;
    destruct (given_bool (existingProject loc));
    destruct (given_string (navPrompt loc)); try discriminate.
  intros [= <- <-].
  destruct (given_number_some _ Hn) as [_ Hi].
  repeat split. apply given_number_nonzero, Hi.
Qed.

Lemma branch_fetch (loc : LocationState) (id : Z) :
  branch loc = BranchFetch id ->
  mount_origin loc = FromFetch /\
  initializeProject loc =
    (fetchProjectDeploymentUrl SIdle id ;; do (AssignHasInitialized true)).
Proof.
  unfold branch, mount_origin, initializeProject.
  destruct (given_number (projectId loc)) as [i|] eqn:Hn;
    destruct (given_bool (existingProject loc));
    destruct (given_string (navPrompt loc)); try discriminate.
  all: intros [= <-]; split; reflexivity.
Qed.

Lemma branch_idle (loc : LocationState) :
  branch loc = BranchIdle ->
  mount_origin loc = FromGenerate /\
  initializeProject loc = (do (SetProjectStatus SIdle) ;; do (AssignHasInitialized true)).
Proof.
  unfold branch, mount_origin, initializeProject.
  destruct (given_number (projectId loc)) as [i|] eqn:Hn;
    destruct (given_bool (existingProject loc));
    destruct (given_string (navPrompt loc)); try discriminate.
  all: intros _; split; reflexivity.
Qed.

(** Walk every path of what is left of a call. *)
Ltac walk :=
  repeat (cbn; unfold dot, at_index; intros;
    match goal with
    | |- context [of_outcome ?o] => destruct o eqn:?
    | |- context [if truthy ?u then _ else _] => destruct (truthy u) eqn:?
    | H : given_number ?p = _ |- context [match given_number ?p with _ => _ end] =>
        rewrite H
    | |- context [match given_number ?p with _ => _ end] =>
        destruct (given_number p) eqn:?
    end); cbn; try reflexivity; try exact I.

(** An admitted call of [generateCode] from the mount effect takes the
    guard, shows "loading", and stops at the request for the project. *)
Lemma mount_generate_admitted (w : World) (loc : LocationState) (p : string) (id : Z)
      (s : Store) (n : nat) :
  branch loc = BranchGenerate p id ->
  hasInitialized s = false ->
  isGenerating s = false ->
  let sg := segment w (mount_effect loc) s n in
  isGenerating (seg_store sg) = true /\
  projectStatus (seg_store sg) = SLoading /\
  hasInitialized (seg_store sg) = false /\
  isLoading (seg_store sg) = isLoading s /\
  exists k,
    seg_end sg = Waiting (Get (ApiProjects id)) k /\
    forall o, follows gen_cmd gen_await gen_finish
                      (phase_after (Get (ApiProjects id)) o) (k o).
Proof.
  intros Hb Hi Hg sg. subst sg.
  destruct (branch_generate _ Hb) as (_ & Hn & Hinit).
  unfold mount_effect. cbn [segment]. rewrite Hi, Hinit.
  unfold generateCode, generate_pipeline. cbn. rewrite Hg. cbn. rewrite Hn. cbn.
  repeat split; try assumption.
  eexists. split; [reflexivity|].
  walk.
Qed.

(** A call of [generateCode] from the mount effect while the guard is
    held does nothing but what [initializeProject] does around it. *)
Lemma mount_generate_absorbed (w : World) (loc : LocationState) (p : string) (id : Z)
      (s : Store) (n : nat) :
  branch loc = BranchGenerate p id ->
  hasInitialized s = false ->
  isGenerating s = true ->
  segment w (mount_effect loc) s n =
  mkSegment (apply_cmd (AssignHasInitialized true) (apply_cmd (SetPrompt p) s)) n
            [EvDo (SetPrompt p); EvDo (AssignHasInitialized true)]
            (Finished (inl tt)).
Proof.
  intros Hb Hi Hg.
  destruct (branch_generate _ Hb) as (_ & Hn & Hinit).
  unfold mount_effect. cbn [segment]. rewrite Hi, Hinit.
  unfold generateCode. cbn. rewrite Hg. reflexivity.
Qed.

(** A call of [fetchProjectDeploymentUrl] from the mount effect is never
    refused: the status its callback closed over is "idle". *)
Lemma mount_fetch_starts (w : World) (loc : LocationState) (id : Z)
      (s : Store) (n : nat) :
  branch loc = BranchFetch id ->
  hasInitialized s = false ->
  let sg := segment w (mount_effect loc) s n in
  isGenerating (seg_store sg) = isGenerating s /\
  projectStatus (seg_store sg) = SLoading /\
  hasInitialized (seg_store sg) = false /\
  isLoading (seg_store sg) = isLoading s /\
  exists k,
    seg_end sg = Waiting (Get (ApiProjects id)) k /\
    forall o, follows fetch_cmd fetch_await fetch_finish (mkFetchPhase false false) (k o).
Proof.
  intros Hb Hi sg. subst sg.
  destruct (branch_fetch _ Hb) as (_ & Hinit).
  unfold mount_effect. cbn [segment]. rewrite Hi, Hinit.
  unfold fetchProjectDeploymentUrl. cbn. rewrite andb_false_r. cbn.
  repeat split; try assumption.
  eexists. split; [reflexivity|].
  walk.
Qed.

Lemma mount_idle (w : World) (loc : LocationState) (s : Store) (n : nat) :
  branch loc = BranchIdle ->
  hasInitialized s = false ->
  segment w (mount_effect loc) s n =
  mkSegment (apply_cmd (AssignHasInitialized true) (apply_cmd (SetProjectStatus SIdle) s)) n
            [EvDo (SetProjectStatus SIdle); EvDo (AssignHasInitialized true)]
            (Finished (inl tt)).
Proof.
  intros Hb Hi.
  destruct (branch_idle _ Hb) as (_ & Hinit).
  unfold mount_effect. cbn [segment]. rewrite Hi, Hinit. reflexivity.
Qed.

Lemma mount_initialized (w : World) (loc : LocationState) (s : Store) (n : nat) :
  hasInitialized s = true ->
  segment w (mount_effect loc) s n = mkSegment s n [] (Finished (inl tt)).
Proof.
  intros Hi. unfold mount_effect. cbn [segment]. rewrite Hi. reflexivity.
Qed.

(** [handleSubmit] takes [isLoading] once, awaits only while it holds
    it, releases it before it ends, and leaves the lifecycle alone. *)
Lemma handleSubmit_follows : follows sub_cmd sub_await sub_finish false handleSubmit.
Proof.
  unfold handleSubmit, change_pipeline. intros r.
  destruct (is_empty (trim (prompt r)) || isLoading r); [reflexivity|].
  walk.
  all: match goal with
       | |- context [js_map ?v _] => destruct v; unfold js_map
       end.
  all: try rewrite map_items_pick.
  all: try match goal with
       | |- context [existsb nullish ?l] => destruct (existsb nullish l)
       end.
  all: walk.
Qed.

Lemma handleSubmit_refused (w : World) (s : Store) (n : nat) :
  is_empty (trim (prompt s)) || isLoading s = true ->
  segment w handleSubmit s n = mkSegment s n [] (Finished (inl tt)).
Proof.
  intros H. unfold handleSubmit. cbn [segment]. rewrite H. reflexivity.
Qed.

(** *** Lists of pending calls *)

Lemma count_app {A : Type} (f : A -> bool) (l : list A) (x : A) :
  List.length (filter f (l ++ [x])) =
  (List.length (filter f l) + if f x then 1 else 0)%nat.
Proof.
  rewrite filter_app, length_app. cbn. destruct (f x); reflexivity.
Qed.

Lemma count_remove_nth {A : Type} (f : A -> bool) (i : nat) (l : list A) (x : A) :
  nth_error l i = Some x ->
  List.length (filter f l) =
  (List.length (filter f (remove_nth i l)) + if f x then 1 else 0)%nat.
Proof.
  revert i. induction l as [|y l IH]; intros [|i] H; try discriminate H; cbn in H.
  - injection H as ->. cbn. destruct (f x); cbn; lia.
  - specialize (IH _ H). cbn. destruct (f y); cbn; lia.
Qed.

Lemma In_remove_nth {A : Type} (i : nat) (l : list A) (x : A) :
  In x (remove_nth i l) -> In x l.
Proof.
  revert i. induction l as [|y l IH]; intros [|i] H; cbn in *; auto.
  destruct H as [H|H]; [left; exact H | right; eapply IH; exact H].
Qed.

Lemma Forall_remove_nth {A : Type} (P : A -> Prop) (i : nat) (l : list A) :
  Forall P l -> Forall P (remove_nth i l).
Proof.
  intros H. apply Forall_forall. intros x Hx.
  eapply Forall_forall; [exact H | eapply In_remove_nth; exact Hx].
Qed.

Lemma count_zero {A : Type} (f : A -> bool) (l : list A) :
  (forall x, In x l -> f x = false) -> List.length (filter f l) = 0%nat.
Proof.
  induction l as [|y l IH]; intros H; cbn; [reflexivity|].
  rewrite (H y (or_introl eq_refl)). apply IH. intros x Hx. apply H. right. exact Hx.
Qed.

Lemma count_zero_inv {A : Type} (f : A -> bool) (l : list A) (x : A) :
  List.length (filter f l) = 0%nat -> In x l -> f x = false.
Proof.
  induction l as [|y l IH]; intros H Hx; cbn in *; [contradiction|].
  destruct (f y) eqn:Hy; [discriminate H|].
  destruct Hx as [<-|Hx]; [exact Hy | apply IH; assumption].
Qed.

Lemma origin_cases (pd : Pending) :
  (from_submit pd = true /\ from_generate pd = false /\ from_fetch pd = false) \/
  (from_submit pd = false /\ from_generate pd = true /\ from_fetch pd = false) \/
  (from_submit pd = false /\ from_generate pd = false /\ from_fetch pd = true).
Proof.
  unfold from_submit, from_generate, from_fetch. destruct (origin pd); auto.
Qed.

(** *** The invariant *)

Lemma invariant_initial (loc : LocationState) : Invariant loc initial_page.
Proof.
  constructor; cbn; auto; try contradiction.
  destruct (branch loc); auto.
Qed.

(** A step that leaves the pending calls, the guard, the status and
    [isLoading] as they were, and does not unset [hasInitialized]. *)
Lemma invariant_frame (loc : LocationState) (pg : Page) (s' : Store) (rd : nat)
      (lg : list Event) :
  Invariant loc pg ->
  isGenerating s' = isGenerating (store pg) ->
  projectStatus s' = projectStatus (store pg) ->
  isLoading s' = isLoading (store pg) ->
  (hasInitialized (store pg) = true -> hasInitialized s' = true) ->
  Invariant loc (mkPage s' rd (pending pg) lg).
Proof.
  intros [Hsound Hone Hgen Hrel Hfetch Huninit Hidle Hmod Hbusy Hfree] Eg Es El Ei.
  unfold active_generations, active_modifications in *.
  constructor; cbn; rewrite ?Eg, ?Es, ?El; auto.
  intros Hi'. apply Huninit.
  destruct (hasInitialized (store pg)); [|reflexivity].
  rewrite (Ei eq_refl) in Hi'. discriminate Hi'.
Qed.

Lemma no_generation_when_released (loc : LocationState) (pg : Page) :
  Invariant loc pg -> isGenerating (store pg) = false -> active_generations pg = 0%nat.
Proof.
  intros Hinv Hg. apply count_zero. intros pd Hin.
  destruct (from_generate pd) eqn:Hpd; [|reflexivity].
  destruct (inv_generating Hinv pd Hin Hpd) as (Hheld & _). congruence.
Qed.

Lemma no_modification_when_free (loc : LocationState) (pg : Page) :
  Invariant loc pg -> isLoading (store pg) = false -> active_modifications pg = 0%nat.
Proof.
  intros Hinv Hl. apply count_zero. intros pd Hin.
  destruct (from_submit pd) eqn:Hpd; [|reflexivity].
  pose proof (inv_busy Hinv pd Hin Hpd). congruence.
Qed.

Lemma no_generation_outside_branch (loc : LocationState) (pg : Page) :
  Invariant loc pg ->
  (forall p id, branch loc <> BranchGenerate p id) ->
  forall pd, In pd (pending pg) -> from_generate pd = false.
Proof.
  intros Hinv Hb pd Hin.
  destruct (from_generate pd) eqn:Hpd; [|reflexivity].
  destruct (inv_generating Hinv pd Hin Hpd) as (_ & _ & p & id & Hbr).
  destruct (Hb p id Hbr).
Qed.

Lemma no_fetch_outside_branch (loc : LocationState) (pg : Page) :
  Invariant loc pg ->
  (forall id, branch loc <> BranchFetch id) ->
  forall pd, In pd (pending pg) -> from_fetch pd = false.
Proof.
  intros Hinv Hb pd Hin.
  destruct (from_fetch pd) eqn:Hpd; [|reflexivity].
  destruct (inv_fetching Hinv pd Hin Hpd) as (_ & id & Hbr).
  destruct (Hb id Hbr).
Qed.

(** Membership in a list of pending calls with one more at the end. *)
Ltac old_or_new Hin :=
  apply in_app_or in Hin as [Hin|[<-|[]]].

(** The mount effect. *)
Lemma mount_step (loc : LocationState) (w : World) (pg : Page) :
  Invariant loc pg ->
  Invariant loc (step loc w Mount pg) /\ transition loc pg Mount (step loc w Mount pg).
Proof.
  intros Hinv.
  pose proof Hinv as [Hsound Hone Hgen Hrel Hfetch Huninit Hidle Hmod Hbusy Hfree].
  unfold transition, step, launch. cbv zeta.
  destruct (hasInitialized (store pg)) eqn:Hi.
  { rewrite (mount_initialized w loc _ _ Hi). cbn.
    split; [|left; reflexivity].
    apply invariant_frame; auto. }
  destruct (branch loc) as [id|p id|] eqn:Hb.
  - (* the page of an existing project *)
    destruct (branch_fetch _ Hb) as (Horigin & _).
    destruct (mount_fetch_starts w loc (store pg) (readings pg) Hb Hi)
      as (Eg & Es & Ei & El & k & Hend & Hk).
    assert (Hnone : forall pd, In pd (pending pg) -> from_generate pd = false).
    { apply (no_generation_outside_branch Hinv). intros p' id'. rewrite Hb. discriminate. }
    pose proof (count_zero from_generate _ Hnone) as Hzero.
    remember (segment w (mount_effect loc) (store pg) (readings pg)) as sg eqn:Hsg in *.
    rewrite Hend, Horigin. cbn. rewrite Es.
    split.
    + unfold active_generations, active_modifications in *.
      constructor; cbn; rewrite ?Eg, ?Es, ?Ei, ?El, ?Hb.
      * apply Forall_app. split; [exact Hsound|]. constructor; [exact Hk | constructor].
      * rewrite count_app. cbn. lia.
      * intros pd Hin Hpd. old_or_new Hin;
          [rewrite (Hnone _ Hin) in Hpd|]; discriminate Hpd.
      * intros _. apply Hrel. exact Hzero.
      * intros pd Hin Hpd. split; [discriminate | eauto].
      * reflexivity.
      * discriminate.
      * rewrite count_app. cbn. lia.
      * intros pd Hin Hpd. old_or_new Hin; [eauto | discriminate Hpd].
      * rewrite count_app. cbn. rewrite Nat.add_0_r. exact Hfree.
    + specialize (Huninit eq_refl). cbn in Huninit.
      destruct (projectStatus (store pg)); try discriminate Huninit; auto.
  - (* the page of a new project *)
    destruct (branch_generate _ Hb) as (Horigin & _ & _).
    assert (Hnone : forall pd, In pd (pending pg) -> from_fetch pd = false).
    { apply (no_fetch_outside_branch Hinv). intros id'. rewrite Hb. discriminate. }
    destruct (isGenerating (store pg)) eqn:Hg.
    + rewrite (mount_generate_absorbed w loc _ (readings pg) Hb Hi Hg). cbn.
      split; [|left; reflexivity].
      apply invariant_frame; auto.
    + destruct (mount_generate_admitted w loc (store pg) (readings pg) Hb Hi Hg)
        as (Eg & Es & Ei & El & k & Hend & Hk).
      pose proof (no_generation_when_released Hinv Hg) as Hzero.
      remember (segment w (mount_effect loc) (store pg) (readings pg)) as sg eqn:Hsg in *.
      rewrite Hend, Horigin. cbn. rewrite Es.
      split.
      * unfold active_generations, active_modifications in *.
        constructor; cbn; rewrite ?Eg, ?Es, ?Ei, ?El, ?Hb.
        -- apply Forall_app. split; [exact Hsound|]. constructor; [exact Hk | constructor].
        -- rewrite count_app, Hzero. cbn. lia.
        -- intros pd Hin Hpd. old_or_new Hin.
           ++ rewrite (count_zero_inv from_generate _ pd Hzero Hin) in Hpd. discriminate Hpd.
           ++ cbn. eauto.
        -- rewrite count_app, Hzero. cbn. discriminate.
        -- intros pd Hin Hpd. old_or_new Hin;
             [rewrite (Hnone _ Hin) in Hpd|]; discriminate Hpd.
        -- discriminate.
        -- discriminate.
        -- rewrite count_app. cbn. lia.
        -- intros pd Hin Hpd. old_or_new Hin; [eauto | discriminate Hpd].
        -- rewrite count_app. cbn. rewrite Nat.add_0_r. exact Hfree.
      * right. left. specialize (Huninit eq_refl eq_refl). auto.
  - (* the page opened without a project *)
    rewrite (mount_idle w loc _ (readings pg) Hb Hi). cbn.
    pose proof (Hidle eq_refl) as Hst.
    split; [|left; exact Hst].
    apply invariant_frame; auto.
Qed.

Lemma gen_await_some (m : GenPhase) (r : Request) (next : outcome -> GenPhase) :
  gen_await m r = Some next ->
  held m = true /\ shown m = shown_at r /\ forall o, next o = phase_after r o.
Proof.
  unfold gen_await, phase_after, shown_at.
  destruct m as [h sh rj gi]. cbn.
  destruct h, gi, rj, sh; cbn; try discriminate;
    destruct (is_record r); try discriminate; intros [= <-]; auto.
Qed.

Lemma gen_finish_true (m : GenPhase) :
  gen_finish m = true -> held m = false /\ gen_initialized m = true.
Proof.
  unfold gen_finish. intros H. apply andb_true_iff in H as [Hh Hi].
  split; [destruct (held m); [discriminate Hh | reflexivity] | exact Hi].
Qed.

Lemma settled_not_idle (st : status) : settled_status st = true -> st <> SIdle.
Proof. destruct st; cbn; congruence. Qed.

Lemma filter_remove_nth_other {A : Type} (f : A -> bool) (i : nat) (l : list A) (x : A) :
  nth_error l i = Some x -> f x = false -> filter f (remove_nth i l) = filter f l.
Proof.
  revert i. induction l as [|y l IH]; intros [|i] H Hx; try discriminate H; cbn in H.
  - injection H as ->. cbn. rewrite Hx. reflexivity.
  - cbn. rewrite (IH _ H Hx). reflexivity.
Qed.

(** A segment of [handleSubmit]: the lifecycle stays as it was, and the
    call either stops at its next request, holding [isLoading], or ends
    with [isLoading] released. *)
Lemma modification_runs (w : World) (p : Prog unit) (s : Store) (n : nat) (busy : bool) :
  follows sub_cmd sub_await sub_finish busy p ->
  isLoading s = busy ->
  let sg := segment w p s n in
  isGenerating (seg_store sg) = isGenerating s /\
  projectStatus (seg_store sg) = projectStatus s /\
  hasInitialized (seg_store sg) = hasInitialized s /\
  match seg_end sg with
  | Finished _ => isLoading (seg_store sg) = false
  | Waiting r k =>
      isLoading (seg_store sg) = true /\
      forall o, follows sub_cmd sub_await sub_finish true (k o)
  end.
Proof.
  intros Hp Hl sg. subst sg.
  destruct (@follows_segment _ sub_cmd sub_await sub_finish
              (sub_shows (isGenerating s) (projectStatus s) (hasInitialized s))
              (@sub_shows_cmd (isGenerating s) (projectStatus s) (hasInitialized s))
              w p busy s n Hp)
    as (busy' & _ & (Hl' & Hg' & Hs' & Hi') & Hend).
  { repeat split. exact Hl. }
  repeat split; try assumption.
  destruct (seg_end (segment w p s n)) as [r|r k].
  - destruct Hend as (_ & Hfin). apply sub_finish_true in Hfin. congruence.
  - destruct Hend as (next & Hnext & Hk).
    destruct (sub_await_some _ _ Hnext) as (Hb & Hn).
    split; [congruence|]. intros o. rewrite <- (Hn o). apply Hk.
Qed.

(** The invariant after a step of [handleSubmit]: the lifecycle and the
    other pending calls are as they were. *)
Lemma invariant_modification (loc : LocationState) (pg : Page) (s' : Store) (rd : nat)
      (l' : list Pending) (lg : list Event) :
  Invariant loc pg ->
  isGenerating s' = isGenerating (store pg) ->
  projectStatus s' = projectStatus (store pg) ->
  hasInitialized s' = hasInitialized (store pg) ->
  (forall pd, In pd l' -> from_submit pd = false -> In pd (pending pg)) ->
  filter from_generate l' = filter from_generate (pending pg) ->
  Forall sound l' ->
  (List.length (filter from_submit l') <= 1)%nat ->
  (forall pd, In pd l' -> from_submit pd = true -> isLoading s' = true) ->
  (List.length (filter from_submit l') = 0%nat -> isLoading s' = false) ->
  Invariant loc (mkPage s' rd l' lg).
Proof.
  intros [Hsound Hone Hgen Hrel Hfetch Huninit Hidle Hmod Hbusy Hfree]
         Eg Es Ei Hsub Hsame Hsound' Hmod' Hbusy' Hfree'.
  unfold active_generations, active_modifications in *.
  constructor; cbn; rewrite ?Eg, ?Es, ?Ei, ?Hsame; auto.
  - intros pd Hin Hpd. apply (Hgen pd); [|exact Hpd]. apply Hsub; [exact Hin|].
    destruct (origin_cases pd) as [(_ & H & _) | [(H & _) | (H & _)]]; congruence.
  - intros pd Hin Hpd. apply (Hfetch pd); [|exact Hpd]. apply Hsub; [exact Hin|].
    destruct (origin_cases pd) as [(_ & _ & H) | [(H & _) | (H & _)]]; congruence.
Qed.

(** The user sends the prompt. *)
Lemma submit_step (loc : LocationState) (w : World) (pg : Page) :
  Invariant loc pg ->
  Invariant loc (step loc w Submit pg) /\
  projectStatus (store (step loc w Submit pg)) = projectStatus (store pg).
Proof.
  intros Hinv. unfold step, launch. cbv zeta.
  destruct (is_empty (trim (prompt (store pg))) || isLoading (store pg)) eqn:Hguard.
  { rewrite (handleSubmit_refused w _ (readings pg) Hguard). cbn.
    split; [|reflexivity]. apply invariant_frame; auto. }
  apply orb_false_iff in Hguard as [_ Hl].
  pose proof (no_modification_when_free Hinv Hl) as Hzero.
  unfold active_modifications in Hzero.
  destruct (modification_runs w handleSubmit (store pg) (readings pg)
                              handleSubmit_follows Hl)
    as (Eg & Es & Ei & Hend).
  remember (segment w handleSubmit (store pg) (readings pg)) as sg eqn:Hsg in *.
  cbn. split; [|exact Es].
  destruct (seg_end sg) as [r|r k].
  - apply (@invariant_modification loc pg); auto.
    + apply (inv_sound Hinv).
    + rewrite Hzero. lia.
    + intros pd Hin Hpd.
      rewrite (count_zero_inv from_submit _ pd Hzero Hin) in Hpd. discriminate Hpd.
  - destruct Hend as (Hl' & Hk).
    apply (@invariant_modification loc pg); auto.
    + intros pd Hin Hpd. old_or_new Hin; [exact Hin | discriminate Hpd].
    + rewrite filter_app. cbn. apply app_nil_r.
    + apply Forall_app. split; [apply (inv_sound Hinv)|].
      constructor; [exact Hk | constructor].
    + rewrite count_app, Hzero. cbn. lia.
    + rewrite count_app, Hzero. cbn. discriminate.
Qed.

(** The user edits the prompt. *)
Lemma edit_step (loc : LocationState) (w : World) (pg : Page) (text : string) :
  Invariant loc pg ->
  Invariant loc (step loc w (Edit text) pg) /\
  projectStatus (store (step loc w (Edit text) pg)) = projectStatus (store pg).
Proof.
  intros Hinv. unfold step, launch. cbn.
  split; [|reflexivity]. apply invariant_frame; auto.
Qed.

(** A request of the pending call of [handleSubmit] settles. *)
Lemma settle_submit (loc : LocationState) (w : World) (pg : Page) (i : nat) (o : outcome)
      (pd : Pending) :
  Invariant loc pg ->
  nth_error (pending pg) i = Some pd ->
  origin pd = FromSubmit ->
  Invariant loc (step loc w (Settle i o) pg) /\
  projectStatus (store (step loc w (Settle i o) pg)) = projectStatus (store pg).
Proof.
  intros Hinv Hnth Horigin.
  assert (Hpd : from_submit pd = true) by (unfold from_submit; rewrite Horigin; reflexivity).
  assert (Hgd : from_generate pd = false)
    by (unfold from_generate; rewrite Horigin; reflexivity).
  pose proof (nth_error_In _ _ Hnth) as Hin.
  pose proof (inv_busy Hinv pd Hin Hpd) as Hl.
  assert (Hfol : follows sub_cmd sub_await sub_finish true (resume pd o)).
  { pose proof (proj1 (Forall_forall _ _) (inv_sound Hinv) pd Hin) as Hs.
    unfold sound in Hs. rewrite Horigin in Hs. apply Hs. }
  assert (Hzero : List.length (filter from_submit (remove_nth i (pending pg))) = 0%nat).
  { pose proof (count_remove_nth from_submit _ _ Hnth) as Hcount.
    rewrite Hpd in Hcount. pose proof (inv_one_modification Hinv) as Hone.
    unfold active_modifications in Hone. lia. }
  destruct (modification_runs w (resume pd o) (store pg) (readings pg) Hfol Hl)
    as (Eg & Es & Ei & Hend).
  unfold step. rewrite Hnth, Horigin. unfold launch. cbn.
  remember (segment w (resume pd o) (store pg) (readings pg)) as sg eqn:Hsg in *.
  split; [|exact Es].
  pose proof (Forall_remove_nth i (inv_sound Hinv)) as Hsound.
  destruct (seg_end sg) as [r|r k].
  - apply (@invariant_modification loc pg); auto.
    + intros pd' Hin' _. eapply In_remove_nth. exact Hin'.
    + apply (filter_remove_nth_other _ _ _ Hnth Hgd).
    + rewrite Hzero. lia.
    + intros pd' Hin' Hpd'.
      rewrite (count_zero_inv from_submit _ pd' Hzero Hin') in Hpd'. discriminate Hpd'.
  - destruct Hend as (Hl' & Hk).
    apply (@invariant_modification loc pg); auto.
    + intros pd' Hin' Hpd'. old_or_new Hin';
        [eapply In_remove_nth; exact Hin' | discriminate Hpd'].
    + rewrite filter_app, (filter_remove_nth_other _ _ _ Hnth Hgd). cbn. apply app_nil_r.
    + apply Forall_app. split; [exact Hsound|].
      constructor; [exact Hk | constructor].
    + rewrite count_app, Hzero. cbn. lia.
    + rewrite count_app, Hzero. cbn. discriminate.
Qed.

(** Forgetting a pending call of [fetchProjectDeploymentUrl]. *)
Lemma invariant_forget (loc : LocationState) (pg : Page) (i : nat) (pd : Pending)
      (lg : list Event) :
  Invariant loc pg ->
  nth_error (pending pg) i = Some pd ->
  from_generate pd = false ->
  from_submit pd = false ->
  Invariant loc (mkPage (store pg) (readings pg) (remove_nth i (pending pg)) lg).
Proof.
  intros [Hsound Hone Hgen Hrel Hfetch Huninit Hidle Hmod Hbusy Hfree] Hnth Hpd Hsd.
  pose proof (count_remove_nth from_generate _ _ Hnth) as Hcount.
  pose proof (count_remove_nth from_submit _ _ Hnth) as Hcount'.
  rewrite Hpd, Nat.add_0_r in Hcount. rewrite Hsd, Nat.add_0_r in Hcount'.
  unfold active_generations, active_modifications in *.
  constructor; cbn; rewrite <- ?Hcount, <- ?Hcount'; auto.
  - apply Forall_remove_nth. exact Hsound.
  - intros pd' Hin. apply Hgen. eapply In_remove_nth. exact Hin.
  - intros pd' Hin. apply Hfetch. eapply In_remove_nth. exact Hin.
  - intros pd' Hin. apply Hbusy. eapply In_remove_nth. exact Hin.
Qed.

(** The request of a pending call of [fetchProjectDeploymentUrl]
    settles: the call shows "ready" or "error", marks the page
    initialized, and ends. *)
Lemma settle_fetch (loc : LocationState) (w : World) (pg : Page) (i : nat) (o : outcome)
      (pd : Pending) :
  Invariant loc pg ->
  nth_error (pending pg) i = Some pd ->
  origin pd = FromFetch ->
  Invariant loc (step loc w (Settle i o) pg) /\
  projectStatus (store pg) <> SIdle /\
  settled_status (projectStatus (store (step loc w (Settle i o) pg))) = true.
Proof.
  intros Hinv Hnth Horigin.
  assert (Hpd : from_generate pd = false)
    by (unfold from_generate; rewrite Horigin; reflexivity).
  assert (Hsd : from_submit pd = false)
    by (unfold from_submit; rewrite Horigin; reflexivity).
  assert (Hfd : from_fetch pd = true) by (unfold from_fetch; rewrite Horigin; reflexivity).
  pose proof (nth_error_In _ _ Hnth) as Hin.
  destruct (inv_fetching Hinv pd Hin Hfd) as (Hx & id & Hb).
  assert (Hfol : follows fetch_cmd fetch_await fetch_finish (mkFetchPhase false false)
                         (resume pd o)).
  { pose proof (proj1 (Forall_forall _ _) (inv_sound Hinv) pd Hin) as Hs.
    unfold sound in Hs. rewrite Horigin in Hs. apply Hs. }
  pose proof (@invariant_forget loc pg i pd (log pg ++ [EvAwait (awaited pd) o])
                                Hinv Hnth Hpd Hsd) as Hinv0.
  assert (Hnone : forall pd', In pd' (remove_nth i (pending pg)) -> from_generate pd' = false).
  { apply (no_generation_outside_branch Hinv0). intros p' id'. rewrite Hb. discriminate. }
  destruct (@follows_segment _ fetch_cmd fetch_await fetch_finish
              (fetch_shows_guard (isGenerating (store pg)) (isLoading (store pg)))
              (@fetch_shows_cmd (isGenerating (store pg)) (isLoading (store pg)))
              w (resume pd o) (mkFetchPhase false false) (store pg) (readings pg) Hfol)
    as (m' & _ & ((Hshown & Hinit) & Hguard & Hbusy) & Hend).
  { repeat split; cbn; discriminate. }
  unfold step. rewrite Hnth, Horigin. unfold launch. cbn.
  remember (segment w (resume pd o) (store pg) (readings pg)) as sg eqn:Hsg in *.
  destruct (seg_end sg) as [r|r k]; [|destruct Hend as (next & Hnext & _); discriminate Hnext].
  destruct Hend as (_ & Hfin). unfold fetch_finish in Hfin.
  apply andb_true_iff in Hfin as [Hfo Hfi].
  specialize (Hshown Hfo). specialize (Hinit Hfi).
  split; [|split; [exact Hx | exact Hshown]].
  destruct Hinv0 as [Hsound0 Hone0 Hgen0 Hrel0 Hfetch0 _ _ Hmod0 Hbusy0 Hfree0].
  unfold active_generations, active_modifications in *. cbn in *.
  constructor; cbn; rewrite ?Hguard, ?Hbusy, ?Hinit, ?Hb; auto.
  - intros pd' Hin' Hpd'. rewrite (Hnone _ Hin') in Hpd'. discriminate Hpd'.
  - intros pd' Hin' Hpd'. split; [apply settled_not_idle, Hshown | eauto].
  - discriminate.
  - discriminate.
Qed.

(** A request of the run of [generateCode] settles: the run goes on to
    its next request with the guard held, or ends with the guard
    released and the page initialized. *)
Lemma settle_generate (loc : LocationState) (w : World) (pg : Page) (i : nat) (o : outcome)
      (pd : Pending) :
  Invariant loc pg ->
  nth_error (pending pg) i = Some pd ->
  origin pd = FromGenerate ->
  Invariant loc (step loc w (Settle i o) pg) /\
  (projectStatus (store pg) = projectStatus (store (step loc w (Settle i o) pg)) \/
   (projectStatus (store pg) = SLoading /\
    settled_status (projectStatus (store (step loc w (Settle i o) pg))) = true) \/
   (projectStatus (store pg) = SReady /\
    projectStatus (store (step loc w (Settle i o) pg)) = SError /\
    is_record (awaited pd) = true /\ is_rejection o = true)).
Proof.
  intros Hinv Hnth Horigin.
  assert (Hpd : from_generate pd = true) by (unfold from_generate; rewrite Horigin; reflexivity).
  assert (Hsd : from_submit pd = false)
    by (unfold from_submit; rewrite Horigin; reflexivity).
  pose proof (nth_error_In _ _ Hnth) as Hin.
  destruct (inv_generating Hinv pd Hin Hpd) as (Hheld & Hst & p & id & Hb).
  assert (Hfol : follows gen_cmd gen_await gen_finish (phase_after (awaited pd) o)
                         (resume pd o)).
  { pose proof (proj1 (Forall_forall _ _) (inv_sound Hinv) pd Hin) as Hs.
    unfold sound in Hs. rewrite Horigin in Hs. apply Hs. }
  assert (Hshows : gen_shows_busy (isLoading (store pg)) (phase_after (awaited pd) o)
                                  (store pg)).
  { unfold gen_shows_busy, gen_shows. cbn.
    repeat split; [exact Hheld | exact Hst | discriminate]. }
  assert (Hzero : List.length (filter from_generate (remove_nth i (pending pg))) = 0%nat).
  { pose proof (count_remove_nth from_generate _ _ Hnth) as Hcount.
    rewrite Hpd in Hcount. pose proof (inv_one Hinv) as Hone.
    unfold active_generations in Hone. lia. }
  pose proof (filter_remove_nth_other from_submit _ _ Hnth Hsd) as Hsame.
  assert (Hnone : forall pd', In pd' (remove_nth i (pending pg)) -> from_fetch pd' = false).
  { intros pd' Hin'. apply (no_fetch_outside_branch Hinv).
    - intros id'. rewrite Hb. discriminate.
    - eapply In_remove_nth. exact Hin'. }
  destruct (@follows_segment _ gen_cmd gen_await gen_finish
              (gen_shows_busy (isLoading (store pg)))
              (@gen_shows_busy_cmd (isLoading (store pg)))
              w (resume pd o) (phase_after (awaited pd) o) (store pg) (readings pg)
              Hfol Hshows)
    as (m' & Hreach & ((Hg' & Hst' & Hi') & Hl') & Hend).
  destruct (gen_reaches Hreach) as (Hrej & Hsh). cbn in Hrej, Hsh.
  unfold step. rewrite Hnth, Horigin. unfold launch. cbn.
  remember (segment w (resume pd o) (store pg) (readings pg)) as sg eqn:Hsg in *.
  rewrite Hst, Hst'.
  split.
  - pose proof (inv_sound Hinv) as Hsound.
    pose proof (inv_one_modification Hinv) as Hmod.
    pose proof (inv_busy Hinv) as Hbusy.
    pose proof (inv_free Hinv) as Hfree.
    unfold active_generations, active_modifications in *. cbn.
    destruct (seg_end sg) as [r|r k].
    + destruct Hend as (_ & Hfin). apply gen_finish_true in Hfin as (Hh & Hgi).
      specialize (Hi' Hgi). rewrite Hh in Hg'.
      constructor; cbn; rewrite ?Hg', ?Hi', ?Hl', ?Hb, ?Hsame; auto; try discriminate.
      * apply Forall_remove_nth. exact Hsound.
      * rewrite Hzero. lia.
      * intros pd' Hin' Hpd'.
        rewrite (count_zero_inv from_generate _ pd' Hzero Hin') in Hpd'. discriminate Hpd'.
      * intros pd' Hin' Hpd'. rewrite (Hnone _ Hin') in Hpd'. discriminate Hpd'.
      * intros pd' Hin' Hpd'. apply (Hbusy pd'); [|exact Hpd'].
        eapply In_remove_nth. exact Hin'.
    + destruct Hend as (next & Hnext & Hk).
      destruct (gen_await_some _ _ Hnext) as (Hh & Hs' & Hnx).
      rewrite Hh in Hg'.
      constructor; cbn; rewrite ?Hg', ?Hl', ?Hb; auto; try discriminate.
      * apply Forall_app. split; [apply Forall_remove_nth; exact Hsound|].
        constructor; [|constructor]. unfold sound. cbn.
        intros o'. rewrite <- Hnx. apply Hk.
      * rewrite count_app, Hzero. cbn. lia.
      * intros pd' Hin' Hpd'. old_or_new Hin'.
        -- rewrite (count_zero_inv from_generate _ pd' Hzero Hin') in Hpd'. discriminate Hpd'.
        -- cbn. rewrite Hst'. eauto.
      * rewrite count_app, Hzero. cbn. discriminate.
      * intros pd' Hin' Hpd'. old_or_new Hin';
          [rewrite (Hnone _ Hin') in Hpd'|]; discriminate Hpd'.
      * rewrite count_app, Hsame. cbn. lia.
      * intros pd' Hin' Hpd'. old_or_new Hin'; [|discriminate Hpd'].
        apply (Hbusy pd'); [|exact Hpd']. eapply In_remove_nth. exact Hin'.
      * rewrite count_app, Hsame. cbn. rewrite Nat.add_0_r. exact Hfree.
  - destruct Hsh as [Heq | [(Hl & Hset) | (Hr & He & Hj)]].
    + left. symmetry. exact Heq.
    + right. left. split; assumption.
    + right. right. apply andb_true_iff in Hj as [Hrec Hrejd].
      repeat split; assumption.
Qed.

(** Every step keeps the invariant and changes the status only in the
    ways [transition] lists. *)
Lemma step_invariant (loc : LocationState) (w : World) (a : Action) (pg : Page) :
  Invariant loc pg ->
  Invariant loc (step loc w a pg) /\ transition loc pg a (step loc w a pg).
Proof.
  intros Hinv. destruct a as [| |text|i o].
  - apply mount_step. exact Hinv.
  - destruct (submit_step w Hinv) as (Hinv' & Hst).
    split; [exact Hinv'|]. left. symmetry. exact Hst.
  - destruct (edit_step w text Hinv) as (Hinv' & Hst).
    split; [exact Hinv'|]. left. symmetry. exact Hst.
  - destruct (nth_error (pending pg) i) as [pd|] eqn:Hnth.
    + destruct (origin pd) eqn:Horigin.
      * destruct (@settle_fetch loc w pg i o pd Hinv Hnth Horigin) as (Hinv' & Hx & Hy).
        split; [exact Hinv'|]. unfold transition. cbv zeta.
        destruct (projectStatus (store pg)) eqn:Ex; [congruence | | |].
        -- right. right. exists i, o, pd. repeat split; auto.
        -- right. right. exists i, o, pd. repeat split; auto.
           right. right. unfold from_fetch. rewrite Horigin. auto.
        -- right. right. exists i, o, pd. repeat split; auto.
           right. right. unfold from_fetch. rewrite Horigin. auto.
      * destruct (@settle_generate loc w pg i o pd Hinv Hnth Horigin) as (Hinv' & Htr).
        split; [exact Hinv'|]. unfold transition. cbv zeta.
        destruct Htr as [Heq | [(Hl & Hset) | (Hr & He & Hrec & Hrej)]].
        -- left. exact Heq.
        -- right. right. exists i, o, pd. repeat split; auto.
        -- right. right. exists i, o, pd. repeat split; auto.
           right. left. unfold from_generate. rewrite Horigin. auto.
      * destruct (@settle_submit loc w pg i o pd Hinv Hnth Horigin) as (Hinv' & Hst).
        split; [exact Hinv'|]. left. symmetry. exact Hst.
    + unfold transition, step. rewrite Hnth. split; [exact Hinv | left; reflexivity].
Qed.

Lemma play_invariant (loc : LocationState) (w : World) (actions : list Action) (pg : Page) :
  Invariant loc pg -> Invariant loc (play loc w actions pg).
Proof.
  revert pg. induction actions as [|a actions IH]; intros pg Hinv; cbn; [exact Hinv|].
  apply IH. apply step_invariant. exact Hinv.
Qed.

(** *** A call alone on the page *)

(** The two ways of running a call agree: a call launched on a page with
    nothing pending, its requests answered as the world answers them,
    ends in the store, with the clock readings and with the trace of its
    run to completion. *)
Theorem lone_call (loc : LocationState) (w : World) (from : Origin) (p : Prog unit) :
  forall (s : Store) (n : nat) (lg : list Event),
    let r := exec w p s n in
    play loc w (answers (trace r)) (launch w from p (mkPage s n [] lg)) =
    mkPage (final r) (ticks r) [] (lg ++ trace r).
Proof.
  induction p as [a|e|k IH|k IH|c k IH|f k IH|r k IH]; intros s n lg; cbn.
  - reflexivity.
  - reflexivity.
  - exact (IH s s n lg).
  - exact (IH (clock w n) s (S n) lg).
  - specialize (IH (apply_cmd c s) n (lg ++ [EvDo c])).
    cbv zeta in IH. rewrite <- app_assoc in IH. cbn in IH.
    rewrite <- IH. f_equal. unfold launch. cbn. rewrite <- app_assoc. reflexivity.
  - specialize (IH (builtin w f) s n (lg ++ [EvCall f (builtin w f)])).
    cbv zeta in IH. rewrite <- app_assoc in IH. cbn in IH.
    rewrite <- IH. f_equal. unfold launch. cbn. rewrite <- app_assoc. reflexivity.
  - specialize (IH (respond w r) s n (lg ++ [EvAwait r (respond w r)])).
    cbv zeta in IH. rewrite <- app_assoc in IH. cbn in IH.
    rewrite <- IH. f_equal. unfold launch. cbn. rewrite app_nil_r. reflexivity.
Qed.

(** *** The guard of [generateCode] *)

Lemma count_positive {A : Type} (f : A -> bool) (l : list A) :
  (0 < List.length (filter f l))%nat -> exists x, In x l /\ f x = true.
Proof.
  destruct (filter f l) as [|x rest] eqn:Hf; cbn; [lia|]. intros _.
  exists x. apply filter_In. rewrite Hf. left. reflexivity.
Qed.

(** C4, as the code has it.  The guards belong to the mounted page, not
    to the project.  On every page the mount effect, the user and the
    services can bring about, at most one run of [generateCode] is in
    flight, and the page's guard is held exactly while one is; at most
    one call of [handleSubmit] is in flight as well, under a guard of its
    own.  A call of [generateCode] made while the guard is held returns
    at once, with no write, no request and no error.  A call made while
    the guard is free is admitted: it takes the guard, and has released
    it when it ends, however it ends.  A page that has just been opened
    for a new project holds no guard: its mount effect starts a run, with
    the request for the project's record. *)
Theorem one_generation_at_a_time
    (loc : LocationState) (w : World) (actions : list Action)
    (userPrompt : string) (projId : option Z) (s : Store) :
  let pg := play loc w actions initial_page in
  (active_generations pg <= 1)%nat /\
  (active_modifications pg <= 1)%nat /\
  (isGenerating (store pg) = true <-> active_generations pg = 1%nat) /\
  (isGenerating s = true ->
   run w (generateCode userPrompt projId) s = mkRun (inl tt) s 0 []) /\
  (isGenerating s = false ->
   let r := run w (generateCode userPrompt projId) s in
   (exists rest, trace r = EvDo (AssignIsGenerating true) :: rest) /\
   isGenerating (final r) = false) /\
  (forall p id,
      branch loc = BranchGenerate p id ->
      let opened := step loc w Mount initial_page in
      active_generations opened = 1%nat /\
      map awaited (pending opened) = [Get (ApiProjects id)]).
Proof.
  intros pg.
  pose proof (play_invariant w actions (invariant_initial loc)) as Hinv.
  fold pg in Hinv.
  split; [apply (inv_one Hinv)|].
  split; [apply (inv_one_modification Hinv)|].
  split; [|split; [|split]].
  - split.
    + intros Hg. pose proof (inv_one Hinv) as Hone.
      destruct (active_generations pg) as [|[|n]] eqn:Ha; [|reflexivity|lia].
      rewrite (inv_released Hinv Ha) in Hg. discriminate Hg.
    + intros Ha. unfold active_generations in Ha.
      destruct (@count_positive _ from_generate (pending pg)) as (pd & Hin & Hpd); [lia|].
      apply (inv_generating Hinv pd Hin Hpd).
  - intros Hg. unfold run, generateCode. cbn [exec]. rewrite Hg. reflexivity.
  - intros Hg. cbv zeta. start_generate s Hg.
    crunch; (split; [eexists; reflexivity | reflexivity]).
  - intros p id Hb. cbv zeta.
    destruct (branch_generate _ Hb) as (Horigin & _).
    destruct (@mount_generate_admitted w loc p id initial_store 0 Hb eq_refl eq_refl)
      as (_ & _ & _ & _ & k & Hend & _).
    unfold step, launch, active_generations. cbn [store readings pending initial_page].
    rewrite Hend, Horigin. split; reflexivity.
Qed.

(** C4 as stated fails: while the run of [generateCode] waits for the
    project store to record the deployment, the page is ready and the
    user can send a change; then a run of each pipeline is in flight. *)
Lemma two_runs_in_flight : ~ one_run_per_project.
Proof.
  intros H.
  specialize (H new_project_42 world_fresh
                (generation_up_to_build ++ [Edit "add a dark mode toggle"; Submit])).
  vm_compute in H. lia.
Qed.

(** The same page: the generation run waits for the project store, the
    modification run for the analysis. *)
Example generation_and_modification_overlap :
  let pg := play new_project_42 world_fresh
                 (generation_up_to_build ++ [Edit "add a dark mode toggle"; Submit])
                 initial_page in
  projectStatus (store pg) = SReady /\
  isGenerating (store pg) = true /\
  isLoading (store pg) = true /\
  map origin (pending pg) = [FromGenerate; FromSubmit] /\
  map (fun pd => stage_of_request (awaited pd)) (pending pg) =
    [Some StRecord; Some StAnalyze].
Proof. vm_compute. repeat split; reflexivity. Qed.

(** Two pages opened for the same project: each has a run of
    [generateCode] in flight. *)
Example two_pages_generate_the_same_project :
  let first := step new_project_42 world_fresh Mount initial_page in
  let second := step new_project_42 world_fresh Mount initial_page in
  branch new_project_42 = BranchGenerate "build a todo app" 42 /\
  (active_generations first + active_generations second = 2)%nat /\
  map awaited (pending first) = [Get (ApiProjects 42)] /\
  map awaited (pending second) = [Get (ApiProjects 42)].
Proof. vm_compute. repeat split; reflexivity. Qed.

(** The mount effect run twice in a row on the page of a new project:
    the second call of [generateCode] is absorbed, and one run is in
    flight. *)
Example second_mount_is_absorbed :
  let once := play new_project_42 world_fresh [Mount] initial_page in
  let twice := step new_project_42 world_fresh Mount once in
  active_generations once = 1%nat /\
  active_generations twice = 1%nat /\
  requests (log twice) = [] /\
  map awaited (pending twice) = [Get (ApiProjects 42)] /\
  error (store twice) = EmptyString.
Proof. vm_compute. repeat split; reflexivity. Qed.

(** *** The lifecycle status *)

Lemma launch_pending (w : World) (from : Origin) (p : Prog unit) (pg : Page) :
  pending (launch w from p pg) = pending pg \/
  exists r k, pending (launch w from p pg) = pending pg ++ [mkPending from r k].
Proof.
  unfold launch. cbn.
  destruct (seg_end (segment w p (store pg) (readings pg))) as [r|r k].
  - left. reflexivity.
  - right. exists r, k. reflexivity.
Qed.

(** A call that does not come from [fetchProjectDeploymentUrl] leaves
    the fetches in flight as they are. *)
Lemma launch_other (w : World) (from : Origin) (p : Prog unit) (pg : Page) :
  from <> FromFetch ->
  (forall pd, In pd (pending (launch w from p pg)) -> from_fetch pd = true ->
              In pd (pending pg)) /\
  active_fetches (launch w from p pg) = active_fetches pg.
Proof.
  intros Hfrom. unfold active_fetches.
  destruct (launch_pending w from p pg) as [-> | (r & k & ->)]; [auto|].
  split.
  - intros pd Hin Hf. apply in_app_or in Hin as [Hin|[<-|[]]]; [exact Hin|].
    unfold from_fetch in Hf. cbn in Hf. destruct from; congruence.
  - rewrite count_app. unfold from_fetch. cbn. destruct from; try lia. congruence.
Qed.

Lemma fetching_kept (k : nat) (pg pg' : Page) :
  Fetching k pg ->
  projectStatus (store pg') = projectStatus (store pg) ->
  (forall pd, In pd (pending pg') -> from_fetch pd = true -> In pd (pending pg)) ->
  (active_fetches pg' <= active_fetches pg)%nat ->
  Fetching k pg'.
Proof.
  intros [Hcount Hshown] Hst Hin Hle. split.
  - lia.
  - intros pd Hpd Hf. rewrite Hst. apply (Hshown pd); auto.
Qed.

Lemma fetching_none (k : nat) (pg : Page) :
  (forall pd, In pd (pending pg) -> from_fetch pd = false) -> Fetching k pg.
Proof.
  intros Hnone. split.
  - unfold active_fetches. rewrite (count_zero _ _ Hnone). lia.
  - intros pd Hin Hf. rewrite (Hnone pd Hin) in Hf. discriminate Hf.
Qed.

(** What is left of a call of [fetchProjectDeploymentUrl] after its
    request runs to its end without another request. *)
Lemma fetch_settles (w : World) (p : Prog unit) (s : Store) (n : nat) :
  follows fetch_cmd fetch_await fetch_finish (mkFetchPhase false false) p ->
  exists r, seg_end (segment w p s n) = Finished r.
Proof.
  intros Hf.
  destruct (@follows_segment FetchPhase fetch_cmd fetch_await fetch_finish
              (fun _ _ => True) (fun _ _ _ _ _ _ => I) w p
              (mkFetchPhase false false) s n Hf I) as (m' & _ & _ & Hend).
  destruct (seg_end (segment w p s n)) as [r|r k]; [eauto|].
  destruct Hend as (next & Hnext & _). discriminate Hnext.
Qed.

Lemma mounts_cons (a : Action) (rest : list Action) :
  mounts (a :: rest) = (mounts [a] + mounts rest)%nat.
Proof. destruct a; reflexivity. Qed.

Lemma mounts_app (l l' : list Action) : mounts (l ++ l') = (mounts l + mounts l')%nat.
Proof.
  induction l as [|a l IH]; [reflexivity|].
  cbn [app]. rewrite (mounts_cons a (l ++ l')), (mounts_cons a l), IH. lia.
Qed.

(** While the mount effect has run at most once, at most one fetch is in
    flight and the page shows "loading" until it settles. *)
Lemma step_fetching (loc : LocationState) (w : World) (a : Action) (pg : Page) (k : nat) :
  Invariant loc pg ->
  Fetching k pg ->
  (k + mounts [a] <= 1)%nat ->
  Fetching (k + mounts [a]) (step loc w a pg).
Proof.
  intros Hinv Hf Hk.
  destruct a as [| |text|i o]; cbn [mounts] in *; rewrite ?Nat.add_0_r.
  - assert (Hzero : active_fetches pg = 0%nat) by (destruct Hf; lia).
    assert (Hnone : forall pd, In pd (pending pg) -> from_fetch pd = false).
    { intros pd Hin. exact (count_zero_inv _ _ pd Hzero Hin). }
    destruct (hasInitialized (store pg)) eqn:Hi.
    { apply fetching_none. unfold step, launch.
      rewrite (mount_initialized w loc _ _ Hi). cbn. exact Hnone. }
    destruct (branch loc) as [id|p id|] eqn:Hb.
    + destruct (branch_fetch _ Hb) as (Horigin & _).
      destruct (@mount_fetch_starts w loc id (store pg) (readings pg) Hb Hi)
        as (_ & Hst & _ & _ & k0 & Hend & _).
      unfold step, launch. rewrite Hend, Horigin. split; cbn.
      * unfold active_fetches. cbn. rewrite count_app. cbn.
        unfold active_fetches in Hzero. lia.
      * intros pd _ _. exact Hst.
    + destruct (branch_generate _ Hb) as (Horigin & _).
      apply fetching_none. intros pd Hin.
      destruct (from_fetch pd) eqn:Hfp; [|reflexivity].
      cbn [step] in Hin. rewrite Horigin in Hin.
      destruct (@launch_other w FromGenerate (mount_effect loc) pg) as [Hold _];
        [discriminate|].
      rewrite (Hnone pd (Hold pd Hin Hfp)) in Hfp. discriminate Hfp.
    + destruct (branch_idle _ Hb) as (Horigin & _).
      apply fetching_none. intros pd Hin.
      destruct (from_fetch pd) eqn:Hfp; [|reflexivity].
      cbn [step] in Hin. rewrite Horigin in Hin.
      destruct (@launch_other w FromGenerate (mount_effect loc) pg) as [Hold _];
        [discriminate|].
      rewrite (Hnone pd (Hold pd Hin Hfp)) in Hfp. discriminate Hfp.
  - destruct (@submit_step loc w pg Hinv) as [_ Hst].
    destruct (@launch_other w FromSubmit handleSubmit pg) as [Hold Hsame]; [discriminate|].
    apply (@fetching_kept k pg _ Hf Hst Hold). cbn [step]. lia.
  - destruct (@edit_step loc w pg text Hinv) as [_ Hst].
    destruct (@launch_other w FromSubmit (handlePromptChange text) pg) as [Hold Hsame];
      [discriminate|].
    apply (@fetching_kept k pg _ Hf Hst Hold). cbn [step]. lia.
  - destruct (nth_error (pending pg) i) as [pd|] eqn:Hnth.
    2:{ cbn [step]. rewrite Hnth. exact Hf. }
    pose proof (nth_error_In _ _ Hnth) as Hin.
    destruct (origin pd) eqn:Horigin.
    + (* a fetch settles: none is left *)
      assert (Hfp : from_fetch pd = true) by (unfold from_fetch; rewrite Horigin; reflexivity).
      pose proof (proj1 (Forall_forall _ _) (inv_sound Hinv) pd Hin) as Hsound.
      unfold sound in Hsound. rewrite Horigin in Hsound.
      apply fetching_none. intros pd' Hin'.
      cbn [step] in Hin'. rewrite Hnth in Hin'. unfold launch in Hin'. cbn in Hin'.
      destruct (@fetch_settles w (resume pd o) (store pg) (readings pg) (Hsound o))
        as [r Hend].
      rewrite Hend in Hin'.
      pose proof (count_remove_nth from_fetch i (pending pg) Hnth) as Hc.
      rewrite Hfp in Hc.
      assert (Hzero : List.length (filter from_fetch (remove_nth i (pending pg))) = 0%nat).
      { destruct Hf as [Hcount _]. unfold active_fetches in Hcount. lia. }
      exact (count_zero_inv _ _ pd' Hzero Hin').
    + (* a generation settles: the page has no fetch *)
      assert (Hgp : from_generate pd = true)
        by (unfold from_generate; rewrite Horigin; reflexivity).
      destruct (inv_generating Hinv pd Hin Hgp) as (_ & _ & p & id & Hb).
      destruct (@settle_generate loc w pg i o pd Hinv Hnth Horigin) as [Hinv' _].
      apply fetching_none.
      apply (no_fetch_outside_branch Hinv').
      intros id' Hb'. rewrite Hb in Hb'. discriminate Hb'.
    + (* a modification settles *)
      destruct (@settle_submit loc w pg i o pd Hinv Hnth Horigin) as [_ Hst].
      assert (Hfp : from_fetch pd = false)
        by (unfold from_fetch; rewrite Horigin; reflexivity).
      cbn [step] in *. rewrite Hnth in *. rewrite Horigin in *.
      match goal with
      | |- Fetching _ (launch w FromSubmit ?p ?pg1) =>
          destruct (@launch_other w FromSubmit p pg1) as [Hold Hsame]; [discriminate|]
      end.
      apply (@fetching_kept k pg _ Hf Hst).
      * intros pd' Hin' Hf'. apply (In_remove_nth i). exact (Hold pd' Hin' Hf').
      * rewrite Hsame. unfold active_fetches. cbn.
        rewrite (filter_remove_nth_other from_fetch i (pending pg) Hnth Hfp). lia.
Qed.

Lemma play_fetching (loc : LocationState) (w : World) (actions : list Action) :
  forall (pg : Page) (k : nat),
    Invariant loc pg ->
    Fetching k pg ->
    (k + mounts actions <= 1)%nat ->
    Fetching (k + mounts actions) (play loc w actions pg).
Proof.
  induction actions as [|a actions IH]; intros pg k Hinv Hf Hk.
  - cbn. rewrite Nat.add_0_r. exact Hf.
  - rewrite (mounts_cons a actions) in *. rewrite Nat.add_assoc in *.
    cbn [play]. apply IH.
    + apply (@step_invariant loc w a pg Hinv).
    + apply (@step_fetching loc w a pg k Hinv Hf). lia.
    + exact Hk.
Qed.

(** C9, as the code has it.  On a page where the mount effect has run at
    most once, or that was not opened for an existing project, a step
    changes [projectStatus] only from idle to loading, when the mount
    effect starts a run; from loading to ready or error, when a request
    settles; and from ready to error, when the request that records the
    deployment is rejected.  No step returns to idle or to loading. *)
Theorem lifecycle_transitions
    (loc : LocationState) (w : World) (actions : list Action) (a : Action) :
  (mounts (actions ++ [a]) <= 1)%nat \/ (forall id, branch loc <> BranchFetch id) ->
  let pg := play loc w actions initial_page in
  transition_once pg a (step loc w a pg).
Proof.
  intros Honce pg.
  pose proof (play_invariant w actions (invariant_initial loc)) as Hinv.
  fold pg in Hinv.
  destruct (@step_invariant loc w a pg Hinv) as [_ Htr].
  unfold transition in Htr. unfold transition_once.
  destruct Htr as [H | [H | (i & o & pd & Ha & Hnth & H)]]; [auto | auto |].
  destruct H as [H | [H | (Hx & _ & Hfp)]].
  - right. right. exists i, o, pd. auto.
  - right. right. exists i, o, pd. auto.
  - exfalso.
    pose proof (nth_error_In _ _ Hnth) as Hin.
    destruct Honce as [Hm | Hb].
    + rewrite mounts_app in Hm.
      assert (Hf : Fetching (0 + mounts actions) pg).
      { apply play_fetching; [apply invariant_initial | | lia].
        apply fetching_none. intros ? []. }
      rewrite (fetching_shown Hf pd Hin Hfp) in Hx. discriminate Hx.
    + rewrite (no_fetch_outside_branch Hinv Hb pd Hin) in Hfp. discriminate Hfp.
Qed.

Lemma lifecycle_transitions_witness :
  let actions := generation_up_to_build in
  let a := Settle 0 (Throws (Raised (JStr "record failed"))) in
  let pg := play new_project_42 world_fresh actions initial_page in
  (mounts (actions ++ [a]) <= 1)%nat /\
  projectStatus (store pg) = SReady /\
  projectStatus (store (step new_project_42 world_fresh a pg)) = SError /\
  transition_once pg a (step new_project_42 world_fresh a pg).
Proof.
  split; [vm_compute; lia|].
  split; [reflexivity|].
  split; [reflexivity|].
  apply (@lifecycle_transitions new_project_42 world_fresh generation_up_to_build
           (Settle 0 (Throws (Raised (JStr "record failed"))))).
  left. vm_compute. lia.
Defined.

(** C9 as stated fails: when the project store rejects the update after
    a successful build, the status goes from ready to error. *)
Lemma lifecycle_is_not_as_specified : ~ lifecycle_as_specified.
Proof.
  intros H.
  specialize (H new_project_42 world_fresh generation_up_to_build
                (Settle 0 (Throws (Raised (JStr "record failed"))))).
  vm_compute in H.
  destruct H as [H | [(H & _) | [(H & _) | (_ & H & _)]]]; discriminate H.
Qed.

(** Two overlapping fetches, the first answered, the second rejected:
    the status goes from ready to error. *)
Example overlapping_fetches :
  let w := world_deployed in
  let pg := play existing_project_42 w
                 [Mount; Mount; Settle 0 (Returns project42_ready)] initial_page in
  let pg' := step existing_project_42 w (Settle 0 (Throws (Raised JNull))) pg in
  projectStatus (store pg) = SReady /\ projectStatus (store pg') = SError.
Proof. vm_compute. split; reflexivity. Qed.

(** *** The guard of [handleSubmit] *)

(** C10.  With a prompt that is empty or white space only, or while an
    earlier call is in flight, [handleSubmit] returns at once: it
    performs no write, issues no request, reads no clock, and leaves the
    store as it was.  An earlier call is in flight exactly while
    [isLoading] is set, and at most one is. *)
Theorem handleSubmit_ignores_blank_or_busy
    (loc : LocationState) (w : World) (actions : list Action) (s : Store) :
  let pg := play loc w actions initial_page in
  (active_modifications pg <= 1)%nat /\
  (isLoading (store pg) = true <-> active_modifications pg = 1%nat) /\
  (is_empty (trim (prompt s)) = true \/ isLoading s = true ->
   run w handleSubmit s = mkRun (inl tt) s 0 []) /\
  (is_empty (trim (prompt (store pg))) = true \/ isLoading (store pg) = true ->
   step loc w Submit pg = pg).
Proof.
  intros pg.
  pose proof (play_invariant w actions (invariant_initial loc)) as Hinv.
  fold pg in Hinv.
  assert (Hguard : forall s', is_empty (trim (prompt s')) = true \/ isLoading s' = true ->
                              is_empty (trim (prompt s')) || isLoading s' = true).
  { intros s' [-> | ->]; [reflexivity | apply orb_true_r]. }
  split; [apply (inv_one_modification Hinv)|].
  split; [|split].
  - split.
    + intros Hl. pose proof (inv_one_modification Hinv) as Hone.
      destruct (active_modifications pg) as [|[|n]] eqn:Ha; [|reflexivity|lia].
      rewrite (inv_free Hinv Ha) in Hl. discriminate Hl.
    + intros Ha. unfold active_modifications in Ha.
      destruct (@count_positive _ from_submit (pending pg)) as (pd & Hin & Hpd); [lia|].
      apply (inv_busy Hinv pd Hin Hpd).
  - intros H. unfold run, handleSubmit. cbn [exec]. rewrite (Hguard _ H). reflexivity.
  - intros H. unfold step, launch.
    rewrite (handleSubmit_refused w _ (readings pg) (Hguard _ H)). cbn.
    rewrite app_nil_r. destruct pg; reflexivity.
Qed.

(** The user types a request and sends it twice: the second call is
    ignored while the first waits for the analysis. *)
Example second_submit_is_ignored :
  let once := play new_project_42 world_fresh [Edit "add a dark mode toggle"; Submit]
                   initial_page in
  let twice := step new_project_42 world_fresh Submit once in
  active_modifications once = 1%nat /\
  isLoading (store once) = true /\
  map msg_content (messages (store twice)) = ["add a dark mode toggle"] /\
  List.length (requests (log twice)) = 0%nat /\
  List.length (pending twice) = 1%nat.
Proof. vm_compute. repeat split; reflexivity. Qed.

(** A prompt of white space only is ignored. *)
Example blank_prompt_is_ignored :
  let s := apply_cmd (SetPrompt "   ") initial_store in
  run world_deployed handleSubmit s = mkRun (inl tt) s 0 [].
Proof. reflexivity. Qed.

(** ** More on a call run to completion *)

(** *** [fetchProjectDeploymentUrl] *)

(** X1.  A call of [fetchProjectDeploymentUrl] that is not refused makes
    one request, for the project, and never throws.  It ends with the
    loading flag off and the project id remembered; with the recorded URL
    as preview and status "ready" when the record carries one; with
    "Project deployment URL not found" when it does not; with "Failed to
    load project", and the console told, when the request was rejected or
    answered without a record.  A failed call leaves the preview alone. *)
Theorem fetch_ends_ready_or_error
    (w : World) (rendered : status) (projId : Z) (s : Store) :
  same_project (currentProjectId s) projId && negb (is_idle rendered) = false ->
  let r := run w (fetchProjectDeploymentUrl rendered projId) s in
  result r = inl tt /\
  requests (trace r) = [Get (ApiProjects projId)] /\
  loadingCode (final r) = false /\
  currentProjectId (final r) = Some projId /\
  fetch_outcome s (respond w (Get (ApiProjects projId))) (final r).
Proof.
  intros Hguard r. subst r.
  unfold run, fetchProjectDeploymentUrl, fetch_outcome. cbn [exec]. rewrite Hguard.
  crunch; repeat split; reflexivity.
Qed.

Lemma fetch_ends_ready_or_error_witness :
  same_project (currentProjectId initial_store) 42 && negb (is_idle SIdle) = false /\
  let r := run world_deployed (fetchProjectDeploymentUrl SIdle 42) initial_store in
  result r = inl tt /\
  requests (trace r) = [Get (ApiProjects 42)] /\
  loadingCode (final r) = false /\
  currentProjectId (final r) = Some 42%Z /\
  fetch_outcome initial_store (respond world_deployed (Get (ApiProjects 42))) (final r).
Proof.
  split; [reflexivity|].
  apply (@fetch_ends_ready_or_error world_deployed SIdle 42%Z initial_store).
  reflexivity.
Defined.

(** X2.  The guard of [fetchProjectDeploymentUrl] refuses a call, which
    then does nothing at all, exactly when the project is the one already
    remembered and the status the callback was rendered with is not
    "idle". *)
Theorem fetch_refused_iff
    (w : World) (rendered : status) (projId : Z) (s : Store) :
  run w (fetchProjectDeploymentUrl rendered projId) s = mkRun (inl tt) s 0 [] <->
  currentProjectId s = Some projId /\ rendered <> SIdle.
Proof.
  unfold run, fetchProjectDeploymentUrl. cbn [exec].
  destruct (same_project (currentProjectId s) projId && negb (is_idle rendered)) eqn:Hguard.
  - split; [intros _|reflexivity].
    apply andb_true_iff in Hguard as [Hsame Hidle].
    split.
    + unfold same_project in Hsame.
      destruct (currentProjectId s) as [c|]; [|discriminate].
      apply Z.eqb_eq in Hsame. congruence.
    + intros ->. discriminate Hidle.
  - split.
    + cbn. intros H. discriminate H.
    + intros [Hcur Hr]. exfalso.
      apply andb_false_iff in Hguard as [Hsame|Hidle].
      * unfold same_project in Hsame. rewrite Hcur in Hsame.
        rewrite Z.eqb_refl in Hsame. discriminate.
      * destruct rendered; try discriminate Hidle. congruence.
Qed.

(** X3.  [fetchProjectDeploymentUrl] writes only what belongs to the
    deployment: the messages, the prompt, the busy flag of
    [handleSubmit], the shared structure, the guard of [generateCode] and
    the initialisation flag are, after any call, as they were before
    it. *)
Theorem fetch_leaves_the_conversation
    (w : World) (rendered : status) (projId : Z) (s : Store) :
  let r := run w (fetchProjectDeploymentUrl rendered projId) s in
  messages (final r) = messages s /\
  prompt (final r) = prompt s /\
  isLoading (final r) = isLoading s /\
  value (final r) = value s /\
  isGenerating (final r) = isGenerating s /\
  hasInitialized (final r) = hasInitialized s.
Proof.
  intros r. subst r.
  unfold run, fetchProjectDeploymentUrl. cbn [exec].
  destruct (same_project (currentProjectId s) projId && negb (is_idle rendered));
    [repeat split|].
  crunch; repeat split; reflexivity.
Qed.

(** *** [generateCode] *)

(** X4.  A call of [generateCode] admitted by its guard never throws and
    always releases what it took: the loading flag and the guard are off
    when it ends.  It ends in "ready" with no error message and nothing
    on the console, or in "error" with the message "Failed to generate
    code" and one more line on the console. *)
Theorem generateCode_ends_ready_or_error
    (w : World) (userPrompt : string) (projId : option Z) (s : Store) :
  isGenerating s = false ->
  let r := run w (generateCode userPrompt projId) s in
  result r = inl tt /\
  loadingCode (final r) = false /\
  isGenerating (final r) = false /\
  ((displayed (final r) = (SReady, EmptyString) /\ console (final r) = console s) \/
   (displayed (final r) = (SError, "Failed to generate code") /\
    exists e, console (final r) = console s ++ [("Error generating code:", e)])).
Proof.
  intros Hg r. subst r.
  start_generate s Hg.
  crunch.
  all: repeat split.
  all: first [ left; split; reflexivity
             | right; split; [reflexivity | eexists; reflexivity] ].
Qed.

Lemma generateCode_ends_ready_or_error_witness :
  isGenerating initial_store = false /\
  let r := run world_generate_fails (generateCode "build a todo app" None) initial_store in
  result r = inl tt /\
  loadingCode (final r) = false /\
  isGenerating (final r) = false /\
  ((displayed (final r) = (SReady, EmptyString) /\ console (final r) = console initial_store) \/
   (displayed (final r) = (SError, "Failed to generate code") /\
    exists e, console (final r) = console initial_store ++ [("Error generating code:", e)])).
Proof.
  split; [reflexivity|].
  apply (@generateCode_ends_ready_or_error
           world_generate_fails "build a todo app" None initial_store).
  reflexivity.
Defined.

(** X5.  [generateCode] writes only what belongs to the deployment: the
    messages, the prompt, the busy flag of [handleSubmit], the remembered
    project id and the initialisation flag are, after any call, as they
    were before it. *)
Theorem generateCode_leaves_the_conversation
    (w : World) (userPrompt : string) (projId : option Z) (s : Store) :
  let r := run w (generateCode userPrompt projId) s in
  messages (final r) = messages s /\
  prompt (final r) = prompt s /\
  isLoading (final r) = isLoading s /\
  currentProjectId (final r) = currentProjectId s /\
  hasInitialized (final r) = hasInitialized s.
Proof.
  intros r. subst r.
  unfold run, generateCode, generate_pipeline. cbn [exec].
  destruct (isGenerating s); [repeat split|].
  crunch; repeat split; reflexivity.
Qed.

(** X6.  Called without a project id ([undefined], or 0, which the code
    takes for none), [generateCode] never contacts the project store:
    neither to look for a recorded deployment nor to record the new
    one. *)
Theorem generateCode_without_project
    (w : World) (userPrompt : string) (projId : option Z) (s : Store) :
  given_number projId = None ->
  let r := run w (generateCode userPrompt projId) s in
  Forall (fun q => on_project_store q = false) (requests (trace r)).
Proof.
  intros Hn r. subst r.
  unfold run, generateCode, generate_pipeline. cbn [exec].
  destruct (isGenerating s); [constructor|].
  crunch; repeat constructor.
Qed.

Lemma generateCode_without_project_witness :
  given_number (Some 0%Z) = None /\
  let r := run world_fresh (generateCode "build a todo app" (Some 0%Z)) initial_store in
  Forall (fun q => on_project_store q = false) (requests (trace r)).
Proof.
  split; [reflexivity|].
  apply (@generateCode_without_project world_fresh "build a todo app" (Some 0%Z) initial_store).
  reflexivity.
Defined.

(** X7.  Whenever [generateCode] updates the project store, the update
    is for the project it was called with, and records, with status
    "ready", the URL the page shows when the call ends: a URL that is not
    empty.  If the update is accepted the page is "ready". *)
Theorem record_mirrors_the_preview
    (w : World) (userPrompt : string) (projId : option Z) (s : Store)
    (target : Endpoint) (body : jsval) (o : outcome) :
  let r := run w (generateCode userPrompt projId) s in
  In (EvAwait (Put target body) o) (trace r) ->
  (exists id, given_number projId = Some id /\ target = ApiProjects id) /\
  body = JObj [("deploymentUrl", previewUrl (final r)); ("status", JStr "ready")] /\
  truthy (previewUrl (final r)) = true /\
  (is_rejection o = false -> displayed (final r) = (SReady, EmptyString)).
Proof.
  intros r. subst r.
  unfold run, generateCode, generate_pipeline. cbn [exec].
  destruct (isGenerating s); [intros []|].
  crunch; intros H; pick_event H.
  all: injection H as <- <- <-.
  all: repeat split; eauto; try (intros Hrej; discriminate Hrej).
Qed.

Lemma record_mirrors_the_preview_witness :
  let r := run world_fresh (generateCode "build a todo app" (Some 42%Z)) initial_store in
  let body := JObj [("deploymentUrl", preview42); ("status", JStr "ready")] in
  In (EvAwait (Put (ApiProjects 42) body) (Returns (JObj []))) (trace r) /\
  (exists id, given_number (Some 42%Z) = Some id /\ ApiProjects 42 = ApiProjects id) /\
  body = JObj [("deploymentUrl", previewUrl (final r)); ("status", JStr "ready")] /\
  truthy (previewUrl (final r)) = true /\
  (is_rejection (Returns (JObj [])) = false -> displayed (final r) = (SReady, EmptyString)).
Proof.
  assert (H : In (EvAwait (Put (ApiProjects 42)
                               (JObj [("deploymentUrl", preview42); ("status", JStr "ready")]))
                          (Returns (JObj [])))
                 (trace (run world_fresh (generateCode "build a todo app" (Some 42%Z))
                             initial_store))).
  { vm_compute. auto 30. }
  split; [exact H|].
  exact (@record_mirrors_the_preview
           world_fresh "build a todo app" (Some 42%Z) initial_store _ _ _ H).
Defined.

(** X8.  When the build service answers without a preview URL (none, or
    an empty one), the call still ends in "ready" with no error shown:
    the preview is set to what was answered, and the project store is not
    updated. *)
Theorem build_without_url_ends_ready
    (w : World) (userPrompt : string) (projId : option Z) (s : Store)
    (body data url : jsval) :
  let r := run w (generateCode userPrompt projId) s in
  In (EvAwait (Post BuildRun body) (Returns data)) (trace r) ->
  prop data "previewUrl" = Returns url ->
  truthy url = false ->
  displayed (final r) = (SReady, EmptyString) /\
  previewUrl (final r) = url /\
  invokes (trace r) StRecord = false.
Proof.
  intros r. subst r.
  unfold run, generateCode, generate_pipeline. cbn [exec].
  destruct (isGenerating s); [intros []|].
  crunch; intros H; pick_event H.
  all: injection H as <- <-; intros Hurl Hfalsy.
  all: try congruence.
  all: repeat split; congruence.
Qed.

Lemma build_without_url_ends_ready_witness :
  let r := run world_build_without_url (generateCode "build a todo app" (Some 42%Z))
               initial_store in
  let data := JObj [("status", JStr "queued")] in
  (In (EvAwait (Post BuildRun (JObj [("zipUrl", JStr "https://zips.example/42.zip")]))
               (Returns data)) (trace r) /\
   prop data "previewUrl" = Returns JUndefined /\
   truthy JUndefined = false) /\
  displayed (final r) = (SReady, EmptyString) /\
  previewUrl (final r) = JUndefined /\
  invokes (trace r) StRecord = false.
Proof.
  assert (H : In (EvAwait (Post BuildRun (JObj [("zipUrl", JStr "https://zips.example/42.zip")]))
                          (Returns (JObj [("status", JStr "queued")])))
                 (trace (run world_build_without_url
                             (generateCode "build a todo app" (Some 42%Z)) initial_store))).
  { vm_compute. auto 30. }
  split; [split; [exact H | split; reflexivity]|].
  exact (@build_without_url_ends_ready
           world_build_without_url "build a todo app" (Some 42%Z) initial_store
           _ _ JUndefined H eq_refl eq_refl).
Defined.

(** X9.  The shared project structure after a call of [generateCode] is
    the structure the parser returned, whatever happened to the stages
    after the parse; a call that did not get that far leaves the
    structure as it was. *)
Theorem structure_is_kept_at_parse
    (w : World) (userPrompt : string) (projId : option Z) (s : Store) :
  let r := run w (generateCode userPrompt projId) s in
  value (final r) =
  match parsed_structure (trace r) with
  | Some structure => structure
  | None => value s
  end.
Proof.
  intros r. subst r.
  unfold run, generateCode, generate_pipeline. cbn [exec].
  destruct (isGenerating s); [reflexivity|].
  crunch.
  all: repeat match goal with
              | H : prop _ "structure" = _ |- _ => rewrite H
              end.
  all: reflexivity.
Qed.

(** X10.  Each stage of [generateCode] is given what the stage before it
    returned: the generation service gets the prompt as it was passed;
    the parser gets the text of the first content block of the generation
    answer; the write service gets the code files of the parse; the build
    service gets the public URL the packaging service answered. *)
Theorem generation_passes_results_on
    (w : World) (userPrompt : string) (projId : option Z) (s : Store) :
  let t := trace (run w (generateCode userPrompt projId) s) in
  (forall body o,
      In (EvAwait (Post GenerateFrontend body) o) t ->
      body = JObj [("prompt", JStr userPrompt)]) /\
  (forall text o,
      In (EvCall (ParseFrontendCode text) o) t ->
      exists body res content first,
        In (EvAwait (Post GenerateFrontend body) (Returns res)) t /\
        prop res "content" = Returns content /\
        index content 0 = Returns first /\
        prop first "text" = Returns text) /\
  (forall body o,
      In (EvAwait (Post WriteFiles body) o) t ->
      exists text parsed files,
        In (EvCall (ParseFrontendCode text) (Returns parsed)) t /\
        prop parsed "codeFiles" = Returns files /\
        body = JObj [("files", files)]) /\
  (forall body o,
      In (EvAwait (Post BuildRun body) o) t ->
      exists res data url,
        In (EvAwait (Get ZipFolder) (Returns res)) t /\
        prop res "data" = Returns data /\
        prop data "publicUrl" = Returns url /\
        body = JObj [("zipUrl", url)]).
Proof.
  intros t. subst t.
  unfold run, generateCode, generate_pipeline. cbn [exec].
  destruct (isGenerating s).
  { repeat split; intros ? ? []. }
  crunch.
  all: repeat split; intros ? ? H; pick_event H.
  all: injection H; intros; subst.
  all: try reflexivity.
  all: repeat eexists.
  all: try find_event.
  all: first [eassumption | reflexivity].
Qed.

Lemma generation_passes_results_on_witness :
  let t := trace (run world_fresh (generateCode "build a todo app" (Some 42%Z))
                      initial_store) in
  let zip := JStr "https://zips.example/42.zip" in
  let body := JObj [("zipUrl", zip)] in
  let built := Returns (JObj [("previewUrl", preview42)]) in
  In (EvAwait (Post BuildRun body) built) t /\
  exists res data url,
    In (EvAwait (Get ZipFolder) (Returns res)) t /\
    prop res "data" = Returns data /\
    prop data "publicUrl" = Returns url /\
    body = JObj [("zipUrl", url)].
Proof.
  assert (H : In (EvAwait (Post BuildRun (JObj [("zipUrl", JStr "https://zips.example/42.zip")]))
                          (Returns (JObj [("previewUrl", preview42)])))
                 (trace (run world_fresh (generateCode "build a todo app" (Some 42%Z))
                             initial_store))).
  { vm_compute. auto 30. }
  split; [exact H|].
  exact (proj2 (proj2 (proj2
           (@generation_passes_results_on world_fresh "build a todo app" (Some 42%Z)
              initial_store))) _ _ H).
Defined.

(** *** [handleSubmit] *)

(** Run the mapping of the parsed rewrite, by what was parsed. *)
Ltac run_js_map :=
  try match goal with
      | |- context [js_map ?v _] => destruct v; unfold js_map
      end;
  try rewrite map_items_pick;
  try match goal with
      | |- context [existsb nullish ?l] => destruct (existsb nullish l) eqn:?
      end.

(** X11.  A call of [handleSubmit] admitted by its guard never throws.
    It ends with the busy flag off and the prompt cleared, and has added
    two messages to the conversation: the user's prompt, as typed, and
    one reply of the assistant.  The reply reports success, with no error
    shown, only after all four stages ran in order and none failed;
    otherwise it apologises, the error is "Failed to apply changes" and
    the console gets one more line. *)
Theorem handleSubmit_replies_once (w : World) (s : Store) :
  is_empty (trim (prompt s)) || isLoading s = false ->
  let r := run w handleSubmit s in
  result r = inl tt /\
  isLoading (final r) = false /\
  prompt (final r) = EmptyString /\
  exists reply,
    messages (final r) =
      messages s ++ [mkMessage (toString (clock w 0)) (prompt s) User (clock w 1); reply] /\
    msg_type reply = Assistant /\
    ((msg_content reply = "Changes applied successfully!" /\
      error (final r) = EmptyString /\
      console (final r) = console s /\
      stages (trace r) = modification_order /\
      existsb failed (trace r) = false) \/
     (msg_content reply = "Sorry, I encountered an error while applying the changes." /\
      error (final r) = "Failed to apply changes" /\
      exists e, console (final r) = console s ++ [("Error handling submit:", e)])).
Proof.
  intros Hguard r. subst r.
  unfold run, handleSubmit, change_pipeline. cbn [exec]. rewrite Hguard.
  crunch.
  all: run_js_map.
  all: crunch.
  all: repeat split.
  all: eexists; split; [rewrite <- app_assoc; reflexivity|].
  all: split; [reflexivity|].
  all: first [ left; repeat split; reflexivity
             | right; split; [reflexivity|split; [reflexivity|eexists; reflexivity]] ].
Qed.

Lemma handleSubmit_replies_once_witness :
  is_empty (trim (prompt store_with_request)) || isLoading store_with_request = false /\
  let r := run world_item_without_content handleSubmit store_with_request in
  result r = inl tt /\
  isLoading (final r) = false /\
  prompt (final r) = EmptyString /\
  exists reply,
    messages (final r) =
      messages store_with_request ++
      [mkMessage (toString (clock world_item_without_content 0))
                 (prompt store_with_request) User (clock world_item_without_content 1);
       reply] /\
    msg_type reply = Assistant /\
    ((msg_content reply = "Changes applied successfully!" /\
      error (final r) = EmptyString /\
      console (final r) = console store_with_request /\
      stages (trace r) = modification_order /\
      existsb failed (trace r) = false) \/
     (msg_content reply = "Sorry, I encountered an error while applying the changes." /\
      error (final r) = "Failed to apply changes" /\
      exists e, console (final r) =
                console store_with_request ++ [("Error handling submit:", e)])).
Proof.
  split; [reflexivity|].
  apply (@handleSubmit_replies_once world_item_without_content store_with_request).
  reflexivity.
Defined.

(** X12.  The stages a call of [handleSubmit] invokes are an initial
    part of analyse, resolve, rewrite, write, in that order, and after an
    event that failed no stage is invoked. *)
Theorem modification_stages_in_order (w : World) (s : Store) :
  let t := trace (run w handleSubmit s) in
  (exists rest, modification_order = stages t ++ rest) /\
  (forall before e after,
      t = before ++ e :: after -> failed e = true -> stages after = []).
Proof.
  intros t. subst t.
  unfold run, handleSubmit, change_pipeline. cbn [exec].
  destruct (is_empty (trim (prompt s)) || isLoading s).
  { split.
    - exists modification_order. reflexivity.
    - intros [|? ?] ? ? H; discriminate H. }
  crunch.
  all: run_js_map.
  all: crunch.
  all: split;
    [ eexists; reflexivity
    | apply stops_at_failure_spec; reflexivity ].
Qed.

(** X13.  Each stage of [handleSubmit] is given what the stage before it
    returned, and the prompt of the render the call was made from: the
    analysis gets the instructions with the stringified structure of that
    render and the prompt; the resolver gets the base directory and the
    text of the first content block of the analysis; the rewriter gets
    the files the resolver answered and the prompt as typed. *)
Theorem modification_passes_results_on (w : World) (s : Store) :
  let t := trace (run w handleSubmit s) in
  (forall v o, In (EvCall (JSON_stringify v) o) t -> v = value s) /\
  (forall body o,
      In (EvAwait (Post GenerateChanges body) o) t ->
      exists rendered,
        In (EvCall (JSON_stringify (value s)) (Returns rendered)) t /\
        body = JObj [("prompt", JStr (analysisPrompt (interpolate rendered) (prompt s)))]) /\
  (forall body o,
      In (EvAwait (Post ExtractFilesToChange body) o) t ->
      exists request res content first analysisResult,
        In (EvAwait (Post GenerateChanges request) (Returns res)) t /\
        prop res "content" = Returns content /\
        index content 0 = Returns first /\
        prop first "text" = Returns analysisResult /\
        body = JObj [("pwd", JStr baseDir); ("analysisResult", analysisResult)]) /\
  (forall body o,
      In (EvAwait (Post Modify body) o) t ->
      exists request filesToChange files,
        In (EvAwait (Post ExtractFilesToChange request) (Returns filesToChange)) t /\
        prop filesToChange "files" = Returns files /\
        body = JObj [("files", files); ("prompt", JStr (prompt s))]).
Proof.
  intros t. subst t.
  unfold run, handleSubmit, change_pipeline. cbn [exec].
  destruct (is_empty (trim (prompt s)) || isLoading s).
  { repeat split; intros ? ? []. }
  crunch.
  all: run_js_map.
  all: crunch.
  all: repeat split; intros ? ? H; pick_event H.
  all: injection H; intros; subst.
  all: try reflexivity.
  all: repeat eexists.
  all: try find_event.
  all: first [eassumption | reflexivity].
Qed.

Lemma modification_passes_results_on_witness :
  let t := trace (run world_item_without_content handleSubmit store_with_request) in
  let body := JObj [("files", JArr []); ("prompt", JStr "add a dark mode toggle")] in
  let answer := Returns (JObj [("content", JArr [JObj [("text", JStr item_without_content_text)]])]) in
  In (EvAwait (Post Modify body) answer) t /\
  exists request filesToChange files,
    In (EvAwait (Post ExtractFilesToChange request) (Returns filesToChange)) t /\
    prop filesToChange "files" = Returns files /\
    body = JObj [("files", files); ("prompt", JStr (prompt store_with_request))].
Proof.
  assert (H : In (EvAwait
                    (Post Modify (JObj [("files", JArr []);
                                        ("prompt", JStr "add a dark mode toggle")]))
                    (Returns (JObj [("content", JArr [JObj [("text", JStr item_without_content_text)]])])))
                 (trace (run world_item_without_content handleSubmit store_with_request))).
  { vm_compute. auto 30. }
  split; [exact H|].
  exact (proj2 (proj2 (proj2
           (@modification_passes_results_on world_item_without_content
              store_with_request))) _ _ H).
Defined.

(** ** More on the page among its pending calls *)

Section CleanFacts.
Variable bad_cmd : Cmd -> bool.
Variable bad_request : Request -> bool.
Variable keeps : Store -> Prop.
Hypothesis keeps_apply :
  forall c s, bad_cmd c = false -> keeps s -> keeps (apply_cmd c s).
Local Abbreviation avoids := (avoids bad_cmd bad_request).
Local Abbreviation bad_event := (bad_event bad_cmd bad_request).
Local Abbreviation clean := (clean bad_cmd bad_request).

Lemma avoids_segment (w : World) (p : Prog unit) (s : Store) (n : nat) :
  avoids p -> keeps s ->
  let sg := segment w p s n in
  Forall (fun e => bad_event e = false) (seg_events sg) /\
  keeps (seg_store sg) /\
  match seg_end sg with
  | Waiting r k => bad_request r = false /\ forall o, avoids (k o)
  | Finished _ => True
  end.
Proof.
  revert s n.
  induction p as [a|e|k IH|k IH|c k IH|f k IH|r k IH]; intros s n Hp Hs; cbn in *.
  - auto.
  - auto.
  - apply IH; auto.
  - apply IH; auto.
  - destruct Hp as [Hc Hk].
    destruct (IH (apply_cmd c s) n Hk (@keeps_apply c s Hc Hs)) as (He & Hst & Hend).
    repeat split; auto.
  - destruct (IH (builtin w f) s n (Hp _) Hs) as (He & Hst & Hend).
    repeat split; auto.
  - auto.
Qed.

Lemma launch_clean (w : World) (from : Origin) (p : Prog unit) (pg : Page) :
  avoids p -> clean pg -> keeps (store pg) ->
  clean (launch w from p pg) /\ keeps (store (launch w from p pg)).
Proof.
  intros Hp [Hlog Hpend] Hs.
  destruct (@avoids_segment w p (store pg) (readings pg) Hp Hs) as (He & Hst & Hend).
  unfold launch, clean. cbn.
  repeat split; auto.
  - apply Forall_app. auto.
  - destruct (seg_end (segment w p (store pg) (readings pg))); [exact Hpend|].
    apply Forall_app. split; [exact Hpend|].
    constructor; [exact Hend | constructor].
Qed.

Variable loc : LocationState.
Hypothesis mount_avoids : avoids (mount_effect loc).
Hypothesis submit_avoids : avoids handleSubmit.
Hypothesis edit_avoids : forall text, avoids (handlePromptChange text).

Lemma step_clean (w : World) (a : Action) (pg : Page) :
  clean pg -> keeps (store pg) ->
  clean (step loc w a pg) /\ keeps (store (step loc w a pg)).
Proof.
  intros Hc Hs. destruct a as [| |text|i o]; cbn [step].
  - apply launch_clean; auto.
  - apply launch_clean; auto.
  - apply launch_clean; auto.
  - destruct (nth_error (pending pg) i) as [pd|] eqn:Hnth; [|auto].
    destruct Hc as [Hlog Hpend].
    pose proof (nth_error_In _ _ Hnth) as Hin.
    pose proof (proj1 (Forall_forall _ _) Hpend pd Hin) as [Hreq Hres].
    apply launch_clean; [apply Hres| |exact Hs].
    split; cbn.
    + apply Forall_app. split; [exact Hlog|].
      constructor; [exact Hreq | constructor].
    + apply Forall_remove_nth. exact Hpend.
Qed.

Lemma play_clean (w : World) (actions : list Action) (pg : Page) :
  clean pg -> keeps (store pg) ->
  clean (play loc w actions pg) /\ keeps (store (play loc w actions pg)).
Proof.
  revert pg. induction actions as [|a actions IH]; intros pg Hc Hs; cbn [play]; [auto|].
  destruct (@step_clean w a pg Hc Hs) as [Hc' Hs'].
  apply IH; assumption.
Qed.
End CleanFacts.

(** Settle what a program that stays within bounds avoids. *)
Ltac settle_avoids :=
  repeat first
    [ exact I
    | apply avoids_do; reflexivity
    | apply avoids_await; reflexivity
    | apply avoids_dot
    | apply avoids_at_index
    | apply avoids_call
    | apply avoids_bind
    | apply avoids_finally
    | apply avoids_try_catch
    | match goal with
      | |- avoids _ _ (if ?b then _ else _) => destruct b
      end
    | intro ].

Lemma fetch_avoids_generation (rendered : status) (id : Z) :
  avoids generation_write generation_request (fetchProjectDeploymentUrl rendered id).
Proof. unfold fetchProjectDeploymentUrl. settle_avoids. Qed.

Lemma handleSubmit_avoids_generation :
  avoids generation_write generation_request handleSubmit.
Proof. handleSubmit_avoids. Qed.

Lemma handleSubmit_avoids_showing :
  avoids deployment_write deployment_request handleSubmit.
Proof. handleSubmit_avoids. Qed.

(** *** A page opened for an existing project *)

(** X14.  A page opened for an existing project never runs the
    generation pipeline: whatever happens on it, and however the services
    answer, it never sends POST /generateFrontend, GET /zipFolder,
    POST /buildrun or a PUT (so it never updates the project store); the
    guard of [generateCode] is never taken and the shared project
    structure stays the one the application held when the page was
    opened.  The requests of [handleSubmit] (to /generateChanges,
    /extractFilesToChange, /modify and /write-files) are not among
    these. *)
Theorem existing_project_is_never_generated
    (loc : LocationState) (w : World) (id : Z) (structure : jsval)
    (actions : list Action) :
  branch loc = BranchFetch id ->
  let pg := play loc w actions (opened structure) in
  Forall (fun q => generation_request q = false) (requests (log pg)) /\
  Forall (fun pd => generation_request (awaited pd) = false) (pending pg) /\
  isGenerating (store pg) = false /\
  value (store pg) = structure.
Proof.
  intros Hb pg.
  destruct (branch_fetch _ Hb) as (_ & Hinit).
  destruct (@play_clean generation_write generation_request
              (fun s => isGenerating s = false /\ value s = structure))
    with (loc := loc) (w := w) (actions := actions) (pg := opened structure)
    as [[Hlog Hpend] [Hg Hv]].
  - intros c s Hc [Hg Hv]. destruct c; try discriminate Hc; cbn; auto.
  - unfold mount_effect. intros s. destruct (hasInitialized s); [exact I|].
    rewrite Hinit.
    apply avoids_bind; [apply fetch_avoids_generation|].
    intros _. apply avoids_do. reflexivity.
  - exact handleSubmit_avoids_generation.
  - intros text. apply avoids_do. reflexivity.
  - split; constructor.
  - split; reflexivity.
  - fold pg in Hlog, Hpend, Hg, Hv.
    repeat split; auto.
    + apply (@clean_trace_requests generation_write generation_request _ Hlog).
    + eapply Forall_impl; [|exact Hpend]. intros pd [H _]. exact H.
Qed.

Lemma existing_project_is_never_generated_witness :
  branch existing_project_42 = BranchFetch 42 /\
  let pg := play existing_project_42 world_deployed
                 [Mount; Edit "make it blue"; Submit; Settle 0 (Returns project42_ready)]
                 (opened (JObj [])) in
  Forall (fun q => generation_request q = false) (requests (log pg)) /\
  Forall (fun pd => generation_request (awaited pd) = false) (pending pg) /\
  isGenerating (store pg) = false /\
  value (store pg) = JObj [].
Proof.
  split; [reflexivity|].
  apply (@existing_project_is_never_generated
           existing_project_42 world_deployed 42%Z (JObj [])
           [Mount; Edit "make it blue"; Submit; Settle 0 (Returns project42_ready)]).
  reflexivity.
Defined.

(** *** A page opened without a project *)

(** X15.  A page opened without a project to load or generate stays
    "idle" for good: it shows no preview and no loading screen, remembers
    no project, and never sends a request to /api/projects, a
    POST /generateFrontend, a GET /zipFolder, a POST /buildrun or a PUT.
    The requests of [handleSubmit] (to /generateChanges,
    /extractFilesToChange, /modify and /write-files) are not among
    these. *)
Theorem page_without_project_stays_idle
    (loc : LocationState) (w : World) (structure : jsval) (actions : list Action) :
  branch loc = BranchIdle ->
  let pg := play loc w actions (opened structure) in
  projectStatus (store pg) = SIdle /\
  previewUrl (store pg) = JStr EmptyString /\
  loadingCode (store pg) = false /\
  currentProjectId (store pg) = None /\
  value (store pg) = structure /\
  Forall (fun q => deployment_request q = false) (requests (log pg)) /\
  Forall (fun pd => deployment_request (awaited pd) = false) (pending pg).
Proof.
  intros Hb pg.
  destruct (branch_idle _ Hb) as (_ & Hinit).
  destruct (@play_clean deployment_write deployment_request
              (fun s => projectStatus s = SIdle /\
                        previewUrl s = JStr EmptyString /\
                        loadingCode s = false /\
                        currentProjectId s = None /\
                        value s = structure))
    with (loc := loc) (w := w) (actions := actions) (pg := opened structure)
    as [[Hlog Hpend] Hkeeps].
  - intros c s Hc Hk. destruct c as [| | | | | |[]| | | | |];
      try discriminate Hc; cbn; intuition auto.
  - unfold mount_effect. intros s. destruct (hasInitialized s); [exact I|].
    rewrite Hinit. settle_avoids.
  - exact handleSubmit_avoids_showing.
  - intros text. apply avoids_do. reflexivity.
  - split; constructor.
  - repeat split; reflexivity.
  - fold pg in Hlog, Hpend, Hkeeps.
    destruct Hkeeps as (H1 & H2 & H3 & H4 & H5).
    repeat split; auto.
    + apply (@clean_trace_requests deployment_write deployment_request _ Hlog).
    + eapply Forall_impl; [|exact Hpend]. intros pd [H _]. exact H.
Qed.

Lemma page_without_project_stays_idle_witness :
  branch no_project = BranchIdle /\
  let pg := play no_project world_fresh
                 [Mount; Edit "make it blue"; Submit; Mount] (opened (JObj [])) in
  projectStatus (store pg) = SIdle /\
  previewUrl (store pg) = JStr EmptyString /\
  loadingCode (store pg) = false /\
  currentProjectId (store pg) = None /\
  value (store pg) = JObj [] /\
  Forall (fun q => deployment_request q = false) (requests (log pg)) /\
  Forall (fun pd => deployment_request (awaited pd) = false) (pending pg).
Proof.
  split; [reflexivity|].
  apply (@page_without_project_stays_idle
           no_project world_fresh (JObj [])
           [Mount; Edit "make it blue"; Submit; Mount]).
  reflexivity.
Defined.

(** *** The mount effect *)

(** X16.  The guard of [fetchProjectDeploymentUrl] never stops the mount
    effect: its callback is the one of the first render, whose status is
    "idle".  On a page for an existing project that has not finished
    initialising, every run of the effect starts a request for the
    project and shows the loading screen again, also while an earlier
    request for the same project is in flight. *)
Theorem mount_always_fetches
    (loc : LocationState) (w : World) (id : Z) (pg : Page) :
  branch loc = BranchFetch id ->
  hasInitialized (store pg) = false ->
  let pg' := step loc w Mount pg in
  (exists k, pending pg' = pending pg ++ [mkPending FromFetch (Get (ApiProjects id)) k]) /\
  projectStatus (store pg') = SLoading /\
  loadingCode (store pg') = true /\
  error (store pg') = EmptyString /\
  currentProjectId (store pg') = Some id.
Proof.
  intros Hb Hi pg'. subst pg'.
  destruct (branch_fetch _ Hb) as (Horigin & Hinit).
  unfold step, launch, mount_effect. cbn [segment].
  rewrite Hi, Hinit, Horigin.
  unfold fetchProjectDeploymentUrl. cbn. rewrite andb_false_r. cbn.
  repeat split. eexists. reflexivity.
Qed.

Lemma mount_always_fetches_witness :
  let pg := step existing_project_42 world_deployed Mount initial_page in
  (branch existing_project_42 = BranchFetch 42 /\
   hasInitialized (store pg) = false /\
   currentProjectId (store pg) = Some 42%Z /\
   projectStatus (store pg) = SLoading) /\
  let pg' := step existing_project_42 world_deployed Mount pg in
  (exists k, pending pg' = pending pg ++ [mkPending FromFetch (Get (ApiProjects 42)) k]) /\
  projectStatus (store pg') = SLoading /\
  loadingCode (store pg') = true /\
  error (store pg') = EmptyString /\
  currentProjectId (store pg') = Some 42%Z.
Proof.
  split; [repeat split; reflexivity|].
  apply (@mount_always_fetches existing_project_42 world_deployed 42%Z
           (step existing_project_42 world_deployed Mount initial_page));
    reflexivity.
Defined.

Lemma generateCode_keeps_initialized (userPrompt : string) (projId : option Z) :
  avoids forgets_initialized no_request (generateCode userPrompt projId).
Proof.
  unfold generateCode, generate_pipeline. intros s.
  destruct (isGenerating s); [exact I|].
  destruct (given_number projId); settle_avoids.
Qed.

Lemma mount_keeps_initialized (loc : LocationState) :
  avoids forgets_initialized no_request (mount_effect loc).
Proof.
  unfold mount_effect, initializeProject. intros s.
  destruct (hasInitialized s); [exact I|].
  apply avoids_bind; [|intros _; apply avoids_do; reflexivity].
  destruct (given_bool (existingProject loc)), (given_number (projectId loc)),
    (given_string (navPrompt loc)).
  all: try (unfold fetchProjectDeploymentUrl; settle_avoids; fail).
  all: try (apply avoids_do; reflexivity).
  all: apply avoids_bind; [apply avoids_do; reflexivity|];
    intros _; apply generateCode_keeps_initialized.
Qed.

Lemma handleSubmit_keeps_initialized : avoids forgets_initialized no_request handleSubmit.
Proof. handleSubmit_avoids. Qed.

(** X17.  Initialisation is for good.  Once the page has recorded that it
    was initialised, nothing that happens on it makes it forget, and
    every later run of the mount effect does nothing. *)
Theorem initialized_for_good
    (loc : LocationState) (w : World) (structure : jsval)
    (before after : list Action) :
  let pg := play loc w before (opened structure) in
  hasInitialized (store pg) = true ->
  let pg' := play loc w after pg in
  hasInitialized (store pg') = true /\
  step loc w Mount pg' = pg'.
Proof.
  intros pg Hi pg'.
  destruct (@play_clean forgets_initialized no_request (fun _ => True))
    with (loc := loc) (w := w) (actions := before) (pg := opened structure)
    as [Hclean _]; auto using mount_keeps_initialized, handleSubmit_keeps_initialized.
  { intros text. apply avoids_do. reflexivity. }
  { split; constructor. }
  fold pg in Hclean.
  destruct (@play_clean forgets_initialized no_request
              (fun s => hasInitialized s = true))
    with (loc := loc) (w := w) (actions := after) (pg := pg)
    as [_ Hi']; auto using mount_keeps_initialized, handleSubmit_keeps_initialized.
  { intros c s Hc Hs. destruct c as [| | | | | | | |[]| | |];
      try discriminate Hc; cbn; auto. }
  { intros text. apply avoids_do. reflexivity. }
  fold pg' in Hi'.
  split; [exact Hi'|].
  unfold step, launch. rewrite (mount_initialized w loc _ _ Hi'). cbn.
  rewrite app_nil_r. destruct pg'; reflexivity.
Qed.

Lemma initialized_for_good_witness :
  let pg := play no_project world_fresh [Mount] (opened (JObj [])) in
  hasInitialized (store pg) = true /\
  let pg' := play no_project world_fresh [Edit "make it blue"; Submit; Mount] pg in
  hasInitialized (store pg') = true /\
  step no_project world_fresh Mount pg' = pg'.
Proof.
  split; [reflexivity|].
  apply (@initialized_for_good no_project world_fresh (JObj [])
           [Mount] [Edit "make it blue"; Submit; Mount]).
  reflexivity.
Defined.

(** *** The input area *)



(** X19.  While a run of [generateCode] is in flight and has not reached
    the update of the project store, the page shows "loading", and the
    text area and the send button are disabled: no change can be
    requested from the input area until the build has answered. *)
Theorem input_is_disabled_while_generating
    (loc : LocationState) (w : World) (actions : list Action) (pd : Pending) :
  let pg := play loc w actions initial_page in
  In pd (pending pg) ->
  from_generate pd = true ->
  is_record (awaited pd) = false ->
  projectStatus (store pg) = SLoading /\
  input_disabled (store pg) = true /\
  send_disabled (store pg) = true.
Proof.
  intros pg Hin Hfrom Hrec.
  pose proof (play_invariant w actions (invariant_initial loc)) as Hinv.
  fold pg in Hinv.
  destruct (inv_generating Hinv pd Hin Hfrom) as (_ & Hst & _).
  unfold shown_at in Hst. rewrite Hrec in Hst.
  unfold input_disabled, send_disabled. rewrite Hst. cbn.
  repeat split; auto using orb_true_r.
Qed.

Lemma input_is_disabled_while_generating_witness :
  let pg := play new_project_42 world_fresh [Mount] initial_page in
  exists pd,
    (In pd (pending pg) /\ from_generate pd = true /\ is_record (awaited pd) = false) /\
    projectStatus (store pg) = SLoading /\
    input_disabled (store pg) = true /\
    send_disabled (store pg) = true.
Proof.
  intros pg.
  assert (H : exists pd, pending pg = [pd] /\ from_generate pd = true /\
                         is_record (awaited pd) = false).
  { eexists. split; [reflexivity|]. split; reflexivity. }
  destruct H as (pd & Hp & Hf & Hr).
  assert (Hin : In pd (pending pg)) by (rewrite Hp; left; reflexivity).
  exists pd. split; [repeat split; assumption|].
  exact (@input_is_disabled_while_generating new_project_42 world_fresh [Mount] pd
           Hin Hf Hr).
Defined.

(** ** The landing page *)

Lemma trimmed_not_empty (s : string) : is_empty (trim s) = false -> is_empty s = false.
Proof. destruct s; [intros H; discriminate H | reflexivity]. Qed.

(** *** Creating a project *)

(** X20.  A click that [handleSubmit] admits sends one request, to
    create a project owned by the signed-in user, described by the prompt
    as typed and named after today's date.  When the project is created
    the call navigates, once, to the chat page with that prompt and the
    new project's id; when the request is rejected it navigates nowhere
    and tells the console.  Either way it does not throw and leaves the
    busy flag off and the rest of the state as it was. *)
Theorem create_then_open (w : Index.World) (s : Index.Store) (user : Index.DbUser.t) :
  Index.dbUser s = Some user ->
  is_empty (trim (Index.prompt s)) = false ->
  let r := Index.handleSubmit w s in
  let body := Index.projectData w user (Index.prompt s) in
  Index.result r = inl tt /\
  Index.final r =
    Index.mkStore (Index.prompt s) false (Index.projects s) (Index.loadingProjects s)
                  (Index.dbUser s) /\
  filter Index.is_request (Index.effects r) = [Index.PostProjects body] /\
  match Index.createProject w body with
  | inl newProject =>
      Index.effects r =
        [Index.PostProjects body;
         Index.Navigate "/chatPage"
           (mkLocation (Some (Index.prompt s)) (Some (Index.Project.id newProject)) None)]
  | inr e =>
      Index.effects r = [Index.PostProjects body; Index.ConsoleError "Error:" (Some e)]
  end.
Proof.
  intros Huser Hprompt r body. subst r body.
  unfold Index.handleSubmit, Index.projectData, Index.bind, Index.rendered. cbn.
  rewrite Huser, Hprompt.
  unfold Index.finally, Index.try_catch, Index.bind, Index.after, Index.request,
    Index.setIsLoading, Index.update, Index.toLocaleDateString, Index.navigate, Index.console_error,
    Index.effect.
  cbn.
  destruct (Index.createProject w _) as [newProject|e]; cbn;
    rewrite ?Huser; repeat split; reflexivity.
Qed.

Lemma create_then_open_witness :
  (Index.dbUser signed_in_with_prompt = Some ada /\
   is_empty (trim (Index.prompt signed_in_with_prompt)) = false) /\
  let w := index_world true true in
  let s := signed_in_with_prompt in
  let r := Index.handleSubmit w s in
  let body := Index.projectData w ada (Index.prompt s) in
  Index.result r = inl tt /\
  Index.final r =
    Index.mkStore (Index.prompt s) false (Index.projects s) (Index.loadingProjects s)
                  (Index.dbUser s) /\
  filter Index.is_request (Index.effects r) = [Index.PostProjects body] /\
  match Index.createProject w body with
  | inl newProject =>
      Index.effects r =
        [Index.PostProjects body;
         Index.Navigate "/chatPage"
           (mkLocation (Some (Index.prompt s)) (Some (Index.Project.id newProject)) None)]
  | inr e =>
      Index.effects r = [Index.PostProjects body; Index.ConsoleError "Error:" (Some e)]
  end.
Proof.
  split; [split; reflexivity|].
  apply (@create_then_open (index_world true true) signed_in_with_prompt ada);
    reflexivity.
Defined.

(** X21.  Without a synchronised user, or with a prompt that is empty or
    white space only, [handleSubmit] does nothing but tell the console:
    it sends no request, navigates nowhere and leaves the state as it
    was, the busy flag included. *)
Theorem create_refused (w : Index.World) (s : Index.Store) :
  Index.dbUser s = None \/ is_empty (trim (Index.prompt s)) = true ->
  Index.handleSubmit w s =
  Index.mkRun (inl tt) s
    [Index.ConsoleError "User not authenticated or prompt is empty" None].
Proof.
  intros H.
  unfold Index.handleSubmit, Index.bind, Index.rendered. cbn.
  destruct (Index.dbUser s) as [user|]; [|reflexivity].
  destruct H as [H|H]; [discriminate H|]. rewrite H. reflexivity.
Qed.

Lemma create_refused_witness :
  (Index.dbUser Index.initial_store = None \/
   is_empty (trim (Index.prompt Index.initial_store)) = true) /\
  Index.handleSubmit (index_world true true) Index.initial_store =
  Index.mkRun (inl tt) Index.initial_store
    [Index.ConsoleError "User not authenticated or prompt is empty" None].
Proof.
  split; [left; reflexivity|].
  apply (@create_refused (index_world true true) Index.initial_store).
  left. reflexivity.
Defined.

(** *** From the landing page to the chat page *)

(** X22.  The chat page opened by [handleSubmit] generates: with the
    state the landing page navigates with after it created a project,
    [initializeProject] takes the branch that calls [generateCode] with
    the prompt as typed and the new project's id.  The guard of the
    landing page is what makes the prompt count as given.  A project
    whose id is 0 counts as no project: the chat page stays idle. *)
Theorem created_project_is_generated
    (w : Index.World) (s : Index.Store) (user : Index.DbUser.t)
    (newProject : Index.Project.t) :
  Index.dbUser s = Some user ->
  is_empty (trim (Index.prompt s)) = false ->
  Index.createProject w (Index.projectData w user (Index.prompt s)) = inl newProject ->
  exists loc,
    Index.navigations (Index.effects (Index.handleSubmit w s)) = [("/chatPage", loc)] /\
    branch loc =
      if Z.eqb (Index.Project.id newProject) 0 then BranchIdle
      else BranchGenerate (Index.prompt s) (Index.Project.id newProject).
Proof.
  intros Huser Hprompt Hnew.
  unfold Index.handleSubmit, Index.projectData, Index.bind, Index.rendered in *. cbn.
  rewrite Huser, Hprompt.
  unfold Index.finally, Index.try_catch, Index.bind, Index.after, Index.request,
    Index.setIsLoading, Index.update, Index.toLocaleDateString, Index.navigate, Index.console_error,
    Index.effect.
  cbn in *. rewrite Hnew. cbn.
  eexists. split; [reflexivity|].
  unfold branch, given_number. cbn. rewrite (trimmed_not_empty _ Hprompt).
  destruct (Z.eqb (Index.Project.id newProject) 0); reflexivity.
Qed.

Lemma created_project_is_generated_witness :
  let w := index_world true true in
  let s := signed_in_with_prompt in
  let newProject := project_of 43 "Project 1/3/2025" in
  (Index.dbUser s = Some ada /\
   is_empty (trim (Index.prompt s)) = false /\
   Index.createProject w (Index.projectData w ada (Index.prompt s)) = inl newProject) /\
  exists loc,
    Index.navigations (Index.effects (Index.handleSubmit w s)) = [("/chatPage", loc)] /\
    branch loc =
      if Z.eqb (Index.Project.id newProject) 0 then BranchIdle
      else BranchGenerate (Index.prompt s) (Index.Project.id newProject).
Proof.
  split; [repeat split; reflexivity|].
  apply (@created_project_is_generated (index_world true true) signed_in_with_prompt ada
           (project_of 43 "Project 1/3/2025"));
    reflexivity.
Defined.

(** X23.  A click on a project card only navigates: to the chat page,
    with the project's id and the mark of an existing project.  With that
    state [initializeProject] takes the branch that loads the recorded
    deployment, and never the one that generates; a project whose id is
    0 counts as no project. *)
Theorem clicked_project_is_loaded
    (w : Index.World) (s : Index.Store) (project : Index.Project.t) :
  exists loc,
    Index.handleProjectClick project w s =
      Index.mkRun (inl tt) s [Index.Navigate "/chatPage" loc] /\
    branch loc =
      if Z.eqb (Index.Project.id project) 0 then BranchIdle
      else BranchFetch (Index.Project.id project).
Proof.
  eexists. split; [reflexivity|].
  unfold branch, given_number. cbn.
  destruct (Z.eqb (Index.Project.id project) 0); reflexivity.
Qed.

(** *** Deleting a project *)

Ltac run_index :=
  unfold Index.handleDeleteProject, Index.syncUserAndFetchProjects,
    Index.finally, Index.try_catch, Index.bind, Index.after, Index.request,
    Index.window_confirm,
    Index.setProjects, Index.setDbUser, Index.setLoadingProjects, Index.update,
    Index.console_error, Index.effect, Index.ret;
  cbn.

(** X24.  [handleDeleteProject] never throws and touches nothing but the
    list of projects.  It always stops the click from reaching the card
    and asks for confirmation.  Declined, it sends nothing and leaves the
    list alone.  Confirmed, it sends one request, to delete that project;
    if the request is accepted the list loses the projects with that id
    and keeps every other one; if it is rejected the list stays as it was
    and the console is told. *)
Theorem delete_removes_that_project
    (w : Index.World) (s : Index.Store) (projectId : Z) :
  let r := Index.handleDeleteProject projectId w s in
  let kept := Index.projects (Index.final r) in
  Index.result r = inl tt /\
  Index.final r =
    Index.mkStore (Index.prompt s) (Index.isLoading s) kept (Index.loadingProjects s)
                  (Index.dbUser s) /\
  if Index.confirms w Index.confirm_delete then
    match Index.removeProject w projectId with
    | inl _ =>
        Index.effects r =
          [Index.StopPropagation; Index.Confirm Index.confirm_delete;
           Index.DeleteProject projectId] /\
        (forall p, In p kept <->
                   In p (Index.projects s) /\ Index.Project.id p <> projectId)
    | inr e =>
        Index.effects r =
          [Index.StopPropagation; Index.Confirm Index.confirm_delete;
           Index.DeleteProject projectId;
           Index.ConsoleError "Error deleting project:" (Some e)] /\
        kept = Index.projects s
    end
  else
    Index.effects r = [Index.StopPropagation; Index.Confirm Index.confirm_delete] /\
    kept = Index.projects s.
Proof.
  intros r kept. subst r kept. run_index.
  unfold Index.confirm_delete.
  destruct (Index.confirms w _); cbn.
  - destruct (Index.removeProject w projectId) as [[]|e]; cbn.
    + split; [reflexivity|]. split; [reflexivity|]. split; [reflexivity|].
      intros p. rewrite filter_In, negb_true_iff, Z.eqb_neq. reflexivity.
    + destruct s; repeat split; reflexivity.
  - destruct s; repeat split; reflexivity.
Qed.

(** *** Synchronising the user *)

(** X25.  While Clerk has not loaded, or when nobody is signed in, the
    effect does nothing.  Otherwise it sends the user's data, and asks
    for the projects of the user the service answered with: it never
    throws, always ends with the list's loading flag off, and leaves the
    prompt and the busy flag alone.  When both requests are answered the
    user and the projects are the answers.  When the first is rejected
    no projects are asked for and user and projects stay as they were;
    when the second is rejected the user is kept and the projects stay
    as they were.  A rejection goes to the console. *)
Theorem sync_ends_loaded
    (w : Index.World) (s : Index.Store) (isLoaded : bool)
    (clerkUser : option Index.ClerkUser.t) :
  let r := Index.syncUserAndFetchProjects isLoaded clerkUser w s in
  let failure e :=
    Index.ConsoleError "Error syncing user or fetching projects:" (Some e) in
  Index.result r = inl tt /\
  Index.prompt (Index.final r) = Index.prompt s /\
  Index.isLoading (Index.final r) = Index.isLoading s /\
  match isLoaded, clerkUser with
  | true, Some user =>
      let body := Index.userData user in
      Index.loadingProjects (Index.final r) = false /\
      match Index.createUser w body with
      | inl dbUser =>
          Index.dbUser (Index.final r) = Some dbUser /\
          match Index.userProjects w (Index.DbUser.id dbUser) with
          | inl projects =>
              Index.projects (Index.final r) = projects /\
              Index.effects r =
                [Index.PostUsers body; Index.GetUserProjects (Index.DbUser.id dbUser)]
          | inr e =>
              Index.projects (Index.final r) = Index.projects s /\
              Index.effects r =
                [Index.PostUsers body; Index.GetUserProjects (Index.DbUser.id dbUser);
                 failure e]
          end
      | inr e =>
          Index.dbUser (Index.final r) = Index.dbUser s /\
          Index.projects (Index.final r) = Index.projects s /\
          Index.effects r = [Index.PostUsers body; failure e]
      end
  | _, _ => r = Index.mkRun (inl tt) s []
  end.
Proof.
  intros r failure. subst r failure.
  destruct isLoaded, clerkUser as [user|]; try (repeat split; reflexivity).
  run_index.
  destruct (Index.createUser w (Index.userData user)) as [dbUser|e]; cbn.
  - destruct (Index.userProjects w (Index.DbUser.id dbUser)) as [projects|e]; cbn;
      repeat split; reflexivity.
  - repeat split; reflexivity.
Qed.


